(** * IAL-expertise: the validation aggregation engine

    A shallow embedding of

    - [davai_tbx/expertise.py]: class [ExpertBoard]
      ([__init__], [add_expert], [process], [parse], [compare], [_status],
      [_notify_no_ref_resource], [remember_listings], [dump]);
    - [ial_expertise/experts/fields.py]: [compare_2_files],
      [compare_2_fields], [ignore_field]; class [FieldsInFileExpert]
      ([_make_pairs], [_make_pairs_from_references],
      [_make_pairs_from_attribute], [_compare]); class [NormsChecker]
      ([summary], [compare_2summaries], [_compare_2normsets]);

    followed by the properties of the specification that concern them,
    and by further properties of the code. *)

From Stdlib Require Import ZArith Floats Lia.
From stdpp Require Import gmap strings list fin_maps sorting.

Set Warnings "-register-all".

(* ===================================================================== *)
(** * Python values, exceptions, and the state-and-exception monad        *)
(* ===================================================================== *)

Module Py.

(** The JSON-like values held by the report documents. *)
Inductive value : Type :=
| VNone
| VBool (b : bool)
| VInt (z : Z)
| VStr (s : string)
| VList (l : list value)
| VDict (d : gmap string value).

(** The exceptions the modelled code can raise. *)
Inductive exn : Type :=
| UnboundLocalError (name : string)
| KeyError (key : string)
| AttributeError (attr : string)
| TypeError
| ValueError
| IndexError
| ExpertError (msg : string).

Inductive outcome (A : Type) : Type :=
| Returned (a : A)
| Raised (e : exn).
Arguments Returned {A} a.
Arguments Raised {A} e.

Definition obind {A B} (o : outcome A) (k : A -> outcome B) : outcome B :=
  match o with
  | Returned a => k a
  | Raised e => Raised e
  end.

(** The call returns. *)
Definition returns {A} (o : outcome A) : bool :=
  match o with
  | Returned _ => true
  | Raised _ => false
  end.

(** A computation over a mutable state [S]: the state survives a raise,
    as the objects a Python function has mutated do. *)
Definition M (S A : Type) : Type := S -> outcome A * S.

Definition ret {S A} (a : A) : M S A := fun s => (Returned a, s).
Definition raise {S A} (e : exn) : M S A := fun s => (Raised e, s).
Definition lift {S A} (o : outcome A) : M S A := fun s => (o, s).
Definition gets {S A} (f : S -> A) : M S A := fun s => (Returned (f s), s).
Definition modify {S} (f : S -> S) : M S unit := fun s => (Returned tt, f s).
Definition bind {S A B} (m : M S A) (k : A -> M S B) : M S B :=
  fun s =>
    match m s with
    | (Returned a, s') => k a s'
    | (Raised e, s') => (Raised e, s')
    end.

(** [for x in l: body(x)] *)
Fixpoint for_each {S A} (l : list A) (body : A -> M S unit) : M S unit :=
  match l with
  | [] => ret tt
  | a :: l' => bind (body a) (fun _ => for_each l' body)
  end.

(** The double quote character, for the formatted texts. *)
Definition dquote : string :=
  String (Ascii.Ascii false true false false false true false false) EmptyString.

(** [v == 's'] for a string literal [s]. *)
Definition eq_str (v : value) (s : string) : bool :=
  match v with
  | VStr s' => String.eqb s' s
  | _ => false
  end.

(** [a == b] for two operands that [index] has already located in a list
    of strings: both are strings there. *)
Definition eq_symbols (a b : value) : bool :=
  match a, b with
  | VStr x, VStr y => String.eqb x y
  | _, _ => false
  end.

(** [v is True], [v is False]: identity with the two bool singletons. *)
Definition is_True (v : value) : bool :=
  match v with VBool true => true | _ => false end.
Definition is_False (v : value) : bool :=
  match v with VBool false => true | _ => false end.

(** [d[k]] on a dict. *)
Definition subscript (d : gmap string value) (k : string) : outcome value :=
  match d !! k with
  | Some v => Returned v
  | None => Raised (KeyError k)
  end.

(** [v[k]] with a string key on any value. *)
Definition getitem (v : value) (k : string) : outcome value :=
  match v with
  | VDict d => subscript d k
  | _ => Raised TypeError
  end.

(** [v.get(k, default)]: only dicts have the method. *)
Definition get_default (v : value) (k : string) (default : value) : outcome value :=
  match v with
  | VDict d => Returned (match d !! k with Some x => x | None => default end)
  | _ => Raised (AttributeError "get")
  end.

(** [v.get(k)] *)
Definition get (v : value) (k : string) : outcome value := get_default v k VNone.

(** [k in v] for a string [k]: key of a dict, substring of a string,
    element of a list. *)
Definition contains (k : string) (v : value) : outcome bool :=
  match v with
  | VDict d => Returned (bool_decide (is_Some (d !! k)))
  | VStr s => Returned (bool_decide (is_Some (String.index 0 k s)))
  | VList l => Returned (existsb (fun x => eq_str x k) l)
  | _ => Raised TypeError
  end.

(** [order.index(v)] *)
Fixpoint index (order : list string) (v : value) : outcome nat :=
  match order with
  | [] => Raised ValueError
  | s :: rest =>
      if eq_str v s then Returned 0
      else obind (index rest v) (fun i => Returned (S i))
  end.

Arguments index : simpl never.

(** [a + b] on strings. *)
Definition add_str (a b : value) : outcome value :=
  match a, b with
  | VStr x, VStr y => Returned (VStr (x +:+ y))
  | _, _ => Raised TypeError
  end.

(** Truth value of a value, as [any] and [if] take it. *)
Definition truth (v : value) : bool :=
  match v with
  | VNone => false
  | VBool b => b
  | VInt z => negb (z =? 0)%Z
  | VStr s => negb (String.eqb s EmptyString)
  | VList l => match l with [] => false | _ => true end
  | VDict d => (0 <? size d)%nat
  end.

(** Truth value of an optional list argument ([None] and [[]] are false). *)
Definition truthy {A} (l : option (list A)) : bool :=
  match l with
  | Some (_ :: _) => true
  | _ => false
  end.

(** ** Strings *)

(** [s.split(c)] for a separator of one character. *)
Fixpoint split (c : Ascii.ascii) (s : string) : list string :=
  match s with
  | EmptyString => [EmptyString]
  | String a s' =>
      if Ascii.eqb a c then EmptyString :: split c s'
      else match split c s' with
           | h :: t => String a h :: t
           | [] => [String a EmptyString]
           end
  end.

(** The characters [';'] and ['\n']. *)
Definition semicolon : Ascii.ascii := Ascii.ascii_of_nat 59.
Definition newline : Ascii.ascii := Ascii.ascii_of_nat 10.

(** [s[n:]] *)
Fixpoint drop_chars (n : nat) (s : string) : string :=
  match n, s with
  | S n', String _ s' => drop_chars n' s'
  | _, _ => s
  end.

(** The characters of a string, each as a string. *)
Fixpoint chars (s : string) : list string :=
  match s with
  | EmptyString => []
  | String c s' => String c EmptyString :: chars s'
  end.

(** [str(t)] of a tuple of strings, given the quote [repr] puts around
    each of them. *)
Definition str_tuple (quote : string) (t : list string) : string :=
  "(" +:+ String.concat ", " (map (fun s => quote +:+ s +:+ quote) t) +:+ ")".

(** ** Lengths and iteration *)

(** [len(v)] *)
Definition len (v : value) : outcome nat :=
  match v with
  | VStr s => Returned (String.length s)
  | VList l => Returned (length l)
  | VDict d => Returned (size d)
  | _ => Raised TypeError
  end.

(** [len(v)] returns. *)
Definition has_len (v : value) : bool :=
  match len v with Returned _ => true | Raised _ => false end.

(** [len(v) == 0] *)
Definition is_empty (v : value) : bool :=
  match len v with Returned 0%nat => true | _ => false end.

(** [for x in v], for the values that can be iterated over: the elements
    of a list, the keys of a dict, the characters of a string. *)
Definition iterate (v : value) : outcome (list value) :=
  match v with
  | VList l => Returned l
  | VDict d => Returned (map (fun kv => VStr (fst kv)) (map_to_list d))
  | VStr s => Returned (map VStr (chars s))
  | _ => Raised TypeError
  end.

(** [[f(x) for x in l]] for an [f] that can raise. *)
Fixpoint for_all {A B} (f : A -> outcome B) (l : list A) : outcome (list B) :=
  match l with
  | [] => Returned []
  | a :: l' =>
      obind (f a) (fun b => obind (for_all f l') (fun bs => Returned (b :: bs)))
  end.

(** [[y for x in l if ...]], where the test and the element can raise:
    [f x] is [None] when the test fails. *)
Fixpoint for_some {A B} (f : A -> outcome (option B)) (l : list A) : outcome (list B) :=
  match l with
  | [] => Returned []
  | a :: l' =>
      obind (f a) (fun b =>
      obind (for_some f l') (fun bs =>
      Returned (match b with Some y => y :: bs | None => bs end)))
  end.

(** ** Dicts whose order of insertion matters *)

(** [d[k] = v]: a key already there keeps its place. *)
Fixpoint assign {V} (k : string) (v : V) (d : list (string * V)) : list (string * V) :=
  match d with
  | [] => [(k, v)]
  | (k', v') :: d' =>
      if String.eqb k' k then (k, v) :: d' else (k', v') :: assign k v d'
  end.

(** [d.get(k)] *)
Fixpoint item {V} (k : string) (d : list (string * V)) : option V :=
  match d with
  | [] => None
  | (k', v) :: d' => if String.eqb k' k then Some v else item k d'
  end.

End Py.

Declare Scope py_scope.
Delimit Scope py_scope with py.
Notation "'let*' x ':=' m 'in' k" := (Py.bind m (fun x => k))
  (at level 10, x name, m at level 100, k at level 200) : py_scope.
Notation "m ';;' k" := (Py.bind m (fun _ => k))
  (at level 100, k at level 200, right associativity) : py_scope.
Notation "'let?' x ':=' m 'in' k" := (Py.obind m (fun x => k))
  (at level 10, x name, m at level 100, k at level 200) : py_scope.

(* ===================================================================== *)
(** * davai_tbx/expertise.py                                              *)
(* ===================================================================== *)

Module Expertise.
Import Py.
Local Open Scope py_scope.

(** An expert of the panel, as [ExpertBoard] uses it: its [kind], its
    [side_expert] flag, and what its external methods [parse()] and
    [compare(references)] do: answer a document, or raise. The board
    calls both outside any [try]. *)
Record expert : Type := Expert {
  kind : string;
  side_expert : bool;
  parse_ : outcome value;
  compare_ : list string -> outcome value
}.

(** A reference resource [{'rh': ..., 'ref_is': {'task': ...}}]. *)
Record reference : Type := Reference {
  rh : string;
  ref_is_task : string
}.

(** The calls observed on a run, in order. *)
Inductive event : Type :=
| Call (method : string)
| ExpertParse (kind : string)
| ExpertCompare (kind : string) (which : string)
| Dump (filename : string) (content : gmap string value).

(** The two comparison summaries a board holds, named as [getattr] is
    given them. *)
Inductive which_summary : Type := consistency_ | continuity_.

Definition summary_name (w : which_summary) : string :=
  match w with
  | consistency_ => "consistency"
  | continuity_ => "continuity"
  end.

(** The attributes of an [ExpertBoard], with the trace of calls. *)
Record board : Type := Board {
  experts : list expert;
  lead_expert : option string;
  task_summary : gmap string value;
  consistency : gmap string value;
  continuity : gmap string value;
  trace : list event
}.

Definition getattr (w : which_summary) (b : board) : gmap string value :=
  match w with
  | consistency_ => consistency b
  | continuity_ => continuity b
  end.

Definition setattr (w : which_summary) (d : gmap string value) (b : board) : board :=
  match w with
  | consistency_ =>
      Board (experts b) (lead_expert b) (task_summary b) d (continuity b) (trace b)
  | continuity_ =>
      Board (experts b) (lead_expert b) (task_summary b) (consistency b) d (trace b)
  end.

Definition set_lead_expert (l : option string) (b : board) : board :=
  Board (experts b) l (task_summary b) (consistency b) (continuity b) (trace b).

Definition set_task_summary (d : gmap string value) (b : board) : board :=
  Board (experts b) (lead_expert b) d (consistency b) (continuity b) (trace b).

Definition log (e : event) (b : board) : board :=
  Board (experts b) (lead_expert b) (task_summary b) (consistency b) (continuity b)
        (trace b ++ [e]).

(** A status code [{'symbol': .., 'short': .., 'text': ..}]. *)
Definition mk_status (symbol short text : string) : value :=
  VDict (<["symbol" := VStr symbol]> (<["short" := VStr short]>
        (<["text" := VStr text]> ∅))).

Definition status_order : list string := ["-"; "0"; "?"; "OK"; "KO"; "!"; "+"].

(** What the local variable [status] of [_status] is bound to: nothing
    yet, the very object stored under [comp_summary['comparisonStatus']]
    (so that an in-place update of the one is seen through the other), or
    an object of its own. *)
Inductive binding : Type :=
| Unbound
| Shared
| Own (v : value).

(** The locals of one call of [_status]. *)
Record frame : Type := Frame {
  comp_summary : gmap string value;
  status : binding
}.

Definition set_comp_summary (f : gmap string value -> gmap string value) (fr : frame) : frame :=
  Frame (f (comp_summary fr)) (status fr).

Definition set_status (s : binding) (fr : frame) : frame :=
  Frame (comp_summary fr) s.

(** Reading the variable [status]. *)
Definition read_status : M frame value :=
  fun fr =>
    match status fr with
    | Unbound => (Raised (UnboundLocalError "status"), fr)
    | Shared => (subscript (comp_summary fr) "comparisonStatus", fr)
    | Own v => (Returned v, fr)
    end.

(** [for e in self.experts: comp_summary.pop(e.kind, None)] *)
Definition pop_all (panel : list expert) (cs : gmap string value) : gmap string value :=
  foldl (fun m e => delete (kind e) m) cs panel.

Section WithRepr.

(** Python's [str()] of a value that is not a string (a builtin). *)
Variable py_repr : value -> string.

(** ['{}'.format(v)] *)
Definition format (v : value) : string :=
  match v with
  | VStr s => s
  | _ => py_repr v
  end.

(** [e.kind in comp_summary and comp_summary[e.kind].get('symbol') == '+'] *)
Definition reference_crashed (e : expert) (cs : gmap string value) : outcome bool :=
  match cs !! kind e with
  | None => Returned false
  | Some doc => let? s := get doc "symbol" in Returned (eq_str s "+")
  end.

(** [e.kind in comp_summary and 'Validated' in comp_summary[e.kind]] *)
Definition has_validated (e : expert) (cs : gmap string value) : outcome bool :=
  match cs !! kind e with
  | None => Returned false
  | Some doc => contains "Validated" doc
  end.

(** [e.kind in comp_summary and comp_summary[e.kind].get('Comparison') == 'Failed'] *)
Definition comparison_failed (e : expert) (cs : gmap string value) : outcome bool :=
  match cs !! kind e with
  | None => Returned false
  | Some doc => let? c := get doc "Comparison" in Returned (eq_str c "Failed")
  end.

(** [e.kind in comp_summary and
     comp_summary[e.kind].get('comparisonStatus', {}).get('symbol') == '0'] *)
Definition no_reference (e : expert) (cs : gmap string value) : outcome bool :=
  match cs !! kind e with
  | None => Returned false
  | Some doc =>
      let? st := get_default doc "comparisonStatus" (VDict ∅) in
      let? s := get st "symbol" in
      Returned (eq_str s "0")
  end.

(** The branch taken when a 'Validated' key is found: the value is
    compared to [True], then to [False]; any other value leaves [status]
    as it was. *)
Definition interpret_validated (e : expert) : M frame unit :=
  let* doc := (fun fr => (subscript (comp_summary fr) (kind e), fr)) in
  let* v := lift (getitem doc "Validated") in
  if is_True v then
    let* means := lift (getitem doc "Validated means") in
    modify (set_status (Own (mk_status "OK" "OK"
      ("Success: " +:+ dquote +:+ format means +:+ dquote))))
  else if is_False v then
    let* means := lift (getitem doc "Validated means") in
    modify (set_status (Own (mk_status "KO" "KO"
      ("Fail: " +:+ dquote +:+ format means +:+ dquote +:+ " is False"))))
  else ret tt.

(** The lines under [# update status]. *)
Definition update_status : M frame unit :=
  let* st := read_status in
  let* sym := lift (getitem st "symbol") in
  let* i := lift (index status_order sym) in
  let* cur := (fun fr => (subscript (comp_summary fr) "comparisonStatus", fr)) in
  let* cur_sym := lift (getitem cur "symbol") in
  let* j := lift (index status_order cur_sym) in
  if (j <=? i)%nat then
    if eq_symbols sym cur_sym && (eq_str sym "OK" || eq_str sym "KO") then
      (* several OK or KO: gather *)
      let* old := lift (getitem cur "text") in
      let* txt := lift (getitem st "text") in
      let* sep := lift (add_str (VStr " | ") txt) in
      let* new := lift (add_str old sep) in
      match cur with
      | VDict c =>
          modify (set_comp_summary (insert "comparisonStatus" (VDict (<["text" := new]> c))))
      | _ => raise TypeError
      end
    else
      modify (set_comp_summary (insert "comparisonStatus" st));;
      modify (set_status Shared)
  else ret tt.

(** The body of [for e in self.experts:] in [_status]. [panel] is
    [self.experts], which the inner loop walks again; that inner loop
    rebinds [e], which the rest of the body does not read. *)
Definition status_iteration (panel : list expert) (e : expert) : M frame unit :=
  let* crashed := (fun fr => (reference_crashed e (comp_summary fr), fr)) in
  if crashed then
    (* reference was crashed: empty comp_summary and keep that message *)
    let* doc := (fun fr => (subscript (comp_summary fr) (kind e), fr)) in
    modify (set_status (Own doc));;
    modify (set_comp_summary (pop_all panel));;
    update_status
  else if side_expert e then
    ret tt (* continue *)
  else
    let* validated := (fun fr => (has_validated e (comp_summary fr), fr)) in
    if validated then
      interpret_validated e;;
      update_status
    else
      let* failed := (fun fr => (comparison_failed e (comp_summary fr), fr)) in
      if failed then
        modify (set_status (Own (mk_status "!" "! Comp Issue !"
          "To be checked: at least one technical problem occurred in comparison")));;
        update_status
      else
        let* noref := (fun fr => (no_reference e (comp_summary fr), fr)) in
        if noref then
          let* doc := (fun fr => (subscript (comp_summary fr) (kind e), fr)) in
          let* st := lift (get doc "comparisonStatus") in
          modify (set_status (Own st));;
          update_status
        else
          modify (set_status (Own (mk_status "?" "? Unknown ?"
            "To be checked: expert has not stated about Validation")));;
          update_status.

(** [_notify_no_ref_resource] *)
Definition _notify_no_ref_resource (w : which_summary) : M board unit :=
  modify (fun b => setattr w
    (<["comparisonStatus" := mk_status "0" "- No ref -" "No reference to be compared to"]>
       (getattr w b)) b).

(** Runs a computation on the locals of [_status] against the summary
    [w] of the board: the summary is the board's own object, so what the
    computation did to it stays done, also when it raises. *)
Definition with_summary {A} (w : which_summary) (m : M frame A) : M board A :=
  fun b =>
    let '(o, fr) := m (Frame (getattr w b) Unbound) in
    (o, setattr w (comp_summary fr) b).

(** The lines under [# identify leadExpert]. *)
Definition identify_lead_expert (w : which_summary) : M board unit :=
  (let* lead := gets lead_expert in
   match lead with
   | None =>
       let* panel := gets experts in
       let potential_experts :=
         map kind (filter (fun e => side_expert e = false) panel) in
       if (length potential_experts =? 1)%nat then
         modify (set_lead_expert (head potential_experts))
       else ret tt
   | Some _ => ret tt
   end);;
  let* lead := gets lead_expert in
  match lead with
  | Some l => modify (fun b => setattr w (<["leadExpert" := VStr l]> (getattr w b)) b)
  | None => ret tt
  end.

(** The default status, then the loop over the panel: the lines of
    [_status] from [status_order = ...] to [# identify leadExpert]. *)
Definition state_status (panel : list expert) : M frame unit :=
  (* by default, unknown status (e.g. if no expert has a Validated key) *)
  modify (set_comp_summary (insert "comparisonStatus"
    (mk_status "-" "- No expert -" "No expert available")));;
  for_each panel (status_iteration panel).

(** [_status] *)
Definition _status (w : which_summary) : M board unit :=
  let* comp := gets (getattr w) in
  if (0 <? size comp)%nat then
    let* panel := gets experts in
    with_summary w (state_status panel);;
    identify_lead_expert w
  else
    (* means no resources were available for this comparison summary *)
    _notify_no_ref_resource w.

(** [TaskSummary.dump(filename)], an external write, kept in the trace. *)
Definition dump_summary (filename : string) (content : board -> gmap string value) : M board unit :=
  modify (fun b => log (Dump filename (content b)) b).

(** [self.task_summary[e.kind] = e.parse()] *)
Definition parse_expert (e : expert) : M board unit :=
  modify (log (ExpertParse (kind e)));;
  let* document := lift (parse_ e) in
  modify (fun b => set_task_summary (<[kind e := document]> (task_summary b)) b).

(** [parse] *)
Definition parse : M board unit :=
  modify (log (Call "parse"));;
  let* panel := gets experts in
  for_each panel parse_expert;;
  dump_summary "task_summary.json" task_summary.

(** [if refs: summary[e.kind] = e.compare([r['rh'] for r in refs])], for
    the summary [w] and its references. *)
Definition compare_expert (w : which_summary) (refs : option (list reference))
    (e : expert) : M board unit :=
  if truthy refs then
    modify (log (ExpertCompare (kind e) (summary_name w)));;
    let* document := lift (compare_ e (map rh (default [] refs))) in
    modify (fun b => setattr w (<[kind e := document]> (getattr w b)) b)
  else ret tt.

(** [compare] *)
Definition compare (consistency continuity : option (list reference)) : M board unit :=
  modify (log (Call "compare"));;
  (if truthy consistency then
     let ref_task := map ref_is_task (default [] consistency) in
     if (1 <? size (list_to_set ref_task : gset string))%nat then
       raise (ExpertError
         "Consistency reference resources must all come from the same 'task'.")
     else
       let* t := lift (match ref_task with
                       | t :: _ => Returned t
                       | [] => Raised IndexError
                       end) in
       modify (fun b => setattr consistency_
         (<["referenceTask" := VStr t]> (getattr consistency_ b)) b)
   else ret tt);;
  let* panel := gets experts in
  for_each panel (fun e =>
    compare_expert consistency_ consistency e;;
    compare_expert continuity_ continuity e);;
  for_each [consistency_; continuity_] _status.

(** [dump] *)
Definition dump : M board unit :=
  modify (log (Call "dump"));;
  dump_summary "task_summary.json" task_summary;;
  dump_summary "task_consistency.json" consistency;;
  dump_summary "task_continuity.json" continuity.

(** [process]; [now] is what [date.utcnow().isoformat().split('.')[0]]
    answers. *)
Definition process (now : string) (consistency continuity : option (list reference))
  : M board unit :=
  modify (log (Call "process"));;
  parse;;
  (if truthy consistency || truthy continuity then
     compare consistency continuity
   else
     _notify_no_ref_resource consistency_;;
     _notify_no_ref_resource continuity_);;
  modify (fun b => set_task_summary (<["Updated" := VStr now]> (task_summary b)) b);;
  dump.

End WithRepr.

(** ** The constructor *)

(** [task_status['E']] *)
Definition task_ended : value :=
  mk_status "E" "Ended" "Ended: Task ended without crash.".

(** The [lead_expert] argument of the constructor: [None], a kind, or the
    description of an expert, a dict whose entries are strings. *)
Inductive lead_argument : Type :=
| LeadNone
| LeadKind (k : string)
| LeadDescription (d : gmap string string).

Section WithFootprints.

Variable py_repr : value -> string.

(** [fpx.outputexpert], called with a description as its keyword
    arguments: the expert that footprints finds for it, if it finds one. *)
Variable outputexpert : gmap string value -> option expert.

(** [add_expert], on the panel under construction. *)
Definition add_expert (expert_kwargs : gmap string value) : M (list expert) unit :=
  match outputexpert expert_kwargs with
  | Some expert => modify (fun experts => experts ++ [expert])
  | None =>
      let message := "No Expert was found for attributes: " +:+ py_repr (VDict expert_kwargs) in
      let fatal := default (VBool true) (expert_kwargs !! "fatal_exceptions") in
      if truth fatal then raise (ExpertError message)
      else ret tt (* logger.warning(message) *)
  end.

(** [ExpertBoard.__init__] *)
Definition __init__ (experts : list (gmap string value)) (lead_expert : lead_argument)
  : outcome board :=
  let lead_expert :=
    match lead_expert with
    | LeadDescription d => d !! "kind"
    | LeadKind k => Some k
    | LeadNone => None
    end in
  match for_each experts add_expert [] with
  | (Returned _, panel) =>
      (* ExpertBoard AlgoComponent is ran only if the task did not crash *)
      Returned (Board panel lead_expert {[ "Status" := task_ended ]} ∅ ∅ [])
  | (Raised e, _) => Raised e
  end.

End WithFootprints.

(** ** The listings *)

Section WithHandlers.

(** What the resource handlers answer: [rh.resource.kind] and
    [rh.locate()]. *)
Variable resource_kind : string -> string.
Variable locate : string -> string.

Definition is_listing (rh : string) : bool :=
  String.eqb (resource_kind rh) "listing" || String.eqb (resource_kind rh) "plisting".

Definition uris (l : list string) : value := VList (map VStr l).

(** The handlers of a listing among [handlers]. *)
Definition listings (handlers : list string) : list string :=
  filter (fun rh => is_listing rh = true) handlers.

(** [remember_listings]; [promises] holds the [p.rh] of the promises. *)
Definition remember_listings (promises : list string)
    (continuity : option (list reference)) : M board unit :=
  let promises := listings promises in
  let* test_listing :=
    match promises with
    | _ :: _ :: _ => raise (ExpertError "More than one promised listing.")
    | [rh] => ret (split semicolon (locate rh))
    | [] => ret []
    end in
  let* ref_listing :=
    if truthy continuity then
      let ref_listing := listings (map rh (default [] continuity)) in
      match ref_listing with
      | _ :: _ :: _ => raise (ExpertError "More than one continuity reference listing.")
      | [rh] => ret (split semicolon (locate rh))
      | [] => ret ref_listing
      end
    else ret [] in
  (* save *)
  (match test_listing with
   | _ :: _ =>
       modify (fun b => set_task_summary
         (<["Listing" := VDict {[ "Task listing uri(s)" := uris test_listing ]}]>
            (task_summary b)) b)
   | [] => ret tt
   end);;
  match ref_listing with
  | _ :: _ =>
      modify (fun b => setattr continuity_
        (<["Listings" := VDict {[ "Compare listings at uri(s)" :=
                                    VDict (<["test" := uris test_listing]>
                                          (<["ref" := uris ref_listing]> ∅)) ]}]>
           (getattr continuity_ b)) b)
  | [] => ret tt
  end.

End WithHandlers.

(** ** Vocabulary of the statements *)

(** The symbol and the text of the status a summary holds. *)
Definition status_symbol (cs : gmap string value) : option value :=
  match cs !! "comparisonStatus" with
  | Some (VDict c) => c !! "symbol"
  | _ => None
  end.

Definition status_text (cs : gmap string value) : option value :=
  match cs !! "comparisonStatus" with
  | Some (VDict c) => c !! "text"
  | _ => None
  end.

(** The rank of a status code in [status_order], and of the status a
    summary holds. *)
Definition symbol_rank (v : value) : option nat :=
  match getitem v "symbol" with
  | Returned s =>
      match index status_order s with
      | Returned i => Some i
      | Raised _ => None
      end
  | Raised _ => None
  end.

Definition rank (cs : gmap string value) : option nat :=
  match cs !! "comparisonStatus" with
  | Some v => symbol_rank v
  | None => None
  end.

(** A status code the aggregation can hold: a dict whose symbol is one of
    [status_order], with a text that is a string when the symbol is
    'OK' or 'KO'. *)
Definition good_value (v : value) : Prop :=
  exists c s, v = VDict c /\ c !! "symbol" = Some (VStr s) /\ s ∈ status_order
    /\ (s = "OK" \/ s = "KO" -> exists t, c !! "text" = Some (VStr t)).

Definition good_frame (fr : frame) : Prop :=
  (exists v, comp_summary fr !! "comparisonStatus" = Some v /\ good_value v)
  /\ (forall v, status fr = Own v -> good_value v).

(** The frame the loop of [_status] starts from. *)
Definition initial (cs : gmap string value) : frame :=
  Frame (<["comparisonStatus" := mk_status "-" "- No expert -" "No expert available"]> cs)
        Unbound.

(** A result document that states its validation the way [_status] reads
    it: a 'Validated' entry is a boolean and comes with 'Validated means';
    without one, a 'comparisonStatus' entry is a dict. *)
Definition states_validation_well (d : gmap string value) : bool :=
  match d !! "Validated" with
  | Some (VBool _) => bool_decide (is_Some (d !! "Validated means"))
  | Some _ => false
  | None =>
      match d !! "comparisonStatus" with
      | None | Some (VDict _) => true
      | Some _ => false
      end
  end.

(** The entry of an expert is well formed: a dict, which states its
    validation well unless the expert is a side expert. *)
Definition well_formed (e : expert) (v : value) : bool :=
  match v with
  | VDict d => side_expert e || states_validation_well d
  | _ => false
  end.

(** The entry carries the status symbol '+'. *)
Definition carries_plus (v : value) : bool :=
  match v with
  | VDict d => match d !! "symbol" with Some s => eq_str s "+" | None => false end
  | _ => false
  end.

(** Two runs of the loop, the second on the summary of the first without
    the entry [k], which held the document [d]. *)
Definition related (k : string) (d : gmap string value) (fr1 fr2 : frame) : Prop :=
  comp_summary fr2 = delete k (comp_summary fr1) /\ status fr2 = status fr1
  /\ (comp_summary fr1 !! k = None \/ comp_summary fr1 !! k = Some (VDict d)).

Definition sim (k : string) (d : gmap string value) {A} (m : M frame A) : Prop :=
  forall fr1 fr2, related k d fr1 fr2 ->
    fst (m fr1) = fst (m fr2) /\ related k d (snd (m fr1)) (snd (m fr2)).

(** The events that are a call of [compare], of the board or of an expert. *)
Definition is_compare (ev : event) : bool :=
  match ev with
  | Call m => String.eqb m "compare"
  | ExpertCompare _ _ => true
  | _ => false
  end.

Definition no_reference_status : value :=
  mk_status "0" "- No ref -" "No reference to be compared to".

(** The [parse()] of every expert of the panel returns; so does its
    [compare(references)], when references are given. *)
Definition parses (panel : list expert) : bool :=
  forallb (fun e => returns (parse_ e)) panel.

Definition compares (refs : option (list reference)) (panel : list expert) : bool :=
  negb (truthy refs)
  || forallb (fun e => returns (compare_ e (map rh (default [] refs)))) panel.

(** What a run leaves as it was when it only parses: the panel, the two
    comparison summaries, and a trace without compare events. *)
Definition parse_only (b b' : board) : Prop :=
  experts b' = experts b /\ consistency b' = consistency b /\ continuity b' = continuity b
  /\ exists evs, trace b' = trace b ++ evs /\ Forall (fun ev => is_compare ev = false) evs.

(** ** Vocabulary of the further statements *)

(** The status the entry of a non-side expert yields by itself, when the
    entry does not carry '+': the tests of the loop of [_status], in
    their order. *)
Definition verdict (py_repr : value -> string) (e : expert) (cs : gmap string value) : value :=
  let unknown := mk_status "?" "? Unknown ?"
                   "To be checked: expert has not stated about Validation" in
  match cs !! kind e with
  | Some (VDict d) =>
      match d !! "Validated" with
      | Some v =>
          let means := format py_repr (default VNone (d !! "Validated means")) in
          if is_True v
          then mk_status "OK" "OK" ("Success: " +:+ dquote +:+ means +:+ dquote)
          else mk_status "KO" "KO" ("Fail: " +:+ dquote +:+ means +:+ dquote +:+ " is False")
      | None =>
          if eq_str (default VNone (d !! "Comparison")) "Failed"
          then mk_status "!" "! Comp Issue !"
                 "To be checked: at least one technical problem occurred in comparison"
          else
            match d !! "comparisonStatus" with
            | Some (VDict n) =>
                if eq_str (default VNone (n !! "symbol")) "0" then VDict n else unknown
            | _ => unknown
            end
      end
  | _ => unknown
  end.

(** The rank of a status code, 0 when it has none. *)
Definition severity (v : value) : nat := default 0%nat (symbol_rank v).

(** The experts of a panel that state about the validation. *)
Definition stating (panel : list expert) : list expert :=
  filter (fun e => side_expert e = false) panel.

(** A computation relates every state to the state it leaves, also when
    it raises. *)
Definition preserves {S A} (R : S -> S -> Prop) (m : M S A) : Prop :=
  forall s, R s (snd (m s)).

(** Two boards that differ, at most, by the summary [w] and the lead
    expert. *)
Definition apart (w : which_summary) (b b' : board) : Prop :=
  experts b' = experts b /\ task_summary b' = task_summary b /\ trace b' = trace b
  /\ match w with
     | consistency_ => continuity b' = continuity b
     | continuity_ => consistency b' = consistency b
     end.

(** The lead expert a board ends with: the configured one, else the
    only expert of the panel that states about the validation. *)
Definition chosen_lead (b : board) : option string :=
  match lead_expert b with
  | Some x => Some x
  | None =>
      match stating (experts b) with
      | [e] => Some (kind e)
      | _ => None
      end
  end.

(** The locals of the loop once an expert has stated, if one has: the
    status of the summary ranks above the default one, and so does the
    status the variable holds. *)
Definition stated (fr : frame) : Prop :=
  status fr = Unbound
  \/ ((exists i, rank (comp_summary fr) = Some i /\ (1 <= i)%nat)
      /\ forall v, status fr = Own v -> (1 <= severity v)%nat).

(** The text of a status code. *)
Definition text_of (v : value) : string :=
  match getitem v "text" with
  | Returned (VStr t) => t
  | _ => EmptyString
  end.

Definition with_text (t : string) (v : value) : value :=
  match v with
  | VDict c => VDict (<["text" := VStr t]> c)
  | _ => v
  end.

(** The status code [v] carries the symbol [s]. *)
Definition has_symbol (s : string) (v : value) : bool :=
  match getitem v "symbol" with
  | Returned x => eq_str x s
  | Raised _ => false
  end.

(** The status the summary holds once the status [v] of one more expert
    is counted: the lines under [# update status], on status codes. *)
Definition merge (cur v : value) : value :=
  if (severity cur <=? severity v)%nat then
    if (severity v =? severity cur)%nat && ((severity v =? 3)%nat || (severity v =? 4)%nat)
    then with_text (text_of cur +:+ " | " +:+ text_of v) cur
    else v
  else cur.

(** Two frames with the same entry [k] in the summary. *)
Definition same_at (k : string) (fr fr' : frame) : Prop :=
  comp_summary fr' !! k = comp_summary fr !! k.

(** Two states with the same [f]. *)
Definition keeps {S T} (f : S -> T) (s s' : S) : Prop := f s' = f s.

(** The trace of the second board is that of the first, with more events
    that all satisfy [P]. *)
Definition grows (P : event -> Prop) (b b' : board) : Prop :=
  exists evs, trace b' = trace b ++ evs /\ Forall P evs.

(** The events that write one of the two comparison summaries. *)
Definition writes_comparison (ev : event) : bool :=
  match ev with
  | Dump f _ => String.eqb f "task_consistency.json" || String.eqb f "task_continuity.json"
  | _ => false
  end.

(** A description for which no expert is found, and which asks for the
    exception. *)
Definition refused (outputexpert : gmap string value -> option expert)
    (d : gmap string value) : Prop :=
  outputexpert d = None /\ truth (default (VBool true) (d !! "fatal_exceptions")) = true.

End Expertise.

(* ===================================================================== *)
(** * ial_expertise/experts/fields.py                                     *)
(* ===================================================================== *)

Module Fields.
Import Py.
Local Open Scope py_scope.

(** A field identity: a plain string (FA, LFI, netCDF) or a dict of
    integer keys (GRIB). *)
Inductive fid : Type :=
| FidStr (s : string)
| FidKey (k : gmap string Z).

#[global] Instance fid_eq_dec : EqDecision fid.
Proof. solve_decision. Defined.

(** The dtype of a numpy array. *)
Inductive np_dtype : Type := float64 | int64.

(** A plain numpy array, without mask: its shape and its elements in
    row-major order. The masked arrays that fields with missing values
    hold, whose masked elements the comparisons skip, are not modelled. *)
Inductive ndarray : Type :=
| FloatArray (shape : list nat) (flat : list float)
| IntArray (shape : list nat) (flat : list Z).

Definition shape (a : ndarray) : list nat :=
  match a with
  | FloatArray sh _ => sh
  | IntArray sh _ => sh
  end.

Definition dtype (a : ndarray) : np_dtype :=
  match a with
  | FloatArray _ _ => float64
  | IntArray _ _ => int64
  end.

(** int64 to float64, rounding to nearest. *)
Definition float_of_Z (z : Z) : float :=
  SF2Prim (binary_normalize prec emax z 0 false).

Definition as_float64 (a : ndarray) : list float :=
  match a with
  | FloatArray _ l => l
  | IntArray _ l => map float_of_Z l
  end.

(** Two's-complement wrap-around of int64 arithmetic. *)
Definition wrap64 (z : Z) : Z :=
  ((z + 2 ^ 63) mod 2 ^ 64 - 2 ^ 63)%Z.

Fixpoint zip_all {A B} (p : A -> B -> bool) (l : list A) (k : list B) : bool :=
  match l, k with
  | a :: l', b :: k' => p a b && zip_all p l' k'
  | _, _ => true
  end.

(** [numpy.all(a == b)] for two plain arrays of one shape. *)
Definition all_equal (a b : ndarray) : bool :=
  match a, b with
  | IntArray _ l, IntArray _ k => zip_all Z.eqb l k
  | _, _ => zip_all PrimFloat.eqb (as_float64 a) (as_float64 b)
  end.

(** [numpy.all(a - b <= eps)] for two plain arrays of one shape. *)
Definition all_diff_le (a b : ndarray) (eps : float) : bool :=
  match a, b with
  | IntArray _ l, IntArray _ k =>
      zip_all (fun x y => PrimFloat.leb (float_of_Z (wrap64 (x - y))) eps) l k
  | _, _ =>
      zip_all (fun x y => PrimFloat.leb (PrimFloat.sub x y) eps)
              (as_float64 a) (as_float64 b)
  end.

(** [isinstance(d, (int, float))] for the dtype object [d] of an array:
    a [numpy.dtype] object is an instance of neither [int] nor [float],
    whatever the dtype is. *)
Definition isinstance_int_float (d : np_dtype) : bool := false.

(** A field read from a resource. [is_MiscField] is
    [isinstance(fld, epygram.fields.MiscField)]; [sp2gp()] transforms the
    field in place and leaves its class as it is. *)
Record field : Type := Field {
  is_MiscField : bool;
  spectral : bool;
  validity : value;
  geometry : value;
  data : ndarray
}.

(** An open resource: [listfields()] and [readfield(fid)]. *)
Record resource : Type := Resource {
  listfields : list fid;
  readfield : fid -> outcome field
}.

(** What the code takes from outside: epygram's methods, the thresholds
    module, and Python's formatting of floats, keys and exceptions. *)
Record externals : Type := Externals {
  recursive_diff : value -> value -> outcome value;
  sp2gp : field -> outcome field;
  normalized_comparison : field -> field -> outcome (list (string * float) * bool);
  EPSILON : float;
  str_key : gmap string Z -> string;
  str_float : float -> string;
  format_percent : float -> string;
  str_exn : exn -> string
}.

(** The per-field status dict, one optional entry per key it can hold. *)
Record field_status : Type := FieldStatus {
  Validity_diff : option value;
  Geometry_diff : option value;
  Normalized_data_diff : option (string + list (string * float));
  Data_bit_repro : option bool;
  Mask_is_common : option bool;
  Validated : option bool;
  Error_during_comparison : option string
}.

Definition empty_status : field_status :=
  FieldStatus None None None None None None None.

Definition set_metadata_diff (vd gd : value) (s : field_status) : field_status :=
  FieldStatus (Some vd) (Some gd) (Normalized_data_diff s) (Data_bit_repro s)
              (Mask_is_common s) (Validated s) (Error_during_comparison s).

Definition set_Normalized_data_diff (d : string + list (string * float))
    (s : field_status) : field_status :=
  FieldStatus (Validity_diff s) (Geometry_diff s) (Some d) (Data_bit_repro s)
              (Mask_is_common s) (Validated s) (Error_during_comparison s).

Definition set_Data_bit_repro (b : bool) (s : field_status) : field_status :=
  FieldStatus (Validity_diff s) (Geometry_diff s) (Normalized_data_diff s) (Some b)
              (Mask_is_common s) (Validated s) (Error_during_comparison s).

Definition set_Mask_is_common (b : bool) (s : field_status) : field_status :=
  FieldStatus (Validity_diff s) (Geometry_diff s) (Normalized_data_diff s)
              (Data_bit_repro s) (Some b) (Validated s) (Error_during_comparison s).

Definition set_Validated (b : bool) (s : field_status) : field_status :=
  FieldStatus (Validity_diff s) (Geometry_diff s) (Normalized_data_diff s)
              (Data_bit_repro s) (Mask_is_common s) (Some b) (Error_during_comparison s).

(** [status.get(key, None) is None] *)
Definition is_None (o : option value) : bool :=
  match o with
  | None | Some VNone => true
  | Some _ => false
  end.

(** [max(l)] on floats: the first element no later one is greater than. *)
Definition py_max (l : list float) : outcome float :=
  match l with
  | [] => Raised ValueError
  | x :: rest => Returned (fold_left (fun m y => if PrimFloat.ltb m y then y else m) rest x)
  end.

(** [ignore_field] *)
Definition ignore_field (f : fid) : bool :=
  match f with
  | FidStr s => String.prefix "SFX._FBUF_" s
  | FidKey _ => false
  end.

(** [str(f)] *)
Definition str_fid (X : externals) (f : fid) : string :=
  match f with
  | FidStr s => s
  | FidKey k => str_key X k
  end.

Definition str_le (a b : string) : Prop := String.leb a b = true.

#[global] Instance str_le_dec : RelDecision str_le.
Proof. intros a b. unfold str_le. apply _. Defined.

Fixpoint as_strings (l : list fid) : option (list string) :=
  match l with
  | [] => Some []
  | FidStr s :: l' => option_map (cons s) (as_strings l')
  | FidKey _ :: _ => None
  end.

(** [sorted(l)] of a list whose first element is a string: strings are
    ordered by code points; ordering a string against a dict is a
    [TypeError]. *)
Definition sorted (l : list fid) : outcome (list fid) :=
  match as_strings l with
  | Some ss => Returned (map FidStr (merge_sort str_le ss))
  | None => Raised TypeError
  end.

Section WithExternals.

Variable X : externals.

(** [compare_2_fields] *)
Definition compare_2_fields (test_resource ref_resource : resource) (f : fid)
    (max_normalized_diff : float)
    (ignore_meta validate_if_bit_repro_only : bool)
    (normalized_validation_threshold : float) : outcome (field_status * float) :=
  let status := empty_status in
  let validated := true in
  let? tfld := readfield test_resource f in
  let? rfld := readfield ref_resource f in
  let misc := is_MiscField tfld in
  let? tfld := (if negb misc && spectral tfld then sp2gp X tfld else Returned tfld) in
  let? rfld := (if negb misc && spectral rfld then sp2gp X rfld else Returned rfld) in
  (* metadata *)
  let? meta :=
    (if negb misc && negb ignore_meta then
       let? vd := recursive_diff X (validity tfld) (validity rfld) in
       let? gd := recursive_diff X (geometry tfld) (geometry rfld) in
       Returned (set_metadata_diff vd gd status,
                 if truth vd || truth gd then false else validated)
     else Returned (status, validated)) in
  let '(status, validated) := meta in
  (* data *)
  if negb (bool_decide (shape (data tfld) = shape (data rfld))) then
    let status := set_Normalized_data_diff
                    (inl "Comparison not possible: dimensions differ") status in
    let validated := false in
    let status := set_Data_bit_repro false status in
    Returned (set_Validated validated status, max_normalized_diff)
  else
    let bit_repro :=
      if isinstance_int_float (dtype (data tfld))
      then all_diff_le (data tfld) (data rfld) (EPSILON X)
      else all_equal (data tfld) (data rfld) in
    let status := set_Data_bit_repro bit_repro status in
    if negb bit_repro then
      let? cmp := normalized_comparison X tfld rfld in
      let '(data_diff, common_mask) := cmp in
      let status := set_Normalized_data_diff (inr data_diff) status in
      let status := set_Mask_is_common common_mask status in
      let validated := if negb common_mask then false else validated in
      let? loc_max := py_max (map (fun kv => PrimFloat.abs (snd kv)) data_diff) in
      let max_normalized_diff :=
        if PrimFloat.ltb max_normalized_diff loc_max then loc_max
        else max_normalized_diff in
      (* if not bit-repro, check differences are under thresholds *)
      let validated :=
        if validate_if_bit_repro_only then false
        else if existsb (fun kv => PrimFloat.leb normalized_validation_threshold
                                                  (PrimFloat.abs (snd kv))) data_diff
             then false else validated in
      Returned (set_Validated validated status, max_normalized_diff)
    else
      Returned (set_Validated validated status, max_normalized_diff).

(** The locals the loop of [compare_2_files] updates. *)
Record loop_state : Type := LoopState {
  fields_status : gmap string field_status;
  max_normalized_diff : float;
  uncompared_fields : list fid
}.

(** The last two lines of the loop body:
    [if not status.get('Data bit-repro', False) or not hide_bit_repro_fields:
        fields_status[str(f)] = status] *)
Definition record_status (hide_bit_repro_fields : bool) (f : fid) (status : field_status)
    (fs : gmap string field_status) : gmap string field_status :=
  if negb (default false (Data_bit_repro status)) || negb hide_bit_repro_fields
  then <[str_fid X f := status]> fs
  else fs.

(** The body of [for f in intersection:]. *)
Definition compare_common_field (t r : resource)
    (ignore_meta hide_bit_repro_fields fatal_exceptions : bool)
    (normalized_validation_threshold : float)
    (f : fid) (st : loop_state) : outcome loop_state :=
  if ignore_field f then Returned st (* continue *)
  else
    match compare_2_fields t r f (max_normalized_diff st) ignore_meta true
                           normalized_validation_threshold with
    | Returned (status, m) =>
        Returned (LoopState (record_status hide_bit_repro_fields f status (fields_status st))
                            m (uncompared_fields st))
    | Raised e =>
        if fatal_exceptions then Raised e
        else
          let status := FieldStatus None None None None None None (Some (str_exn X e)) in
          Returned (LoopState (record_status hide_bit_repro_fields f status (fields_status st))
                              (max_normalized_diff st) (uncompared_fields st ++ [f]))
    end.

(** [for f in l: body] with the locals threaded through. *)
Fixpoint for_fields (body : fid -> loop_state -> outcome loop_state)
    (l : list fid) (st : loop_state) : outcome loop_state :=
  match l with
  | [] => Returned st
  | f :: l' => let? st' := body f st in for_fields body l' st'
  end.

(** [all([p(status) for status in fields_status.values()])] *)
Definition all_status (p : field_status -> bool) (fs : gmap string field_status) : bool :=
  forallb p (map snd (map_to_list fs)).

(** The file-level comparison dict, one field per key. *)
Record comparison : Type := Comparison {
  comp_Validated : bool;
  comp_Validated_means : string;
  comp_Bit_reproducible : bool;
  comp_Common_fields_differences : gmap string field_status;
  comp_Max_normalized_diff : string;
  comp_mainMetrics : string;
  comp_New_fields : option (list fid);
  comp_Lost_fields : option (list fid);
  comp_Unable_to_compare_fields : option (list fid)
}.

(** [l if len(l) > 0 else None] *)
Definition or_None {A} (l : list A) : option (list A) :=
  match l with
  | [] => None
  | _ => Some l
  end.

(** The common fields, in the order the loop takes them. *)
Definition common_fields (t r : resource) : outcome (list fid) :=
  let intersection := filter (fun f => f ∈ listfields r) (listfields t) in
  match intersection with
  | FidStr _ :: _ => sorted intersection
  | _ => Returned intersection
  end.

(** [compare_2_files], from the two resources once open. *)
Definition compare_2_files (t r : resource)
    (ignore_meta ignore_orphan_fields hide_bit_repro_fields
     validate_if_bit_repro_only : bool)
    (normalized_validation_threshold : float)
    (fatal_exceptions : bool) : outcome comparison :=
  (* list fields *)
  let test_list := listfields t in
  let ref_list := listfields r in
  (* new and lost *)
  let new_fields := filter (fun f => f ∉ ref_list) test_list in
  let lost_fields := filter (fun f => f ∉ test_list) ref_list in
  (* common fields: comparison *)
  let? intersection := common_fields t r in
  let? st := for_fields
               (compare_common_field t r ignore_meta hide_bit_repro_fields
                                     fatal_exceptions normalized_validation_threshold)
               intersection (LoopState ∅ 0%float []) in
  (* status over all fields *)
  let validated := all_status (fun s => default false (Validated s)) (fields_status st) in
  let means :=
    if validate_if_bit_repro_only
    then "All fields have identical shape/mask than reference, and data is bit-repro"
    else "All fields have identical shape/mask than reference, and normalized errors lower than "
         +:+ str_float X normalized_validation_threshold in
  let validated :=
    if negb ignore_orphan_fields
    then (match new_fields ++ lost_fields with [] => validated | _ => false end)
    else validated in
  let means :=
    if negb ignore_orphan_fields
    then means +:+ ", and no field is orphan on one or the other side."
    else means in
  (* bit-repro status *)
  let bit_reproducible :=
    all_status (fun s => default false (Data_bit_repro s)
                         && is_None (Validity_diff s)
                         && is_None (Geometry_diff s)) (fields_status st) in
  Returned (Comparison validated means bit_reproducible (fields_status st)
              (format_percent X (max_normalized_diff st)) "Max normalized diff"
              (or_None new_fields) (or_None lost_fields)
              (or_None (uncompared_fields st))).

End WithExternals.

(** ** Vocabulary of the statements *)

(** The value a call returned, if it did. *)
Definition returned {A} (o : outcome A) : option A :=
  match o with
  | Returned a => Some a
  | Raised _ => None
  end.

(** ** Vocabulary of the further statements *)

(** No difference of metadata keeps the field from being validated: the
    'Validity diff' and 'Geometry diff' entries are absent or false. *)
Definition no_metadata_diff (s : field_status) : bool :=
  negb (truth (default VNone (Validity_diff s)) || truth (default VNone (Geometry_diff s))).

(** A status as the loop of [compare_2_files] records it: that of a
    comparison gone to its end, with its two flags, or that of a
    comparison that raised, with neither. *)
Definition recorded (s : field_status) : Prop :=
  (exists b, Data_bit_repro s = Some b /\ Validated s = Some (b && no_metadata_diff s))
  \/ (Data_bit_repro s = None /\ Validated s = None).

(** No field is orphan: both lists of the result are [None]. *)
Definition no_orphan (c : comparison) : bool :=
  bool_decide (comp_New_fields c = None /\ comp_Lost_fields c = None).

(** What holds of every status the loop records, given the two options
    that bear on it. *)
Definition as_recorded (ignore_meta hide_bit_repro_fields : bool) (s : field_status) : Prop :=
  recorded s
  /\ (hide_bit_repro_fields = true -> default false (Data_bit_repro s) = false)
  /\ (ignore_meta = true -> Validity_diff s = None /\ Geometry_diff s = None).

(** The comparison of the common field [f] raises, when it is not a
    field to ignore. *)
Definition raises (X : externals) (t r : resource) (ignore_meta : bool) (f : fid) : bool :=
  negb (ignore_field f)
  && match compare_2_fields X t r f 0%float ignore_meta true 0%float with
     | Raised _ => true
     | Returned _ => false
     end.

End Fields.

(* ===================================================================== *)
(** * fields.py: class [FieldsInFileExpert]                               *)
(* ===================================================================== *)

Module FieldsInFileExpert.
Import Py Fields.
Local Open Scope py_scope.

(** The attributes of the expert that the comparison reads. *)
Record attributes : Type := Attributes {
  filenames : list string;
  validate_if_bit_repro_only : bool;
  normalized_validation_threshold : float;
  ignore_meta : bool;
  ignore_orphan_fields : bool;
  hide_bit_repro_fields : bool;
  parallel : bool;
  fatal_exceptions : bool
}.

(** What the expert finds around it: [os.path.exists] and
    [os.listdir(os.getcwd())]; [r.resource.kind] and
    [r.container.localpath()] of a reference handler;
    [epygram.formats.resource(filename, 'r')]; [float(s.strip('%'))];
    and [batch_main] of taylorism, which answers, for the options of the
    expert and the pairs it is given, the reports of its workers, each a
    test file name and its comparison. *)
Record system : Type := System {
  path_exists : string -> bool;
  listdir : list string;
  resource_kind : string -> string;
  localpath : string -> string;
  open_resource : string -> outcome resource;
  float_of_percent : string -> outcome float;
  batch_main : attributes -> list (string * string) -> outcome (list (string * comparison))
}.

(** accepted_kinds *)
Definition filekinds : list string :=
  ["historic"; "gridpoint"; "pgdfa"; "initial_condition"; "boundary"; "analysis"].

(** reference prefixes *)
Definition ref_prefix : string := "ref.".
Definition cnty_prefix : string := "continuity.".
Definition csty_prefix : string := "consistency.".

(** The single quote of the messages. *)
Definition quote : string := String (Ascii.ascii_of_nat 39) EmptyString.

(** [for prefix in (...): if f.startswith(prefix): f = f[len(prefix):]] *)
Definition strip_prefixes (f : string) : string :=
  foldl (fun f prefix => if String.prefix prefix f then drop_chars (String.length prefix) f else f)
        f [ref_prefix; cnty_prefix; csty_prefix].

(** [for p in (...): if p + f in ref_filenames: ref = p + f; break] *)
Definition find_reference (ref_filenames : list string) (f : string) : option string :=
  head (filter (fun ref => ref ∈ ref_filenames)
               (map (fun p => p +:+ f) [ref_prefix; cnty_prefix; csty_prefix])).

(** What the dict [_compare] returns holds under a key: the comparison of
    a file, or one of the overall entries. *)
Inductive entry : Type :=
| FileComparison (c : comparison)
| Flag (b : bool)
| Words (s : string)
| Status (v : value).

Section WithExpert.

Variable X : externals.
Variable self : attributes.
Variable os : system.

(** [if self.fatal_exceptions: raise ExpertError(message)
     else: logger.warning(...)] *)
Definition complain {S} (message : string) : M S unit :=
  if fatal_exceptions self then raise (ExpertError message) else ret tt.

(** [_make_pairs_from_references] *)
Definition _make_pairs_from_references (ref_filenames : list string)
  : outcome (list (string * string)) :=
  let body (ref : string) : M (list (string * string)) unit :=
    if negb (path_exists os ref) then
      complain ("Reference file: " +:+ quote +:+ ref +:+ quote +:+ " not found" +:+ quote +:+ ".")
      (* continue *)
    else
      (* find test filename from ref *)
      let f := strip_prefixes ref in
      if negb (path_exists os f) then
        complain ("Reference file: " +:+ quote +:+ ref +:+ quote
                  +:+ " has no local output equivalent " +:+ quote +:+ f +:+ quote +:+ ".")
      else modify (fun pairs => pairs ++ [(f, ref)]) in
  match for_each ref_filenames body [] with
  | (Returned _, pairs) => Returned pairs
  | (Raised e, _) => Raised e
  end.

(** [_make_pairs_from_attribute] *)
Definition _make_pairs_from_attribute (ref_filenames : list string)
  : outcome (list (string * string)) :=
  let body (f : string) : M (list (string * string)) unit :=
    (* start from list of asked files *)
    if negb (bool_decide (f ∈ listdir os)) then
      complain ("Output file not found: " +:+ f)
      (* continue *)
    else
      match find_reference ref_filenames f with
      | None =>
          complain ("Reference file: " +:+ quote +:+ "None" +:+ quote +:+ " not found.")
      | Some ref => modify (fun pairs => pairs ++ [(f, ref)])
      end in
  match for_each (filenames self) body [] with
  | (Returned _, pairs) => Returned pairs
  | (Raised e, _) => Raised e
  end.

(** [_make_pairs] *)
Definition _make_pairs (references : list string) : outcome (list (string * string)) :=
  let ref_handlers := filter (fun r => resource_kind os r ∈ filekinds) references in
  let ref_filenames := map (localpath os) ref_handlers in
  if (length (filenames self) =? 0)%nat then _make_pairs_from_references ref_filenames
  else _make_pairs_from_attribute ref_filenames.

(** [compare_2_files(test, ref, ...)], from the two file names. *)
Definition compare_2_files_named (test ref : string) : outcome comparison :=
  let? t := open_resource os test in
  let? r := open_resource os ref in
  compare_2_files X t r (ignore_meta self) (ignore_orphan_fields self)
                  (hide_bit_repro_fields self) (validate_if_bit_repro_only self)
                  (normalized_validation_threshold self) (fatal_exceptions self).

(** [for (test, ref) in pairs: comp[test] = compare_2_files(test, ref, ...)] *)
Fixpoint compare_pairs (pairs : list (string * string)) (comp : list (string * comparison))
  : outcome (list (string * comparison)) :=
  match pairs with
  | [] => Returned comp
  | (test, ref) :: pairs' =>
      let? c := compare_2_files_named test ref in
      compare_pairs pairs' (assign test c comp)
  end.

(** [for file_report in report['workers_report']: comp[...] = ...] *)
Definition collect_reports (reports : list (string * comparison))
  : list (string * comparison) :=
  foldl (fun comp report => assign (fst report) (snd report) comp) [] reports.

Definition no_reference_message : string :=
  "No kind=" +:+ str_tuple quote filekinds +:+ " reference resources provided".

Definition no_adequate_reference : value :=
  Expertise.mk_status "0" "- No ref -"
    ("No adequate reference available (kind=" +:+ str_tuple quote filekinds +:+ ")").

(** [_compare] *)
Definition _compare (references : list string) : outcome (list (string * entry)) :=
  let? pairs := _make_pairs references in
  match pairs with
  | first :: _ =>
      let? comp :=
        (if negb (parallel self) then compare_pairs pairs []
         else let? report := batch_main os self pairs in Returned (collect_reports report)) in
      let values := map snd comp in
      let validated := forallb comp_Validated values in
      let bit_reproducible := forallb comp_Bit_reproducible values in
      let? c0 := (match item (fst first) comp with
                  | Some c => Returned c
                  | None => Raised (KeyError (fst first))
                  end) in
      let? diffs := for_all (fun c => let? x := float_of_percent os (comp_Max_normalized_diff c) in
                                      Returned (x / 100)%float) values in
      let? max_diff := py_max diffs in
      (* comp.update(overall) *)
      Returned
        (assign "Max normalized diff" (Words (format_percent X max_diff))
        (assign "mainMetrics" (Words (comp_mainMetrics c0))
        (assign "Validated means" (Words (comp_Validated_means c0))
        (assign "Bit-reproducible" (Flag bit_reproducible)
        (assign "Validated" (Flag validated)
                (map (fun kc => (fst kc, FileComparison (snd kc))) comp))))))
  | [] =>
      if fatal_exceptions self then Raised (ExpertError no_reference_message)
      else Returned [("comparisonStatus", Status no_adequate_reference)]
  end.

End WithExpert.

(** ** Vocabulary of the statements *)

(** The pair a reference file gives, if it and the test file it names
    are found. *)
Definition pair_of_reference (os : system) (ref : string) : option (string * string) :=
  if path_exists os ref && path_exists os (strip_prefixes ref)
  then Some (strip_prefixes ref, ref) else None.

(** The pair an asked file gives, if it is in the working directory and
    has a reference. *)
Definition pair_of_filename (os : system) (ref_filenames : list string) (f : string)
  : option (string * string) :=
  if bool_decide (f ∈ listdir os) then pair f <$> find_reference ref_filenames f else None.

(** The file name starts with none of the reference prefixes. *)
Definition plain (f : string) : bool :=
  negb (String.prefix ref_prefix f) && negb (String.prefix cnty_prefix f)
  && negb (String.prefix csty_prefix f).

(** The pairs that are the last of the list for their test file. *)
Fixpoint last_pairs (pairs : list (string * string)) : list (string * string) :=
  match pairs with
  | [] => []
  | p :: pairs' =>
      if bool_decide (fst p ∈ map fst pairs') then last_pairs pairs'
      else p :: last_pairs pairs'
  end.

End FieldsInFileExpert.

(* ===================================================================== *)
(** * fields.py: class [NormsChecker]                                     *)
(* ===================================================================== *)

Module NormsChecker.
Import Py.
Local Open Scope py_scope.

(** The attributes of the expert that [summary] reads. *)
Record attributes : Type := Attributes {
  normstype : string;
  mode : string
}.

(** What [arpifs_listings.norms] and the thresholds module give: the
    classes [Norms] and [NormsSet]; [compare_normsets] in its three
    modes, with the text it writes, the worst digit it answers, and the
    lines of the file it plots to; [l.strip()]; and the threshold. *)
Record externals : Type := Externals {
  norms : Type;
  norms_set : Type;
  Norms : value -> value -> outcome norms;
  NormsSet : list norms -> outcome norms_set;
  compare_normsets_text : norms_set -> norms_set -> outcome string;
  compare_normsets_worst : norms_set -> norms_set -> outcome Z;
  compare_normsets_plot : norms_set -> norms_set -> outcome (list string);
  strip : string -> string;
  NORMSDIGITS_BITREPRO : Z
}.

(** [_modes] *)
Definition _modes : gmap string string :=
  list_to_map [("all", "_Norms at each step");
               ("last", "Last step norms");
               ("last_spectral", "Last step with spectral norms")].

(** [cls._modes[mode]] *)
Definition mode_key (mode : string) : outcome string :=
  match _modes !! mode with
  | Some key => Returned key
  | None => Raised (KeyError mode)
  end.

(** What the summary holds under its second key: the list [normset]
    itself, or its last element. The loop that ends [summary] changes
    these very objects. *)
Inductive held : Type :=
| Whole
| Last.

(** The element [{'step': n['step'], normstype: n[normstype]}] of the
    first comprehension, under its test [len(n[normstype]) != 0]. *)
Definition restricted (normstype : string) (n : gmap string value)
  : outcome (option (gmap string value)) :=
  let? norms := subscript n normstype in
  let? l := len norms in
  if negb (l =? 0)%nat then
    let? step := subscript n "step" in
    Returned (Some (<[normstype := norms]> {[ "step" := step ]}))
  else Returned None.

(** The test [len(n.get('spnorms', {})) > 0] of the second
    comprehension. *)
Definition spectral_step (n : gmap string value) : outcome (option (gmap string value)) :=
  let? l := len (default (VDict ∅) (n !! "spnorms")) in
  Returned (if (0 <? l)%nat then Some n else None).

(** [for k in list(norms.keys()): if len(norms[k]) == 0: norms.pop(k)] *)
Definition pop_empty (norms : gmap string value) : outcome (gmap string value) :=
  if bool_decide (map_Forall (fun _ v => has_len v = true) norms)
  then Returned (filter (fun kv => is_empty (snd kv) = false) norms)
  else Raised TypeError.

(** [normset[-1]] *)
Definition last_of (normset : list (gmap string value)) : outcome (gmap string value) :=
  match last normset with
  | Some n => Returned n
  | None => Raised IndexError
  end.

(** [summary]; [normset] is what [as_dict()] answers for each step of
    the listing. *)
Definition summary (self : attributes) (normset : list (gmap string value)) : outcome value :=
  let number_of_steps := length normset in
  let? restriction :=
    (if bool_decide (normstype self ∈ ["spnorms"; "gpnorms"]) then
       let? normset := for_some (restricted (normstype self)) normset in
       Returned (normset, " (" +:+ normstype self +:+ " only)")
     else Returned (normset, EmptyString)) in
  let '(normset, key_suffix) := restriction in
  let? choice :=
    (if String.eqb (mode self) "all" then
       Returned (normset, Some ("_Norms at each step" +:+ key_suffix, Whole))
     else if String.eqb (mode self) "last" then
       let? _ := last_of normset in
       Returned (normset, Some ("Last step norms" +:+ key_suffix, Last))
     else if String.eqb (mode self) "last_spectral" then
       let? normset := for_some spectral_step normset in
       let? _ := last_of normset in
       Returned (normset, Some ("Last step with spectral norms" +:+ key_suffix, Last))
     else Returned (normset, None)) in
  let '(normset, entry) := choice in
  let? normset := for_all pop_empty normset in
  let summary : gmap string value := {[ "Number of steps" := VInt (Z.of_nat number_of_steps) ]} in
  match entry with
  | Some (key, Whole) => Returned (VDict (<[key := VList (map VDict normset)]> summary))
  | Some (key, Last) =>
      let? n := last_of normset in Returned (VDict (<[key := VDict n]> summary))
  | None => Returned (VDict summary)
  end.

Section WithListings.

Variable py_repr : value -> string.
Variable X : externals.

(** [_compare_2normsets] *)
Definition _compare_2normsets (testset refset : norms_set X) (plot_spectral : bool)
    (validation_threshold : Z) : outcome value :=
  let? comp := compare_normsets_text X testset refset in
  let? worst_digit := compare_normsets_worst X testset refset in
  let validated := (worst_digit <=? validation_threshold)%Z in
  let summary : gmap string value :=
    list_to_map
      [("Maximum different digits", VInt worst_digit);
       ("Validated means",
        VStr ("Maximum number of different digits in norms is lower or equal to "
              +:+ py_repr (VInt validation_threshold)));
       ("Validated", VBool validated);
       ("Bit-reproducible", VBool (worst_digit <=? NORMSDIGITS_BITREPRO X)%Z);
       ("mainMetrics", VStr "Maximum different digits")] in
  let summary :=
    if negb validated
    then <["_Norms Compared (all)" := VList (map VStr (split newline comp))]> summary
    else summary in
  if plot_spectral then
    let? svg := compare_normsets_plot X testset refset in
    Returned (VDict (<["Graph: Spectral norms evolution (SVG)" :=
                         VStr (String.concat EmptyString (map (strip X) svg))]> summary))
  else Returned (VDict summary).

(** [compare_2summaries] *)
Definition compare_2summaries (test ref : gmap string value) (plot_spectral : bool)
    (mode : string) (validation_threshold : Z) : outcome value :=
  let? steps :=
    (if bool_decide (mode ∈ ["last"; "last_spectral"]) then
       let? key := mode_key mode in
       let? t := subscript test key in
       let? key := mode_key mode in
       let? r := subscript ref key in
       Returned (VList [t], VList [r])
     else
       let? key := mode_key mode in
       let? t := subscript test key in
       let? key := mode_key mode in
       let? r := subscript ref key in
       Returned (t, r)) in
  let '(teststeps, refsteps) := steps in
  let? teststeps := iterate teststeps in
  let? testnorms := for_all (fun n => let? step := getitem n "step" in Norms X step n)
                            teststeps in
  let? testset := NormsSet X testnorms in
  let? refsteps := iterate refsteps in
  let? refnorms := for_all (fun n => let? step := getitem n "step" in Norms X step n)
                           refsteps in
  let? refset := NormsSet X refnorms in
  _compare_2normsets testset refset plot_spectral validation_threshold.

End WithListings.

End NormsChecker.


(* ===================================================================== *)
(** * Sample inputs                                                       *)
(* ===================================================================== *)

Module Samples.
Import Py.

(** ** Boards *)

Definition sample_repr (v : value) : string := "<repr>".

Definition doc (entries : list (string * value)) : value := VDict (list_to_map entries).

(** An expert whose [parse] and [compare] answer an empty document. *)
Definition an_expert (kind : string) (side : bool) : Expertise.expert :=
  Expertise.Expert kind side (Returned (doc [])) (fun _ => Returned (doc [])).

(** An expert whose [parse] raises, for want of an output to read. *)
Definition a_failing_expert (kind : string) : Expertise.expert :=
  Expertise.Expert kind false (Raised (ExpertError "Output file not found: NODE.001_01"))
                   (fun _ => Returned (doc [])).

(** A board that holds the given continuity summary, as [compare] leaves
    it before [_status]. *)
Definition board_with (panel : list Expertise.expert) (continuity : gmap string value)
  : Expertise.board :=
  Expertise.Board panel None ∅ ∅ continuity [].

Definition crashed (text : string) : gmap string value :=
  list_to_map [("symbol", VStr "+"); ("short", VStr "+ Ref Crashed +"); ("text", VStr text)].

Definition validated (b : bool) : gmap string value :=
  list_to_map [("Validated", VBool b); ("Validated means", VStr "norms are identical")].

(** Two experts, each with a crashed reference of its own. *)
Definition two_crashed : Expertise.board :=
  board_with [an_expert "norms" false; an_expert "fields_in_file" false]
    (list_to_map [("norms", VDict (crashed "norms: reference crashed"));
                  ("fields_in_file", VDict (crashed "fields: reference crashed"))]).

(** A validating expert, then one with a crashed reference. *)
Definition ok_then_crashed : Expertise.board :=
  board_with [an_expert "norms" false; an_expert "fields_in_file" false]
    (list_to_map [("norms", VDict (validated true));
                  ("fields_in_file", VDict (crashed "fields: reference crashed"))]).

(** One expert whose 'Validated' is [None]. *)
Definition unstated : Expertise.board :=
  board_with [an_expert "norms" false]
    (list_to_map [("norms", doc [("Validated", VNone);
                                 ("Validated means", VStr "norms are identical")])]).

(** One expert with 'Validated': False and no 'Validated means'. *)
Definition failed_without_means : Expertise.board :=
  board_with [an_expert "norms" false]
    (list_to_map [("norms", doc [("Validated", VBool false)])]).

(** A validating expert and a failing one. *)
Definition ok_and_failed : Expertise.board :=
  board_with [an_expert "norms" false; an_expert "fields_in_file" false]
    (list_to_map [("norms", VDict (validated true));
                  ("fields_in_file", VDict (validated false))]).

(** A validating expert, and a side expert with a crashed reference. *)
Definition side_crashed : Expertise.board :=
  board_with [an_expert "norms" false; an_expert "drhook" true]
    (list_to_map [("norms", VDict (validated true));
                  ("drhook", VDict (crashed "drhook: reference crashed"))]).

(** A lone side expert. *)
Definition side_alone : Expertise.board :=
  board_with [an_expert "drhook" true] (list_to_map [("drhook", VDict (validated false))]).

(** A validating expert, and a side expert that fails. *)
Definition side_failed : Expertise.board :=
  board_with [an_expert "norms" false; an_expert "drhook" true]
    (list_to_map [("norms", VDict (validated true));
                  ("drhook", VDict (validated false))]).

(** Two validating experts. *)
Definition ok_and_ok : Expertise.board :=
  board_with [an_expert "norms" false; an_expert "fields_in_file" false]
    (list_to_map [("norms", VDict (validated true));
                  ("fields_in_file", VDict (validated true))]).

(** A validating expert, then two whose 'Validated' is [None]. *)
Definition ok_then_unstated : Expertise.board :=
  board_with [an_expert "norms" false; an_expert "fields_in_file" false;
              an_expert "jo_tables" false]
    (list_to_map [("norms", VDict (validated true));
                  ("fields_in_file", doc [("Validated", VNone)]);
                  ("jo_tables", doc [("Validated", VNone)])]).

(** A fresh board, before [process]. *)
Definition fresh : Expertise.board :=
  Expertise.Board [an_expert "norms" false; an_expert "drhook" true] None ∅ ∅ ∅ [].

(** A fresh board whose second expert cannot parse. *)
Definition unparsable : Expertise.board :=
  Expertise.Board [an_expert "drhook" true; a_failing_expert "norms"] None ∅ ∅ ∅ [].

(** ** Files *)

(** A stand-in for epygram, the thresholds and the formatting builtins:
    descriptors are compared as strings, [sp2gp] leaves the field as it
    is, the normalized comparison answers fixed statistics, and EPSILON
    is the machine epsilon of float64. *)
Definition sample_externals : Fields.externals :=
  Fields.Externals
    (fun a b => Returned (if eq_symbols a b then VNone else doc [("diff", b)]))
    (fun f => Returned f)
    (fun _ _ => Returned ([("bias", 0.5%float); ("std", 0.25%float); ("errmax", 0.75%float)],
                          true))
    0x1p-52%float
    (fun _ => "<key>") (fun _ => "<float>") (fun _ => "<percent>") (fun _ => "<exception>").

(** A gridpoint field of float64 data with the given validity. *)
Definition sample_field (validity : string) (values : list float) : Fields.field :=
  Fields.Field false false (VStr validity) (VStr "geometry")
               (Fields.FloatArray [length values] values).

(** A resource holding the given named fields. *)
Definition sample_resource (content : list (string * Fields.field)) : Fields.resource :=
  Fields.Resource (map (fun p => Fields.FidStr (fst p)) content)
    (fun f =>
       match f with
       | Fields.FidStr s =>
           match list_find (fun p => fst p = s) content with
           | Some (_, (_, x)) => Returned x
           | None => Raised (KeyError s)
           end
       | Fields.FidKey _ => Raised TypeError
       end).

(** One field, whose test value is EPSILON away from the reference. *)
Definition within_epsilon_test : Fields.resource :=
  sample_resource [("T", sample_field "2020-01-01T00" [0x1p-52%float])].
Definition within_epsilon_ref : Fields.resource :=
  sample_resource [("T", sample_field "2020-01-01T00" [0%float])].

(** One field, of equal data and different validity. *)
Definition meta_diff_test : Fields.resource :=
  sample_resource [("T", sample_field "2020-01-01T00" [1%float; 2%float])].
Definition meta_diff_ref : Fields.resource :=
  sample_resource [("T", sample_field "2020-01-01T06" [1%float; 2%float])].

(** An identical field T, and a buffer field the test file holds alone. *)
Definition buffer_test : Fields.resource :=
  sample_resource [("SFX._FBUF_A", sample_field "2020-01-01T00" [1%float]);
                   ("T", sample_field "2020-01-01T00" [1%float])].
Definition buffer_ref : Fields.resource :=
  sample_resource [("T", sample_field "2020-01-01T00" [1%float])].

(** Files of fields f1, f2 and f1, f3, with f1 identical. *)
Definition orphans_test : Fields.resource :=
  sample_resource [("f1", sample_field "2020-01-01T00" [1%float]);
                   ("f2", sample_field "2020-01-01T00" [2%float])].
Definition orphans_ref : Fields.resource :=
  sample_resource [("f1", sample_field "2020-01-01T00" [1%float]);
                   ("f3", sample_field "2020-01-01T00" [3%float])].

(** Two files whose only common field is a buffer field. *)
Definition only_buffer_test : Fields.resource :=
  sample_resource [("SFX._FBUF_A", sample_field "2020-01-01T00" [1%float]);
                   ("T", sample_field "2020-01-01T00" [1%float])].
Definition only_buffer_ref : Fields.resource :=
  sample_resource [("SFX._FBUF_A", sample_field "2020-01-01T00" [2%float]);
                   ("Q", sample_field "2020-01-01T00" [1%float])].

(** ** References and listings *)

(** Two consistency references that come from two tasks. *)
Definition mixed_references : list Expertise.reference :=
  [Expertise.Reference "historic.forecast" "forecast";
   Expertise.Reference "historic.analysis" "analysis"].

(** Resource handlers named after their kind, located in a cache and in
    an archive. *)
Definition sample_kind (rh : string) : string := rh.
Definition sample_locate (rh : string) : string :=
  "cache/" +:+ rh +:+ ";archive/" +:+ rh.

(** ** More files *)

(** A file that lists a field T it cannot read. *)
Definition unreadable : Fields.resource :=
  Fields.Resource [Fields.FidStr "T"] (fun _ => Raised (KeyError "T")).

(** One field, whose plain array holds a NaN. *)
Definition with_nan : Fields.resource :=
  sample_resource [("T", sample_field "2020-01-01T00" [1%float; nan])].

(** ** An expert of fields in files *)

(** The expert with its default options and no asked file name. *)
Definition fields_expert : FieldsInFileExpert.attributes :=
  FieldsInFileExpert.Attributes [] true 0.5%float false false true false true.

(** A working directory where every file exists: 'ref.A' differs from
    'A' by its validity, any other file is the same as 'A'. *)
Definition fields_system : FieldsInFileExpert.system :=
  FieldsInFileExpert.System
    (fun _ => true) ["A"] (fun _ => "historic") (fun r => r)
    (fun name => Returned (if String.eqb name "ref.A" then meta_diff_ref else meta_diff_test))
    (fun _ => Returned 0%float)
    (fun _ _ => Raised ValueError).

(** ** Norms *)

(** A stand-in for arpifs_listings: norms without content, three
    different digits at worst. *)
Definition sample_norms : NormsChecker.externals :=
  NormsChecker.Externals unit unit
    (fun _ _ => Returned tt) (fun _ => Returned tt)
    (fun _ _ => Returned "norms") (fun _ _ => Returned 3%Z) (fun _ _ => Returned [])
    (fun l => l) 0%Z.

(** A listing of one step, with spectral norms only. *)
Definition one_step : list (gmap string value) :=
  [list_to_map [("step", VStr "0");
                ("spnorms", doc [("VORTICITY", VStr "0.1")]);
                ("gpnorms", doc [])]].

(** The document of a comparison of norms with at most 2 different
    digits asked for, and the board of the expert that holds it. *)
Definition norms_document : value :=
  doc [("Maximum different digits", VInt 3);
       ("Validated means",
        VStr "Maximum number of different digits in norms is lower or equal to <repr>");
       ("Validated", VBool false);
       ("Bit-reproducible", VBool false);
       ("mainMetrics", VStr "Maximum different digits");
       ("_Norms Compared (all)", VList [VStr "norms"])].

Definition norms_board : Expertise.board :=
  board_with [an_expert "norms" false] (list_to_map [("norms", norms_document)]).

End Samples.

(* ===================================================================== *)
(** * Properties of the status aggregation                                *)
(* ===================================================================== *)

Module ExpertiseProofs.
Import Py Expertise.
Local Open Scope py_scope.

(** ** The monad *)

Section MonadLemmas.
Context {S A B : Type}.

Lemma bind_returned (m : M S A) (k : A -> M S B) s b s' :
  bind m k s = (Returned b, s') ->
  exists a s1, m s = (Returned a, s1) /\ k a s1 = (Returned b, s').
Proof.
  unfold bind. destruct (m s) as [[a|e] s1]; intros H; [eauto | discriminate].
Qed.

Lemma lift_returned (o : outcome A) (s s' : S) a :
  lift o s = (Returned a, s') -> o = Returned a /\ s' = s.
Proof. unfold lift. intros [= -> ->]. auto. Qed.

Lemma read_returned (o : outcome A) (s s' : S) a :
  (o, s) = (Returned a, s') -> o = Returned a /\ s' = s.
Proof. intros [= -> ->]. auto. Qed.

Lemma ret_returned (a b : A) (s s' : S) :
  ret a s = (Returned b, s') -> b = a /\ s' = s.
Proof. unfold ret. intros [= -> ->]. auto. Qed.

End MonadLemmas.

Lemma modify_returned {S} (f : S -> S) s u s' :
  modify f s = (Returned u, s') -> s' = f s.
Proof. unfold modify. intros [= _ ->]. reflexivity. Qed.

Lemma for_each_app {S A} (l1 l2 : list A) (body : A -> M S unit) s :
  for_each (l1 ++ l2) body s = bind (for_each l1 body) (fun _ => for_each l2 body) s.
Proof.
  revert s. induction l1 as [|a l1 IH]; intros s; simpl.
  - reflexivity.
  - unfold bind in *. destruct (body a s) as [[[]|e] s1]; [|reflexivity].
    rewrite IH. reflexivity.
Qed.

Lemma subscript_returned d k v : subscript d k = Returned v -> d !! k = Some v.
Proof. unfold subscript. destruct (d !! k); congruence. Qed.

(** ** The severity order *)

Lemma index_in s : s ∈ status_order -> exists i, index status_order (VStr s) = Returned i.
Proof.
  unfold status_order. rewrite !elem_of_cons, elem_of_nil.
  intros [->|[->|[->|[->|[->|[->|[->|[]]]]]]]]; eexists; vm_compute; reflexivity.
Qed.

Lemma index_bound v i : index status_order v = Returned i -> (i <= 6)%nat.
Proof.
  intros H. cbv [status_order index obind] in H.
  repeat (match type of H with context [eq_str v ?s] => destruct (eq_str v s) end; cbn in H);
    first [discriminate | injection H as <-; lia].
Qed.

Ltac in_order := unfold status_order; rewrite !elem_of_cons; auto 10.

Lemma good_value_mk sym short text : sym ∈ status_order -> good_value (mk_status sym short text).
Proof.
  intros H. unfold mk_status. eexists _, sym. split; [reflexivity|].
  split; [by rewrite lookup_insert_eq|]. split; [done|].
  intros _. exists text. rewrite lookup_insert_ne by done. rewrite lookup_insert_ne by done.
  by rewrite lookup_insert_eq.
Qed.

Lemma good_frame_initial (cs : gmap string value) : good_frame (initial cs).
Proof.
  split; [|done]. simpl. eexists. split; [by rewrite lookup_insert_eq|].
  apply good_value_mk. in_order.
Qed.

Lemma initial_lookup (cs : gmap string value) k :
  k <> "comparisonStatus" -> comp_summary (initial cs) !! k = cs !! k.
Proof. intros Hk. simpl. by rewrite lookup_insert_ne. Qed.

Lemma rank_good fr : good_frame fr -> exists j, rank (comp_summary fr) = Some j.
Proof.
  intros [(cur & Hcur & (c & s & -> & Hs & Hin & _)) _].
  destruct (index_in s Hin) as (j & Hj). exists j.
  unfold rank, symbol_rank, getitem, subscript. rewrite Hcur, Hs, Hj. done.
Qed.

Lemma rank_inv (cs : gmap string value) i :
  rank cs = Some i ->
  exists c sym, cs !! "comparisonStatus" = Some (VDict c) /\ c !! "symbol" = Some sym
    /\ index status_order sym = Returned i.
Proof.
  unfold rank, symbol_rank, getitem, subscript. intros H.
  destruct (cs !! "comparisonStatus") as [[| | | | |c]|]; try discriminate.
  destruct (c !! "symbol") as [sym|] eqn:Es; try discriminate.
  destruct (index status_order sym) eqn:E; try discriminate.
  injection H as <-. exists c, sym. auto.
Qed.

(** ** The summaries of a board *)

Lemma setattr_setattr w m m' b : setattr w m (setattr w m' b) = setattr w m b.
Proof. by destruct w, b. Qed.

Lemma getattr_setattr w m b : getattr w (setattr w m b) = m.
Proof. by destruct w, b. Qed.

Lemma experts_setattr w m b : experts (setattr w m b) = experts b.
Proof. by destruct w, b. Qed.

Lemma lead_expert_setattr w m b : lead_expert (setattr w m b) = lead_expert b.
Proof. by destruct w, b. Qed.

Lemma size_pos_iff (m : gmap string value) : (0 <? size m)%nat = true <-> m <> ∅.
Proof.
  rewrite Nat.ltb_lt. split.
  - intros H ->. rewrite map_size_empty in H. lia.
  - intros H. destruct (size m) eqn:E; [|lia]. by apply map_size_empty_inv in E.
Qed.

Lemma pop_all_delete k panel (cs : gmap string value) :
  pop_all panel (delete k cs) = delete k (pop_all panel cs).
Proof.
  unfold pop_all. revert cs. induction panel as [|e panel IH]; intros cs; simpl; [done|].
  rewrite <- IH. f_equal. apply delete_delete.
Qed.

Lemma pop_all_lookup panel (cs : gmap string value) x :
  pop_all panel cs !! x = None \/ pop_all panel cs !! x = cs !! x.
Proof.
  unfold pop_all. revert cs. induction panel as [|e panel IH]; intros cs; simpl; [auto|].
  destruct (IH (delete (kind e) cs)) as [H|H]; [auto|]. rewrite H.
  destruct (decide (kind e = x)) as [->|Hne].
  - left. apply lookup_delete_eq.
  - right. by apply lookup_delete_ne.
Qed.

Lemma pop_all_other (l : list expert) (cs : gmap string value) k :
  (forall e, e ∈ l -> kind e <> k) -> pop_all l cs !! k = cs !! k.
Proof.
  unfold pop_all. revert cs. induction l as [|a l IH]; intros cs Hk; simpl; [done|].
  rewrite IH by (intros e He; apply Hk; by right).
  apply lookup_delete_ne. apply Hk. left.
Qed.

Lemma pop_all_kind (l : list expert) (cs : gmap string value) e :
  e ∈ l -> pop_all l cs !! kind e = None.
Proof.
  intros Hin. destruct (pop_all_lookup l cs (kind e)) as [H|H]; [done|].
  unfold pop_all in *. revert cs H. induction l as [|a l IH]; intros cs H; simpl in *.
  - by apply elem_of_nil in Hin.
  - apply elem_of_cons in Hin as [->|Hin].
    + destruct (pop_all_lookup l (delete (kind a) cs) (kind a)) as [H'|H']; [done|].
      unfold pop_all in H'. rewrite H'. apply lookup_delete_eq.
    + destruct (pop_all_lookup l (delete (kind a) cs) (kind e)) as [H'|H']; [done|].
      apply IH; [done|]. exact H'.
Qed.

(** ** One update of the status *)

Lemma update_status_returns fr :
  good_frame fr -> status fr <> Unbound ->
  exists fr', update_status fr = (Returned tt, fr') /\ good_frame fr' /\ status fr' <> Unbound.
Proof.
  intros [(cur & Hcur & Hgc) Hown] Hb.
  assert (exists st, read_status fr = (Returned st, fr) /\ good_value st) as (st & Hrd & Hgs).
  { unfold read_status, subscript. destruct (status fr) as [| |v] eqn:E; [done| |].
    - rewrite Hcur. eauto.
    - eauto. }
  destruct Hgs as (c & s & -> & Hs & Hin & Htext).
  pose proof Hgc as (c' & s' & -> & Hs' & Hin' & Htext').
  destruct (index_in s Hin) as (i & Hi). destruct (index_in s' Hin') as (j & Hj).
  unfold update_status, bind. rewrite Hrd. unfold lift, getitem, subscript.
  rewrite Hs, Hi, Hcur, Hs', Hj.
  destruct (j <=? i)%nat; [|unfold ret; eexists; split; [reflexivity|]; split; [split; eauto|done]].
  destruct (eq_symbols (VStr s) (VStr s') && (eq_str (VStr s) "OK" || eq_str (VStr s) "KO")) eqn:Hg.
  - apply andb_true_iff in Hg as [Heq Hok]. simpl in Heq. apply String.eqb_eq in Heq. subst s'.
    assert (Hor : s = "OK" \/ s = "KO").
    { apply orb_true_iff in Hok as [H|H]; simpl in H; apply String.eqb_eq in H; auto. }
    destruct (Htext Hor) as (t & Ht). destruct (Htext' Hor) as (t' & Ht').
    rewrite Ht, Ht'. simpl. unfold modify. eexists. split; [reflexivity|].
    split; [|done]. split; simpl; [|done].
    eexists. split; [by rewrite lookup_insert_eq|].
    eexists _, s. split; [reflexivity|]. rewrite lookup_insert_ne by done.
    split; [done|]. split; [done|]. intros _. rewrite lookup_insert_eq. eauto.
  - unfold modify. eexists. split; [reflexivity|]. simpl. split; [|done].
    split; simpl; [|done]. eexists. split; [by rewrite lookup_insert_eq|].
    eexists _, s. eauto.
Qed.

Lemma update_status_mono fr fr' :
  update_status fr = (Returned tt, fr') ->
  exists j i, rank (comp_summary fr) = Some j /\ rank (comp_summary fr') = Some i /\ (j <= i)%nat
    /\ (forall v, status fr = Own v -> exists iv, symbol_rank v = Some iv /\ (iv <= i)%nat)
    /\ (forall k, k <> "comparisonStatus" -> comp_summary fr' !! k = comp_summary fr !! k).
Proof.
  unfold update_status. intros H.
  apply bind_returned in H as (st & fr1 & Hst & H).
  assert (fr1 = fr /\ (status fr = Own st \/ status fr = Shared)) as [-> Hst'].
  { unfold read_status in Hst. destruct (status fr) as [| |v]; [discriminate| |].
    - injection Hst as _ <-. auto.
    - injection Hst as -> <-. auto. }
  apply bind_returned in H as (sym & fr1 & Hsym & H). apply lift_returned in Hsym as [Hsym ->].
  apply bind_returned in H as (i & fr1 & Hi & H). apply lift_returned in Hi as [Hi ->].
  apply bind_returned in H as (cur & fr1 & Hcur & H). apply read_returned in Hcur as [Hcur ->].
  apply subscript_returned in Hcur.
  apply bind_returned in H as (cur_sym & fr1 & Hcs & H). apply lift_returned in Hcs as [Hcs ->].
  apply bind_returned in H as (j & fr1 & Hj & H). apply lift_returned in Hj as [Hj ->].
  assert (Hrank : rank (comp_summary fr) = Some j).
  { unfold rank, symbol_rank. rewrite Hcur, Hcs, Hj. done. }
  assert (Hst_rank : symbol_rank st = Some i).
  { unfold symbol_rank. rewrite Hsym, Hi. done. }
  assert (Hown : forall i', (i <= i')%nat ->
            forall v, status fr = Own v -> exists iv, symbol_rank v = Some iv /\ (iv <= i')%nat).
  { intros i' Hle v Hv. destruct Hst' as [E|E]; rewrite E in Hv; [|discriminate].
    injection Hv as <-. eauto. }
  exists j.
  destruct (j <=? i)%nat eqn:Hji.
  - apply Nat.leb_le in Hji.
    destruct (eq_symbols sym cur_sym && (eq_str sym "OK" || eq_str sym "KO")) eqn:Hg.
    + apply bind_returned in H as (old & fr1 & Hold & H). apply lift_returned in Hold as [Hold ->].
      apply bind_returned in H as (txt & fr1 & Htxt & H). apply lift_returned in Htxt as [Htxt ->].
      apply bind_returned in H as (sep & fr1 & Hsep & H). apply lift_returned in Hsep as [Hsep ->].
      apply bind_returned in H as (new & fr1 & Hnew & H). apply lift_returned in Hnew as [Hnew ->].
      destruct cur as [| | | | |c]; try discriminate.
      apply modify_returned in H. subst fr'. simpl.
      assert (i = j) as ->.
      { apply andb_true_iff in Hg as [Hg _].
        destruct sym, cur_sym; try discriminate. apply String.eqb_eq in Hg. subst.
        rewrite Hi in Hj. by injection Hj. }
      exists j. split; [done|]. split.
      { unfold rank, symbol_rank. rewrite lookup_insert_eq.
        unfold getitem, subscript in *. rewrite lookup_insert_ne by done.
        destruct (c !! "symbol"); [|done]. injection Hcs as ->. rewrite Hj. done. }
      split; [lia|]. split; [by apply Hown|].
      intros k Hk. by rewrite lookup_insert_ne.
    + apply bind_returned in H as ([] & fr1 & H1 & H).
      apply modify_returned in H1. apply modify_returned in H. subst. simpl.
      exists i. split; [done|]. split.
      { unfold rank. rewrite lookup_insert_eq. done. }
      split; [done|]. split; [by apply Hown|].
      intros k Hk. by rewrite lookup_insert_ne.
  - apply Nat.leb_gt in Hji. apply ret_returned in H as [_ ->].
    exists j. split; [done|]. split; [done|]. split; [lia|]. split; [|done].
    apply Hown. lia.
Qed.

(** ** One iteration of the loop *)

Section Iteration.
Variable py_repr : value -> string.
Variable panel : list expert.

Lemma interpret_validated_returned e fr fr' :
  interpret_validated py_repr e fr = (Returned tt, fr') ->
  comp_summary fr' = comp_summary fr
  /\ (forall d, comp_summary fr !! kind e = Some (VDict d) ->
        d !! "Validated" = Some (VBool false) ->
        exists t, status fr' = Own (mk_status "KO" "KO" t)).
Proof.
  unfold interpret_validated. intros H.
  apply bind_returned in H as (doc & fr1 & Hdoc & H).
  apply read_returned in Hdoc as [Hdoc ->]. apply subscript_returned in Hdoc.
  apply bind_returned in H as (v & fr1 & Hv & H). apply lift_returned in Hv as [Hv ->].
  assert (Hko : forall d, comp_summary fr !! kind e = Some (VDict d) ->
                  d !! "Validated" = Some (VBool false) -> v = VBool false).
  { intros d Hd HV. rewrite Hd in Hdoc. injection Hdoc as <-.
    unfold getitem, subscript in Hv. rewrite HV in Hv. congruence. }
  destruct (is_True v) eqn:HT.
  { apply bind_returned in H as (means & fr1 & Hm & H). apply lift_returned in Hm as [Hm ->].
    apply modify_returned in H. subst fr'. split; [done|].
    intros d Hd HV. rewrite (Hko d Hd HV) in HT. discriminate. }
  destruct (is_False v) eqn:HF.
  { apply bind_returned in H as (means & fr1 & Hm & H). apply lift_returned in Hm as [Hm ->].
    apply modify_returned in H. subst fr'. split; [done|]. intros; simpl; eauto. }
  apply ret_returned in H as [_ ->]. split; [done|].
  intros d Hd HV. rewrite (Hko d Hd HV) in HF. discriminate.
Qed.

(** What an iteration that does not take the '+' branch and returns has
    done: nothing for a side expert, else one update of the status. *)
Lemma iteration_returned e fr fr' :
  reference_crashed e (comp_summary fr) <> Returned true ->
  status_iteration py_repr panel e fr = (Returned tt, fr') ->
  (side_expert e = true /\ fr' = fr)
  \/ (side_expert e = false /\ exists fr1,
        comp_summary fr1 = comp_summary fr
        /\ update_status fr1 = (Returned tt, fr')
        /\ (forall d, comp_summary fr !! kind e = Some (VDict d) ->
              d !! "Validated" = Some (VBool false) ->
              exists t, status fr1 = Own (mk_status "KO" "KO" t))).
Proof.
  intros Hplus H. unfold status_iteration in H.
  apply bind_returned in H as (crashed & fr1 & Hc & H).
  apply read_returned in Hc as [Hc ->].
  destruct crashed; [congruence|].
  destruct (side_expert e) eqn:Hside.
  { apply ret_returned in H as [_ ->]. auto. }
  right. split; [done|].
  apply bind_returned in H as (validated & fr1 & Hv & H).
  apply read_returned in Hv as [Hv ->].
  destruct validated.
  { apply bind_returned in H as ([] & fr1 & Hi & H).
    apply interpret_validated_returned in Hi as [Hcs Hko]. eauto. }
  assert (Hno : forall d, comp_summary fr !! kind e = Some (VDict d) ->
                  d !! "Validated" = Some (VBool false) -> False).
  { intros d Hd HV. unfold has_validated in Hv. rewrite Hd in Hv. simpl in Hv.
    rewrite HV in Hv. rewrite bool_decide_eq_true_2 in Hv by eauto. discriminate. }
  apply bind_returned in H as (failed & fr1 & Hf & H).
  apply read_returned in Hf as [Hf ->].
  destruct failed.
  { apply bind_returned in H as ([] & fr1 & Hm & H). apply modify_returned in Hm. subst fr1.
    eexists. split; [|split; [exact H|]]; [done|]. intros d Hd HV. destruct (Hno d Hd HV). }
  apply bind_returned in H as (noref & fr1 & Hn & H).
  apply read_returned in Hn as [Hn ->].
  destruct noref.
  { apply bind_returned in H as (doc & fr1 & Hdoc & H). apply read_returned in Hdoc as [Hdoc ->].
    apply bind_returned in H as (st & fr1 & Hst & H). apply lift_returned in Hst as [Hst ->].
    apply bind_returned in H as ([] & fr1 & Hm & H). apply modify_returned in Hm. subst fr1.
    eexists. split; [|split; [exact H|]]; [done|]. intros d Hd HV. destruct (Hno d Hd HV). }
  apply bind_returned in H as ([] & fr1 & Hm & H). apply modify_returned in Hm. subst fr1.
  eexists. split; [|split; [exact H|]]; [done|]. intros d Hd HV. destruct (Hno d Hd HV).
Qed.

Lemma iteration_mono e fr fr' j :
  reference_crashed e (comp_summary fr) <> Returned true ->
  status_iteration py_repr panel e fr = (Returned tt, fr') ->
  rank (comp_summary fr) = Some j ->
  exists i, rank (comp_summary fr') = Some i /\ (j <= i)%nat
    /\ (forall k, k <> "comparisonStatus" -> comp_summary fr' !! k = comp_summary fr !! k)
    /\ (side_expert e = false ->
        forall d, comp_summary fr !! kind e = Some (VDict d) ->
          d !! "Validated" = Some (VBool false) -> (4 <= i)%nat).
Proof.
  intros Hplus H Hj.
  destruct (iteration_returned e fr fr' Hplus H) as [[Hside ->]|(Hside & fr1 & Hcs & Hup & Hko)].
  - exists j. repeat split; auto. congruence.
  - apply update_status_mono in Hup as (j' & i & Hj' & Hi & Hle & Hown & Hkeys).
    rewrite Hcs, Hj in Hj'. injection Hj' as <-.
    exists i. split; [done|]. split; [done|]. split.
    { intros k Hk. rewrite Hkeys by done. by rewrite Hcs. }
    intros _ d Hd HV. destruct (Hko d Hd HV) as (t & Ht).
    destruct (Hown _ Ht) as (iv & Hiv & Hle'). vm_compute in Hiv. injection Hiv as <-. done.
Qed.

Lemma not_crashed e (cs : gmap string value) :
  (forall v, cs !! kind e = Some v -> carries_plus v = false) ->
  reference_crashed e cs <> Returned true.
Proof.
  intros H. unfold reference_crashed. destruct (cs !! kind e) as [v|] eqn:E; [|done].
  specialize (H v eq_refl). destruct v as [| | | | |d]; try done. simpl in *.
  destruct (d !! "symbol"); simpl; [|done]. rewrite H. done.
Qed.

Lemma good_frame_set_status fr v :
  good_frame fr -> good_value v -> good_frame (set_status (Own v) fr).
Proof.
  intros [Hc _] Hv. split; [done|]. simpl. intros v' [= <-]. done.
Qed.

Lemma update_after_set fr v :
  good_frame fr -> good_value v ->
  exists fr', update_status (set_status (Own v) fr) = (Returned tt, fr') /\ good_frame fr'.
Proof.
  intros Hg Hv. destruct (update_status_returns (set_status (Own v) fr)) as (fr' & H & Hg' & _).
  - by apply good_frame_set_status.
  - done.
  - eauto.
Qed.

Lemma iteration_returns e fr :
  good_frame fr ->
  (forall v, comp_summary fr !! kind e = Some v ->
     well_formed e v = true /\ carries_plus v = false) ->
  exists fr', status_iteration py_repr panel e fr = (Returned tt, fr') /\ good_frame fr'.
Proof.
  intros Hg Hentry. unfold status_iteration, bind at 1. unfold reference_crashed.
  destruct (comp_summary fr !! kind e) as [v|] eqn:E.
  - destruct (Hentry v eq_refl) as [Hwf Hnp]. destruct v as [| | | | |d]; try discriminate.
    simpl in Hwf, Hnp. unfold get, get_default, obind.
    assert (Hs : eq_str (default VNone (d !! "symbol")) "+" = false).
    { destruct (d !! "symbol"); done. }
    replace (match d !! "symbol" with Some x => x | None => VNone end)
      with (default VNone (d !! "symbol")) by (by destruct (d !! "symbol")).
    rewrite Hs. destruct (side_expert e); [unfold ret; eauto|]. simpl in Hwf.
    unfold bind at 1, has_validated. rewrite E. unfold contains.
    unfold states_validation_well in Hwf.
    destruct (d !! "Validated") as [V|] eqn:EV.
    + rewrite bool_decide_eq_true_2 by eauto.
      destruct V as [|b| | | |]; try discriminate. apply bool_decide_eq_true_1 in Hwf as [m Hm].
      unfold bind at 1, interpret_validated, bind at 1, subscript. rewrite E.
      unfold bind at 1, lift, getitem, subscript. rewrite EV.
      destruct b; simpl.
      * unfold bind at 1. rewrite Hm. unfold modify at 1.
        apply update_after_set; [done|]. apply good_value_mk. in_order.
      * unfold bind at 1. rewrite Hm. unfold modify at 1.
        apply update_after_set; [done|]. apply good_value_mk. in_order.
    + rewrite bool_decide_eq_false_2 by (intros [? ?]; done).
      unfold bind at 1, comparison_failed. rewrite E. unfold get, get_default, obind.
      destruct (eq_str _ "Failed").
      { unfold bind at 1, modify at 1. apply update_after_set; [done|].
        apply good_value_mk. in_order. }
      unfold bind at 1, no_reference. rewrite E. unfold get, get_default, obind.
      destruct (d !! "comparisonStatus") as [n|] eqn:En.
      * destruct n as [| | | | |n]; try discriminate.
        destruct (eq_str _ "0") eqn:E0.
        { unfold bind at 1, subscript. rewrite E. unfold bind at 1, lift. rewrite En.
          unfold bind at 1, modify at 1. apply update_after_set; [done|].
          destruct (n !! "symbol") as [[| | |s| |]|] eqn:Es; try discriminate.
          simpl in E0. apply String.eqb_eq in E0. subst s.
          eexists _, "0". split; [reflexivity|]. split; [done|]. split; [in_order|].
          intros [?|?]; discriminate. }
        unfold bind at 1, modify at 1. apply update_after_set; [done|].
        apply good_value_mk. in_order.
      * rewrite lookup_empty. simpl.
        unfold bind at 1, modify at 1. apply update_after_set; [done|].
        apply good_value_mk. in_order.
  - destruct (side_expert e); [unfold ret; eauto|].
    unfold bind at 1, has_validated. rewrite E.
    unfold bind at 1, comparison_failed. rewrite E.
    unfold bind at 1, no_reference. rewrite E.
    unfold bind at 1, modify at 1. apply update_after_set; [done|].
    apply good_value_mk. in_order.
Qed.

(** The iteration for the first expert whose document carries '+'. *)
Lemma plus_iteration e fr d :
  good_frame fr ->
  (forall e', e' ∈ panel -> kind e' <> "comparisonStatus") ->
  comp_summary fr !! kind e = Some (VDict d) ->
  d !! "symbol" = Some (VStr "+") ->
  status_iteration py_repr panel e fr =
    (Returned tt, Frame (<["comparisonStatus" := VDict d]> (pop_all panel (comp_summary fr))) Shared).
Proof.
  intros [(cur & Hcur & Hgc) _] Hkinds Hd Hs.
  destruct Hgc as (c & s & -> & Hsym & Hin & _).
  destruct (index_in s Hin) as (j & Hj). pose proof (index_bound _ _ Hj) as Hle.
  unfold status_iteration, bind at 1, reference_crashed. rewrite Hd.
  unfold get, get_default, obind. rewrite Hs.
  change (eq_str (VStr "+") "+") with true. cbv beta iota.
  unfold bind at 1, subscript at 1. rewrite Hd.
  unfold bind at 1, modify at 1. unfold bind at 1, modify at 1.
  unfold update_status, bind at 1, read_status. simpl status. cbv iota.
  unfold bind at 1, lift at 1, getitem at 1, subscript at 1. rewrite Hs.
  unfold bind at 1, lift at 1.
  replace (index status_order (VStr "+")) with (Returned (A:=nat) 6) by (vm_compute; reflexivity).
  unfold bind at 1, subscript at 1. simpl comp_summary.
  rewrite pop_all_other by done. rewrite Hcur.
  unfold bind at 1, lift at 1, getitem at 1, subscript at 1. rewrite Hsym.
  unfold bind at 1, lift at 1. rewrite Hj.
  apply Nat.leb_le in Hle. rewrite Hle.
  replace (eq_symbols (VStr "+") (VStr s) && _) with false.
  2:{ rewrite andb_false_r. done. }
  unfold bind, modify. simpl. reflexivity.
Qed.

(** Once a '+' status is kept and the entries are popped, the remaining
    experts change nothing. *)
Lemma after_plus_iteration e fr d :
  comp_summary fr !! kind e = None ->
  comp_summary fr !! "comparisonStatus" = Some (VDict d) ->
  d !! "symbol" = Some (VStr "+") ->
  exists b, status_iteration py_repr panel e fr = (Returned tt, Frame (comp_summary fr) b).
Proof.
  intros He Hc Hs. destruct fr as [cs st]. simpl in *.
  unfold status_iteration, bind at 1, reference_crashed. simpl. rewrite He.
  destruct (side_expert e); [unfold ret; eauto|].
  unfold bind at 1, has_validated. simpl. rewrite He.
  unfold bind at 1, comparison_failed. simpl. rewrite He.
  unfold bind at 1, no_reference. simpl. rewrite He.
  unfold bind at 1, modify at 1. simpl.
  unfold update_status, read_status, bind, lift, getitem, subscript. simpl.
  rewrite lookup_insert_eq.
  replace (index status_order (VStr "?")) with (Returned (A:=nat) 2) by (vm_compute; reflexivity).
  rewrite Hc, Hs.
  replace (index status_order (VStr "+")) with (Returned (A:=nat) 6) by (vm_compute; reflexivity).
  simpl. unfold ret. eauto.
Qed.

End Iteration.

(** ** The loop over the panel *)

Section Loops.
Variable py_repr : value -> string.
Variable panel : list expert.

Lemma after_plus_loop l fr d :
  (forall e, e ∈ l -> comp_summary fr !! kind e = None) ->
  comp_summary fr !! "comparisonStatus" = Some (VDict d) ->
  d !! "symbol" = Some (VStr "+") ->
  exists b, for_each l (status_iteration py_repr panel) fr = (Returned tt, Frame (comp_summary fr) b).
Proof.
  revert fr. induction l as [|e l IH]; intros fr Hl Hc Hs; simpl.
  - unfold ret. destruct fr. eauto.
  - destruct (after_plus_iteration py_repr panel e fr d) as (b & Hb); [apply Hl; left|done|done|].
    unfold bind. rewrite Hb. apply (IH (Frame (comp_summary fr) b)); simpl; [|done|done].
    intros e' He'. apply Hl. by right.
Qed.

(** Over experts whose entries are well formed and without '+', the
    loop returns, and touches the status only. *)
Lemma quiet_loop l fr :
  good_frame fr ->
  (forall e, e ∈ l -> kind e <> "comparisonStatus") ->
  (forall e v, e ∈ l -> comp_summary fr !! kind e = Some v ->
     well_formed e v = true /\ carries_plus v = false) ->
  exists fr', for_each l (status_iteration py_repr panel) fr = (Returned tt, fr')
    /\ good_frame fr'
    /\ (forall k, k <> "comparisonStatus" -> comp_summary fr' !! k = comp_summary fr !! k).
Proof.
  revert fr. induction l as [|e l IH]; intros fr Hg Hk Hq; simpl.
  - unfold ret. eauto.
  - destruct (iteration_returns py_repr panel e fr Hg) as (fr1 & H1 & Hg1).
    { intros v Hv. apply (Hq e v); [left|done]. }
    assert (Hkeys : forall k, k <> "comparisonStatus" ->
              comp_summary fr1 !! k = comp_summary fr !! k).
    { destruct (rank_good fr Hg) as (j & Hj).
      destruct (iteration_mono py_repr panel e fr fr1 j) as (i & _ & _ & Hkeys & _); auto.
      apply not_crashed. intros v Hv. apply (Hq e v); [left|done]. }
    destruct (IH fr1) as (fr' & H' & Hg' & Hkeys'); [done| | |].
    { intros e' He'. apply Hk. by right. }
    { intros e' v He' Hv. apply (Hq e' v); [by right|].
      rewrite <- Hkeys; [done|]. apply Hk. by right. }
    exists fr'. unfold bind. rewrite H1. split; [done|]. split; [done|].
    intros k Hne. rewrite Hkeys' by done. by apply Hkeys.
Qed.

(** Without '+', a loop that returns has only raised the rank of the
    status, to that of 'KO' at least past a failed validation. *)
Lemma mono_loop l fr fr' j :
  (forall e, e ∈ l -> kind e <> "comparisonStatus") ->
  (forall e v, e ∈ l -> comp_summary fr !! kind e = Some v -> carries_plus v = false) ->
  for_each l (status_iteration py_repr panel) fr = (Returned tt, fr') ->
  rank (comp_summary fr) = Some j ->
  exists i, rank (comp_summary fr') = Some i /\ (j <= i)%nat
    /\ (forall e d, e ∈ l -> side_expert e = false ->
          comp_summary fr !! kind e = Some (VDict d) ->
          d !! "Validated" = Some (VBool false) -> (4 <= i)%nat).
Proof.
  revert fr j. induction l as [|e l IH]; intros fr j Hk Hnp H Hj; simpl in H.
  - apply ret_returned in H as [_ ->]. exists j. split; [done|]. split; [done|].
    intros e d He. by apply elem_of_nil in He.
  - apply bind_returned in H as ([] & fr1 & H1 & H).
    destruct (iteration_mono py_repr panel e fr fr1 j) as (i1 & Hi1 & Hle1 & Hkeys & Hko); auto.
    { apply not_crashed. intros v Hv. apply (Hnp e v); [left|done]. }
    destruct (IH fr1 i1) as (i & Hi & Hle & Hko'); auto.
    { intros e' He'. apply Hk. by right. }
    { intros e' v He' Hv. apply (Hnp e' v); [by right|].
      rewrite <- Hkeys; [done|]. apply Hk. by right. }
    exists i. split; [done|]. split; [lia|].
    intros e' d He' Hs Hd HV. apply elem_of_cons in He' as [->|He'].
    + specialize (Hko Hs d Hd HV). lia.
    + apply (Hko' e' d); auto. rewrite Hkeys; [done|]. apply Hk. by right.
Qed.

End Loops.

(** ** Two runs, with and without the entry of a side expert *)

Section Sim.
Variable py_repr : value -> string.
Variable k : string.
Variable d : gmap string value.
Hypothesis k_not_status : k <> "comparisonStatus".
Hypothesis d_no_plus : d !! "symbol" <> Some (VStr "+").

Lemma sim_bind {A B} (m : M frame A) (f : A -> M frame B) :
  sim k d m -> (forall a, sim k d (f a)) -> sim k d (bind m f).
Proof.
  intros Hm Hf fr1 fr2 HR. unfold bind.
  destruct (Hm fr1 fr2 HR) as [Ho HR'].
  destruct (m fr1) as [[a1|e1] s1], (m fr2) as [[a2|e2] s2]; simpl in *; try discriminate.
  - injection Ho as ->. apply Hf, HR'.
  - injection Ho as ->. auto.
Qed.

Lemma sim_lift {A} (o : outcome A) : sim k d (lift o).
Proof. intros fr1 fr2 HR. auto. Qed.

Lemma sim_ret {A} (a : A) : sim k d (ret a).
Proof. intros fr1 fr2 HR. auto. Qed.

Lemma sim_raise {A} e : sim k d (raise (A:=A) e).
Proof. intros fr1 fr2 HR. auto. Qed.

Lemma sim_set_status b : sim k d (modify (set_status b)).
Proof. intros fr1 fr2 (H1 & H2 & H3). repeat split; simpl; auto. Qed.

Lemma sim_set_result v :
  sim k d (modify (set_comp_summary (insert "comparisonStatus" v))).
Proof.
  intros fr1 fr2 (H1 & H2 & H3). repeat split; simpl; auto.
  - rewrite H1. by rewrite delete_insert_ne.
  - rewrite lookup_insert_ne by done. auto.
Qed.

Lemma sim_pop_all panel : sim k d (modify (set_comp_summary (pop_all panel))).
Proof.
  intros fr1 fr2 (H1 & H2 & H3). repeat split; simpl; auto.
  - rewrite H1. apply pop_all_delete.
  - destruct (pop_all_lookup panel (comp_summary fr1) k) as [H|H]; [auto|]. by rewrite H.
Qed.

(** Reading an entry other than [k]. *)
Lemma sim_read {A} (f : gmap string value -> outcome A) :
  (forall cs, f (delete k cs) = f cs) ->
  sim k d (fun fr => (f (comp_summary fr), fr)).
Proof.
  intros Hf fr1 fr2 HR. simpl. split; [|done].
  destruct HR as (-> & _). by rewrite Hf.
Qed.

Lemma sim_subscript x : x <> k -> sim k d (fun fr => (subscript (comp_summary fr) x, fr)).
Proof.
  intros Hx. apply (sim_read (fun cs => subscript cs x)).
  intros cs. unfold subscript. by rewrite lookup_delete_ne.
Qed.

Lemma sim_read_status : sim k d read_status.
Proof.
  intros fr1 fr2 HR. pose proof HR as (H1 & H2 & H3).
  unfold read_status. rewrite H2. destruct (status fr1); simpl; auto.
  split; [|done]. rewrite H1. unfold subscript. by rewrite lookup_delete_ne.
Qed.

Lemma sim_update_status : sim k d update_status.
Proof.
  unfold update_status.
  apply sim_bind; [apply sim_read_status|intros st].
  apply sim_bind; [apply sim_lift|intros sym].
  apply sim_bind; [apply sim_lift|intros i].
  apply sim_bind; [apply sim_subscript; done|intros cur].
  apply sim_bind; [apply sim_lift|intros cur_sym].
  apply sim_bind; [apply sim_lift|intros j].
  destruct (j <=? i)%nat; [|apply sim_ret].
  destruct (_ && _).
  - apply sim_bind; [apply sim_lift|intros old].
    apply sim_bind; [apply sim_lift|intros txt].
    apply sim_bind; [apply sim_lift|intros sep].
    apply sim_bind; [apply sim_lift|intros new].
    destruct cur; try apply sim_raise. apply sim_set_result.
  - apply sim_bind; [apply sim_set_result|intros _]. apply sim_set_status.
Qed.

Lemma sim_interpret_validated e : kind e <> k -> sim k d (interpret_validated py_repr e).
Proof.
  intros Hk. unfold interpret_validated.
  apply sim_bind; [apply sim_subscript; done|intros doc].
  apply sim_bind; [apply sim_lift|intros v].
  destruct (is_True v).
  { apply sim_bind; [apply sim_lift|intros means]. apply sim_set_status. }
  destruct (is_False v).
  { apply sim_bind; [apply sim_lift|intros means]. apply sim_set_status. }
  apply sim_ret.
Qed.

Lemma sim_iteration panel e :
  (kind e = k -> side_expert e = true) ->
  sim k d (status_iteration py_repr panel e).
Proof.
  intros Hside. destruct (decide (kind e = k)) as [Hk|Hk].
  - (* the side expert itself: both runs skip it *)
    specialize (Hside Hk). intros fr1 fr2 HR. pose proof HR as (H1 & H2 & H3).
    unfold status_iteration, bind, reference_crashed. rewrite Hside, Hk, H1.
    rewrite lookup_delete_eq.
    destruct H3 as [-> | ->]; simpl; [done|].
    unfold eq_str. destruct (d !! "symbol") as [[| | |s| |]|] eqn:E; simpl; try done.
    destruct (String.eqb_spec s "+") as [->|]; [done|]. simpl. done.
  - unfold status_iteration.
    assert (Hread : forall A (f : expert -> gmap string value -> outcome A),
      (forall cs cs', cs !! kind e = cs' !! kind e -> f e cs = f e cs') ->
      sim k d (fun fr => (f e (comp_summary fr), fr))).
    { intros A f Hf. apply (sim_read (f e)). intros cs. apply Hf. by rewrite lookup_delete_ne. }
    apply sim_bind.
    { apply Hread. intros cs cs' E. unfold reference_crashed. by rewrite E. }
    intros crashed. destruct crashed.
    { apply sim_bind; [apply sim_subscript; done|intros doc].
      apply sim_bind; [apply sim_set_status|intros _].
      apply sim_bind; [apply sim_pop_all|intros _].
      apply sim_update_status. }
    destruct (side_expert e); [apply sim_ret|].
    apply sim_bind.
    { apply Hread. intros cs cs' E. unfold has_validated. by rewrite E. }
    intros validated. destruct validated.
    { apply sim_bind; [by apply sim_interpret_validated|intros _]. apply sim_update_status. }
    apply sim_bind.
    { apply Hread. intros cs cs' E. unfold comparison_failed. by rewrite E. }
    intros failed. destruct failed.
    { apply sim_bind; [apply sim_set_status|intros _]. apply sim_update_status. }
    apply sim_bind.
    { apply Hread. intros cs cs' E. unfold no_reference. by rewrite E. }
    intros noref. destruct noref.
    { apply sim_bind; [apply sim_subscript; done|intros doc].
      apply sim_bind; [apply sim_lift|intros st].
      apply sim_bind; [apply sim_set_status|intros _]. apply sim_update_status. }
    apply sim_bind; [apply sim_set_status|intros _]. apply sim_update_status.
Qed.

Lemma sim_for_each panel l :
  (forall e, e ∈ l -> kind e = k -> side_expert e = true) ->
  sim k d (for_each l (status_iteration py_repr panel)).
Proof.
  induction l as [|e l IH]; intros Hl; simpl; [apply sim_ret|].
  apply sim_bind.
  - apply sim_iteration. apply Hl. left.
  - intros _. apply IH. intros e' He'. apply Hl. by right.
Qed.


End Sim.

(** ** The whole of [_status] *)

Section Status.
Variable py_repr : value -> string.

Lemma _status_nonempty w b :
  getattr w b <> ∅ ->
  _status py_repr w b =
    match state_status py_repr (experts b) (Frame (getattr w b) Unbound) with
    | (Returned _, fr) => identify_lead_expert w (setattr w (comp_summary fr) b)
    | (Raised e, fr) => (Raised e, setattr w (comp_summary fr) b)
    end.
Proof.
  intros Hne. apply size_pos_iff in Hne.
  unfold _status, bind, gets, with_summary. rewrite Hne.
  destruct (state_status _ _ _) as [[[]|e] fr]; reflexivity.
Qed.

Lemma state_status_eq panel cs :
  state_status py_repr panel (Frame cs Unbound)
  = for_each panel (status_iteration py_repr panel) (initial cs).
Proof. reflexivity. Qed.

(** Identifying the lead expert always returns, reads the panel and the
    configured lead only, and writes the key 'leadExpert' only. *)
Lemma identify_lead_expert_spec w b :
  exists l, identify_lead_expert w b =
    (Returned tt,
     match l with
     | Some x => setattr w (<["leadExpert" := VStr x]> (getattr w b)) (set_lead_expert l b)
     | None => b
     end)
  /\ l = match lead_expert b with
         | Some x => Some x
         | None =>
             let p := map kind (filter (fun e => side_expert e = false) (experts b)) in
             if (length p =? 1)%nat then head p else None
         end.
Proof.
  unfold identify_lead_expert, bind, gets, modify, ret.
  destruct b as [ex [x|] ts cs ct tr]; simpl.
  - exists (Some x). split; [|done]. by destruct w.
  - destruct (length _ =? 1)%nat eqn:E; simpl.
    + destruct (head _) as [x|] eqn:Hh; simpl.
      * exists (Some x). split; [|done]. by destruct w.
      * exists None. done.
    + exists None. done.
Qed.

Lemma identify_lead_expert_keys w b k :
  k <> "leadExpert" ->
  fst (identify_lead_expert w b) = Returned tt
  /\ getattr w (snd (identify_lead_expert w b)) !! k = getattr w b !! k.
Proof.
  intros Hk. destruct (identify_lead_expert_spec w b) as (l & -> & _). split; [done|].
  destruct l; simpl; [|done]. destruct w, b; simpl; by rewrite lookup_insert_ne.
Qed.

(** C1 (as amended). When the entries of the experts before the first
    one that carries '+' are well formed, and no kind is one of the keys
    'comparisonStatus' and 'leadExpert' of the summary, the aggregation
    returns, the final status is the document of that first expert, and
    no expert of the panel has an entry left in the summary. *)
Theorem plus_short_circuit_first (b : board) (w : which_summary) (l1 l2 : list expert)
    (e : expert) (d : gmap string value) :
  experts b = l1 ++ e :: l2 ->
  getattr w b !! kind e = Some (VDict d) ->
  d !! "symbol" = Some (VStr "+") ->
  (forall e' v, e' ∈ l1 -> getattr w b !! kind e' = Some v ->
     well_formed e' v = true /\ carries_plus v = false) ->
  (forall e', e' ∈ experts b ->
     kind e' <> "comparisonStatus" /\ kind e' <> "leadExpert") ->
  fst (_status py_repr w b) = Returned tt
  /\ getattr w (snd (_status py_repr w b)) !! "comparisonStatus" = Some (VDict d)
  /\ forall e', e' ∈ experts b -> getattr w (snd (_status py_repr w b)) !! kind e' = None.
Proof.
  intros Hex Hd Hs Hq Hkinds.
  assert (Hne : getattr w b <> ∅).
  { intros E. rewrite E in Hd. by rewrite lookup_empty in Hd. }
  assert (Hcs : forall e', e' ∈ experts b -> kind e' <> "comparisonStatus").
  { intros e' He'. by apply Hkinds. }
  assert (Hin : forall e', e' ∈ l1 ++ e :: l2 -> e' ∈ experts b) by (by rewrite Hex).
  assert (He : e ∈ experts b).
  { apply Hin. apply elem_of_app. right. left. }
  set (fr0 := initial (getattr w b)).
  assert (Hk0 : forall k, k <> "comparisonStatus" -> comp_summary fr0 !! k = getattr w b !! k).
  { intros k Hk. by apply initial_lookup. }
  destruct (quiet_loop py_repr (experts b) l1 fr0) as (fr1 & Hloop & Hg1 & Hkeys).
  { apply good_frame_initial. }
  { intros e' He'. apply Hcs, Hin, elem_of_app. by left. }
  { intros e' v He' Hv. rewrite Hk0 in Hv; [by apply Hq|].
    apply Hcs, Hin, elem_of_app. by left. }
  set (cs2 := <["comparisonStatus" := VDict d]> (pop_all (experts b) (comp_summary fr1))).
  assert (Hplus : status_iteration py_repr (experts b) e fr1 = (Returned tt, Frame cs2 Shared)).
  { apply plus_iteration; auto. rewrite Hkeys, Hk0; auto. }
  assert (Hpop : forall e', e' ∈ experts b -> cs2 !! kind e' = None).
  { intros e' He'. unfold cs2. rewrite lookup_insert_ne.
    - by apply pop_all_kind.
    - intros E. symmetry in E. revert E. by apply Hcs. }
  destruct (after_plus_loop py_repr (experts b) l2 (Frame cs2 Shared) d) as (bd & Hl2).
  { intros e' He'. simpl. apply Hpop, Hin, elem_of_app. right. by right. }
  { unfold cs2. simpl. by rewrite lookup_insert_eq. }
  { done. }
  simpl in Hl2.
  assert (Hrun : state_status py_repr (experts b) (Frame (getattr w b) Unbound)
                 = (Returned tt, Frame cs2 bd)).
  { rewrite state_status_eq. fold fr0. rewrite Hex at 1. rewrite for_each_app.
    unfold bind. rewrite Hloop. simpl. unfold bind. rewrite Hplus. exact Hl2. }
  rewrite (_status_nonempty w b Hne), Hrun. simpl comp_summary. cbv beta iota.
  set (b' := setattr w cs2 b).
  destruct (identify_lead_expert_keys w b' "comparisonStatus") as [Ho Hl]; [done|].
  split; [done|]. split.
  - rewrite Hl. unfold b'. rewrite getattr_setattr. unfold cs2. by rewrite lookup_insert_eq.
  - intros e' He'.
    destruct (identify_lead_expert_keys w b' (kind e')) as [_ Hl']; [by apply Hkinds|].
    rewrite Hl'. unfold b'. rewrite getattr_setattr. by apply Hpop.
Qed.

(** C3 (as amended). With a non-side expert whose document holds
    'Validated': False, no entry that carries '+', and no kind equal to
    the key 'comparisonStatus': an aggregation that returns leaves a
    status that ranks at least as high as 'KO' in [status_order]; and it
    returns whenever the entries of the experts are well formed. *)
Theorem failed_validation_ranks_at_least_KO (b : board) (w : which_summary) (e : expert)
    (d : gmap string value) :
  e ∈ experts b ->
  side_expert e = false ->
  getattr w b !! kind e = Some (VDict d) ->
  d !! "Validated" = Some (VBool false) ->
  (forall e', e' ∈ experts b -> kind e' <> "comparisonStatus") ->
  (forall e' v, e' ∈ experts b -> getattr w b !! kind e' = Some v -> carries_plus v = false) ->
  (fst (_status py_repr w b) = Returned tt ->
   exists c sym i,
     getattr w (snd (_status py_repr w b)) !! "comparisonStatus" = Some (VDict c)
     /\ c !! "symbol" = Some sym
     /\ index status_order sym = Returned i
     /\ index status_order (VStr "KO") = Returned 4
     /\ (4 <= i)%nat)
  /\ ((forall e' v, e' ∈ experts b -> getattr w b !! kind e' = Some v ->
         well_formed e' v = true) ->
      fst (_status py_repr w b) = Returned tt).
Proof.
  intros He Hside Hd HV Hkinds Hnp.
  assert (Hne : getattr w b <> ∅).
  { intros E. rewrite E in Hd. by rewrite lookup_empty in Hd. }
  rewrite (_status_nonempty w b Hne), state_status_eq.
  set (fr0 := initial (getattr w b)).
  assert (Hk0 : forall k, k <> "comparisonStatus" -> comp_summary fr0 !! k = getattr w b !! k).
  { intros k Hk. by apply initial_lookup. }
  split.
  - destruct (for_each _ _ fr0) as [[[]|ex] fr'] eqn:Hloop; [|discriminate]. intros _.
    destruct (rank_good fr0 (good_frame_initial _)) as (j & Hj).
    destruct (mono_loop py_repr (experts b) (experts b) fr0 fr' j) as (i & Hi & _ & Hko); auto.
    { intros e' v He' Hv. rewrite Hk0 in Hv by auto. by apply (Hnp e' v). }
    assert (H4 : (4 <= i)%nat).
    { apply (Hko e d); auto. rewrite Hk0 by auto. done. }
    destruct (identify_lead_expert_keys w (setattr w (comp_summary fr') b) "comparisonStatus")
      as [_ Hl]; [done|].
    rewrite Hl, getattr_setattr.
    apply rank_inv in Hi as (c & sym & Hc & Hs & Hidx).
    exists c, sym, i. repeat split; auto.
  - intros Hwf.
    destruct (quiet_loop py_repr (experts b) (experts b) fr0) as (fr' & Hloop & _ & _).
    { apply good_frame_initial. }
    { done. }
    { intros e' v He' Hv. rewrite Hk0 in Hv by auto. split; eauto. }
    rewrite Hloop.
    by destruct (identify_lead_expert_keys w (setattr w (comp_summary fr') b) "comparisonStatus").
Qed.

(** C7 (as amended). Removing the document of a side expert, when that
    document is a dict that does not carry '+', when every expert of its
    kind is a side expert, and when the summary is not left empty,
    changes neither what the aggregation returns or raises nor the final
    status. *)
Theorem side_expert_never_drives (b : board) (w : which_summary) (s : expert)
    (d : gmap string value) :
  s ∈ experts b ->
  (forall e, e ∈ experts b -> kind e = kind s -> side_expert e = true) ->
  getattr w b !! kind s = Some (VDict d) ->
  d !! "symbol" <> Some (VStr "+") ->
  delete (kind s) (getattr w b) <> ∅ ->
  let without := setattr w (delete (kind s) (getattr w b)) b in
  fst (_status py_repr w without) = fst (_status py_repr w b)
  /\ getattr w (snd (_status py_repr w without)) !! "comparisonStatus"
     = getattr w (snd (_status py_repr w b)) !! "comparisonStatus".
Proof.
  intros Hin Hside Hdoc Hplus Hne without.
  assert (Hne1 : getattr w b <> ∅).
  { intros E. rewrite E in Hdoc. by rewrite lookup_empty in Hdoc. }
  rewrite !_status_nonempty by (unfold without; rewrite ?getattr_setattr; done).
  unfold without. rewrite getattr_setattr, experts_setattr.
  set (body := state_status py_repr (experts b)).
  destruct (decide (kind s = "comparisonStatus")) as [Hk|Hk].
  - (* the default status overwrites the entry: the two runs coincide *)
    assert (E : body (Frame (delete (kind s) (getattr w b)) Unbound)
              = body (Frame (getattr w b) Unbound)).
    { unfold body, state_status, bind, modify, set_comp_summary. simpl.
      rewrite Hk. by rewrite insert_delete_eq. }
    rewrite E. clear E.
    destruct (body (Frame (getattr w b) Unbound)) as [[[]|e] fr]; simpl.
    + rewrite setattr_setattr. done.
    + rewrite !getattr_setattr. done.
  - assert (Hsim : sim (kind s) d body).
    { unfold body, state_status. apply sim_bind; [by apply sim_set_result|intros _].
      apply sim_for_each; auto. }
    destruct (Hsim (Frame (getattr w b) Unbound) (Frame (delete (kind s) (getattr w b)) Unbound))
      as [Ho (Hcs & _ & _)].
    { repeat split; simpl; auto. }
    destruct (body (Frame (getattr w b) Unbound)) as [o1 fr1].
    destruct (body (Frame (delete (kind s) (getattr w b)) Unbound)) as [o2 fr2].
    simpl in *. subst o2. destruct o1 as [[]|e]; simpl.
    + rewrite setattr_setattr.
      destruct (identify_lead_expert_spec w (setattr w (comp_summary fr1) b)) as (l1 & -> & Hl1).
      destruct (identify_lead_expert_spec w (setattr w (comp_summary fr2) b)) as (l2 & -> & Hl2).
      rewrite experts_setattr, lead_expert_setattr in Hl1, Hl2. subst l2. rewrite <- Hl1.
      split; [done|]. simpl. destruct l1; simpl.
      * destruct w, b; simpl in *; rewrite !lookup_insert_ne by done;
          rewrite Hcs; by rewrite lookup_delete_ne.
      * rewrite !getattr_setattr. rewrite Hcs. by rewrite lookup_delete_ne.
    + rewrite !getattr_setattr. split; [done|].
      rewrite Hcs. by rewrite lookup_delete_ne.
Qed.

End Status.

(** ** The aggregation on sample boards *)

Example agreeing_validations_are_gathered :
  status_symbol (continuity (snd (_status Samples.sample_repr continuity_ Samples.ok_and_ok)))
  = Some (VStr "OK")
  /\ status_text (continuity (snd (_status Samples.sample_repr continuity_ Samples.ok_and_ok)))
     = Some (VStr ("Success: " +:+ dquote +:+ "norms are identical" +:+ dquote +:+ " | "
                   +:+ "Success: " +:+ dquote +:+ "norms are identical" +:+ dquote)).
Proof. vm_compute. auto. Qed.

Example a_failed_validation_outranks_a_success :
  status_symbol (continuity (snd (_status Samples.sample_repr continuity_
                                       Samples.ok_and_failed)))
  = Some (VStr "KO")
  /\ lead_expert (snd (_status Samples.sample_repr continuity_ Samples.ok_and_failed)) = None.
Proof. vm_compute. auto. Qed.

Example the_single_candidate_becomes_lead :
  lead_expert (snd (_status Samples.sample_repr continuity_ Samples.side_failed))
  = Some "norms"
  /\ continuity (snd (_status Samples.sample_repr continuity_ Samples.side_failed))
       !! "leadExpert" = Some (VStr "norms").
Proof. vm_compute. auto. Qed.

(** An unstated validation re-uses the status of the expert before it,
    which is the very object the summary holds: each re-use doubles the
    text. *)
Example an_unstated_validation_reuses_the_status :
  fst (_status Samples.sample_repr continuity_ Samples.ok_then_unstated) = Returned tt
  /\ status_text (continuity (snd (_status Samples.sample_repr continuity_
                                      Samples.ok_then_unstated)))
     = Some (VStr ("Success: " +:+ dquote +:+ "norms are identical" +:+ dquote +:+ " | "
                   +:+ "Success: " +:+ dquote +:+ "norms are identical" +:+ dquote +:+ " | "
                   +:+ "Success: " +:+ dquote +:+ "norms are identical" +:+ dquote +:+ " | "
                   +:+ "Success: " +:+ dquote +:+ "norms are identical" +:+ dquote)).
Proof. vm_compute. auto. Qed.

(** C1, as stated, fails for the second of two experts that both carry
    '+': the aggregation returns, and the final status holds the text of
    the first one, which is not the text of the second. *)
Lemma plus_short_circuit_keeps_the_first_only :
  carries_plus (VDict (Samples.crashed "fields: reference crashed")) = true
  /\ continuity Samples.two_crashed !! "fields_in_file"
     = Some (VDict (Samples.crashed "fields: reference crashed"))
  /\ fst (_status Samples.sample_repr continuity_ Samples.two_crashed) = Returned tt
  /\ status_text (continuity (snd (_status Samples.sample_repr continuity_ Samples.two_crashed)))
     = Some (VStr "norms: reference crashed")
  /\ Samples.crashed "fields: reference crashed" !! "text"
     = Some (VStr "fields: reference crashed").
Proof. vm_compute. auto. Qed.

Lemma plus_short_circuit_first_witness :
  fst (_status Samples.sample_repr continuity_ Samples.ok_then_crashed) = Returned tt
  /\ continuity (snd (_status Samples.sample_repr continuity_ Samples.ok_then_crashed))
       !! "comparisonStatus"
     = Some (VDict (Samples.crashed "fields: reference crashed"))
  /\ forall e', e' ∈ experts Samples.ok_then_crashed ->
       continuity (snd (_status Samples.sample_repr continuity_ Samples.ok_then_crashed))
         !! kind e' = None.
Proof.
  apply (plus_short_circuit_first Samples.sample_repr Samples.ok_then_crashed continuity_
           [Samples.an_expert "norms" false] [] (Samples.an_expert "fields_in_file" false)
           (Samples.crashed "fields: reference crashed")).
  - reflexivity.
  - vm_compute. reflexivity.
  - vm_compute. reflexivity.
  - intros e' v He' Hv. apply list_elem_of_singleton in He'. subst e'.
    vm_compute in Hv. injection Hv as <-. vm_compute. auto.
  - intros e' He'. apply elem_of_cons in He' as [->|He'].
    + split; discriminate.
    + apply list_elem_of_singleton in He'. subst e'. split; discriminate.
Defined.

(** C2 fails: with a lone expert whose 'Validated' is [None], neither
    branch binds [status], and the update raises. *)
Theorem unstated_validation_raises :
  fst (_status Samples.sample_repr continuity_ Samples.unstated)
  = Raised (UnboundLocalError "status").
Proof. vm_compute. reflexivity. Qed.

(** C3, as stated, fails for a document that holds 'Validated': False
    and no 'Validated means': the aggregation raises, and the summary is
    left with the default status '-'. *)
Lemma failed_validation_without_means_raises :
  fst (_status Samples.sample_repr continuity_ Samples.failed_without_means)
  = Raised (KeyError "Validated means")
  /\ status_symbol (continuity (snd (_status Samples.sample_repr continuity_
                                       Samples.failed_without_means)))
     = Some (VStr "-")
  /\ index status_order (VStr "-") = Returned 0
  /\ index status_order (VStr "KO") = Returned 4.
Proof. vm_compute. auto. Qed.

Lemma failed_validation_ranks_at_least_KO_witness :
  (fst (_status Samples.sample_repr continuity_ Samples.ok_and_failed) = Returned tt ->
   exists c sym i,
     continuity (snd (_status Samples.sample_repr continuity_ Samples.ok_and_failed))
       !! "comparisonStatus" = Some (VDict c)
     /\ c !! "symbol" = Some sym
     /\ index status_order sym = Returned i
     /\ index status_order (VStr "KO") = Returned 4
     /\ (4 <= i)%nat)
  /\ ((forall e' v, e' ∈ experts Samples.ok_and_failed ->
         continuity Samples.ok_and_failed !! kind e' = Some v -> well_formed e' v = true) ->
      fst (_status Samples.sample_repr continuity_ Samples.ok_and_failed) = Returned tt).
Proof.
  apply (failed_validation_ranks_at_least_KO Samples.sample_repr Samples.ok_and_failed
           continuity_ (Samples.an_expert "fields_in_file" false) (Samples.validated false)).
  - right. left.
  - reflexivity.
  - vm_compute. reflexivity.
  - vm_compute. reflexivity.
  - intros e' He'. apply elem_of_cons in He' as [->|He'].
    + discriminate.
    + apply list_elem_of_singleton in He'. subst e'. discriminate.
  - intros e' v He' Hv. apply elem_of_cons in He' as [->|He'].
    + vm_compute in Hv. injection Hv as <-. vm_compute. reflexivity.
    + apply list_elem_of_singleton in He'. subst e'.
      vm_compute in Hv. injection Hv as <-. vm_compute. reflexivity.
Defined.

(** C7, as stated, fails for a side expert whose document carries '+':
    with it the final status is '+', without it 'OK'. *)
Lemma side_expert_with_crashed_reference_drives :
  side_expert (Samples.an_expert "drhook" true) = true
  /\ status_symbol (continuity (snd (_status Samples.sample_repr continuity_
                                       Samples.side_crashed)))
     = Some (VStr "+")
  /\ status_symbol (continuity (snd (_status Samples.sample_repr continuity_
       (setattr continuity_ (delete "drhook" (continuity Samples.side_crashed))
                Samples.side_crashed))))
     = Some (VStr "OK").
Proof. vm_compute. auto. Qed.

(** Nor does it hold when the side expert's document is the only entry:
    with it the status is '-', without it the summary is empty and the
    status is '0'. *)
Lemma lone_side_expert_changes_the_status :
  status_symbol (continuity (snd (_status Samples.sample_repr continuity_ Samples.side_alone)))
  = Some (VStr "-")
  /\ status_symbol (continuity (snd (_status Samples.sample_repr continuity_
       (setattr continuity_ (delete "drhook" (continuity Samples.side_alone))
                Samples.side_alone))))
     = Some (VStr "0").
Proof. vm_compute. auto. Qed.

Lemma side_expert_never_drives_witness :
  fst (_status Samples.sample_repr continuity_
         (setattr continuity_ (delete "drhook" (continuity Samples.side_failed))
                  Samples.side_failed))
  = fst (_status Samples.sample_repr continuity_ Samples.side_failed)
  /\ continuity (snd (_status Samples.sample_repr continuity_
         (setattr continuity_ (delete "drhook" (continuity Samples.side_failed))
                  Samples.side_failed))) !! "comparisonStatus"
     = continuity (snd (_status Samples.sample_repr continuity_ Samples.side_failed))
         !! "comparisonStatus".
Proof.
  apply (side_expert_never_drives Samples.sample_repr Samples.side_failed continuity_
           (Samples.an_expert "drhook" true) (Samples.validated false)).
  - right. left.
  - intros e He Hk. apply elem_of_cons in He as [->|He].
    + discriminate.
    + apply list_elem_of_singleton in He. subst e. reflexivity.
  - vm_compute. reflexivity.
  - vm_compute. discriminate.
  - intros E. apply (f_equal (fun m : gmap string value => m !! "norms")) in E.
    vm_compute in E. discriminate.
Defined.

(** ** [process] without reference *)

Section Process.
Variable py_repr : value -> string.

Lemma parse_only_refl b : parse_only b b.
Proof. repeat split. exists []. by rewrite app_nil_r. Qed.

Lemma parse_only_trans b1 b2 b3 : parse_only b1 b2 -> parse_only b2 b3 -> parse_only b1 b3.
Proof.
  intros (E1 & C1 & K1 & evs1 & T1 & F1) (E2 & C2 & K2 & evs2 & T2 & F2).
  repeat split; try congruence. exists (evs1 ++ evs2). split.
  - rewrite T2, T1. by rewrite app_assoc.
  - by apply Forall_app.
Qed.

Lemma parse_only_log ev b : is_compare ev = false -> parse_only b (log ev b).
Proof. intros H. repeat split. exists [ev]. split; [done|]. by constructor. Qed.

Lemma parse_only_task b d : parse_only b (set_task_summary d b).
Proof. repeat split. exists []. by rewrite app_nil_r. Qed.

Lemma parse_expert_spec e b :
  parse_expert e b
  = match parse_ e with
    | Returned d =>
        (Returned tt,
         set_task_summary (<[kind e := d]> (task_summary b)) (log (ExpertParse (kind e)) b))
    | Raised x => (Raised x, log (ExpertParse (kind e)) b)
    end.
Proof. unfold parse_expert, bind, modify, lift. by destruct (parse_ e). Qed.

(** The loop of [parse] returns exactly when every [parse()] does. *)
Lemma parse_loop l b :
  returns (fst (for_each l parse_expert b)) = parses l
  /\ parse_only b (snd (for_each l parse_expert b)).
Proof.
  revert b. induction l as [|e l IH]; intros b; simpl.
  - split; [done|apply parse_only_refl].
  - unfold bind. rewrite parse_expert_spec. destruct (parse_ e) as [d|x]; simpl.
    + set (b1 := set_task_summary _ _).
      destruct (IH b1) as [IH1 IH2]. split; [done|].
      eapply parse_only_trans; [|exact IH2].
      eapply parse_only_trans; [apply (parse_only_log (ExpertParse (kind e))); done|].
      apply parse_only_task.
    + split; [done|]. by apply (parse_only_log (ExpertParse (kind e))).
Qed.

Lemma parse_spec b :
  returns (fst (parse b)) = parses (experts b) /\ parse_only b (snd (parse b)).
Proof.
  unfold parse, bind, modify, gets, dump_summary, modify.
  destruct (parse_loop (experts b) (log (Call "parse") b)) as [H1 H2].
  change (experts (log (Call "parse") b)) with (experts b).
  destruct (for_each (experts b) parse_expert (log (Call "parse") b)) as [[[]|ex] b1];
    simpl in *; (split; [done|]);
    (eapply parse_only_trans; [apply (parse_only_log (Call "parse")); done|]).
  - eapply parse_only_trans; [exact H2|]. by apply (parse_only_log (Dump _ _)).
  - exact H2.
Qed.


End Process.



Section Verdicts.
Variable py_repr : value -> string.

(** *** What the loop leaves alone *)

Lemma update_status_rank fr fr' j :
  update_status fr = (Returned tt, fr') ->
  rank (comp_summary fr) = Some j ->
  forall v, status fr = Own v ->
    rank (comp_summary fr') = Some (Nat.max j (severity v)).
Proof.
  unfold update_status. intros H Hj v Hv.
  apply bind_returned in H as (st & fr1 & Hst & H).
  unfold read_status in Hst. rewrite Hv in Hst. injection Hst as <- <-.
  apply bind_returned in H as (sym & fr1 & Hsym & H). apply lift_returned in Hsym as [Hsym ->].
  apply bind_returned in H as (i & fr1 & Hi & H). apply lift_returned in Hi as [Hi ->].
  apply bind_returned in H as (cur & fr1 & Hcur & H). apply read_returned in Hcur as [Hcur ->].
  apply subscript_returned in Hcur.
  apply bind_returned in H as (cur_sym & fr1 & Hcs & H). apply lift_returned in Hcs as [Hcs ->].
  apply bind_returned in H as (j' & fr1 & Hj' & H). apply lift_returned in Hj' as [Hj' ->].
  assert (j' = j) as ->.
  { unfold rank, symbol_rank in Hj. rewrite Hcur, Hcs, Hj' in Hj. by injection Hj. }
  assert (Hsev : severity v = i).
  { unfold severity, symbol_rank. rewrite Hsym, Hi. done. }
  rewrite Hsev.
  destruct (j <=? i)%nat eqn:Hji.
  - apply Nat.leb_le in Hji. rewrite Nat.max_r by done.
    destruct (eq_symbols sym cur_sym && (eq_str sym "OK" || eq_str sym "KO")) eqn:Hg.
    + apply bind_returned in H as (old & fr1 & Hold & H). apply lift_returned in Hold as [Hold ->].
      apply bind_returned in H as (txt & fr1 & Htxt & H). apply lift_returned in Htxt as [Htxt ->].
      apply bind_returned in H as (sep & fr1 & Hsep & H). apply lift_returned in Hsep as [Hsep ->].
      apply bind_returned in H as (new & fr1 & Hnew & H). apply lift_returned in Hnew as [Hnew ->].
      destruct cur as [| | | | |c]; try discriminate.
      apply modify_returned in H. subst fr'. simpl.
      assert (i = j) as ->.
      { apply andb_true_iff in Hg as [Hg _].
        destruct sym, cur_sym; try discriminate. apply String.eqb_eq in Hg. subst.
        rewrite Hi in Hj'. by injection Hj'. }
      unfold rank, symbol_rank. rewrite lookup_insert_eq.
      unfold getitem, subscript in *. rewrite lookup_insert_ne by done.
      destruct (c !! "symbol"); [|done]. injection Hcs as ->. rewrite Hj'. done.
    + apply bind_returned in H as ([] & fr1 & H1 & H).
      apply modify_returned in H1. apply modify_returned in H. subst. simpl.
      unfold rank, symbol_rank. rewrite lookup_insert_eq. rewrite Hsym, Hi. done.
  - apply Nat.leb_gt in Hji. apply ret_returned in H as [_ ->].
    rewrite Nat.max_l by lia. done.
Qed.


(** *** A run as a relation between its ends *)

Lemma preserves_bind {S A B} (R : S -> S -> Prop) `{!Transitive R}
    (m : M S A) (k : A -> M S B) :
  preserves R m -> (forall a, preserves R (k a)) -> preserves R (bind m k).
Proof.
  intros Hm Hk s. unfold bind. specialize (Hm s).
  destruct (m s) as [[a|e] s1]; simpl in *; [|done].
  etransitivity; [exact Hm|apply Hk].
Qed.

Lemma preserves_for_each {S A} (R : S -> S -> Prop) `{!Reflexive R} `{!Transitive R}
    (l : list A) (body : A -> M S unit) :
  (forall a, a ∈ l -> preserves R (body a)) -> preserves R (for_each l body).
Proof.
  induction l as [|a l IH]; intros Hb; simpl.
  - intros s. simpl. reflexivity.
  - apply preserves_bind; [done|apply Hb; left|].
    intros _. apply IH. intros a' Ha'. apply Hb. by right.
Qed.

Lemma preserves_pure {S A} (R : S -> S -> Prop) `{!Reflexive R} (o : S -> outcome A) :
  preserves R (fun s => (o s, s)).
Proof. intros s. simpl. reflexivity. Qed.

#[local] Instance apart_refl w : Reflexive (apart w).
Proof. intros b. unfold apart. by destruct w. Qed.

#[local] Instance apart_trans w : Transitive (apart w).
Proof.
  intros b1 b2 b3 (H1 & H2 & H3 & H4) (H1' & H2' & H3' & H4'). unfold apart.
  rewrite H1', H2', H3'. repeat split; try done. destruct w; congruence.
Qed.

Lemma apart_setattr w d b : apart w b (setattr w d b).
Proof. unfold apart. by destruct w, b. Qed.

Lemma apart_set_lead w l b : apart w b (set_lead_expert l b).
Proof. unfold apart. by destruct w, b. Qed.

Lemma _status_apart w : preserves (apart w) (_status py_repr w).
Proof.
  unfold _status.
  apply preserves_bind; [apply _|apply (preserves_pure (apart w))|intros comp].
  destruct (0 <? size comp)%nat.
  - apply preserves_bind; [apply _|apply (preserves_pure (apart w))|intros panel].
    apply preserves_bind; [apply _| |intros _].
    + intros b. unfold with_summary. destruct (state_status _ _ _) as [o fr]. simpl.
      apply apart_setattr.
    + intros b. destruct (identify_lead_expert_spec w b) as (l & -> & _). simpl.
      destruct l; [|reflexivity].
      etransitivity; [apply (apart_set_lead w (Some s))|apply apart_setattr].
  - intros b. unfold _notify_no_ref_resource, modify. simpl. apply apart_setattr.
Qed.


(** *** The lead expert *)

Lemma with_summary_attrs {A} w (m : M frame A) b :
  experts (snd (with_summary w m b)) = experts b
  /\ lead_expert (snd (with_summary w m b)) = lead_expert b.
Proof.
  unfold with_summary. destruct (m _) as [o fr]. simpl.
  by rewrite experts_setattr, lead_expert_setattr.
Qed.

Lemma chosen_lead_eq b :
  match lead_expert b with
  | Some x => Some x
  | None =>
      let p := map kind (filter (fun e => side_expert e = false) (experts b)) in
      if (length p =? 1)%nat then head p else None
  end = chosen_lead b.
Proof.
  unfold chosen_lead, stating. destruct (lead_expert b); [done|]. simpl.
  destruct (filter _ (experts b)) as [|e [|e' l]]; done.
Qed.

(** X3: when [_status] returns on a summary that is not empty, the lead
    expert of the board is the configured one or, without one, the only
    expert of the panel that is not a side expert; when there is one, it
    is written under 'leadExpert' of the summary. *)
Theorem lead_expert_is_settled (w : which_summary) (b : board) :
  getattr w b <> ∅ ->
  fst (_status py_repr w b) = Returned tt ->
  lead_expert (snd (_status py_repr w b)) = chosen_lead b
  /\ forall x, chosen_lead b = Some x ->
       getattr w (snd (_status py_repr w b)) !! "leadExpert" = Some (VStr x).
Proof.
  intros Hne. rewrite (_status_nonempty py_repr w b Hne).
  destruct (state_status _ _ _) as [[[]|e] fr]; [|discriminate]. intros _.
  set (b1 := setattr w (comp_summary fr) b).
  destruct (identify_lead_expert_spec w b1) as (l & -> & Hl).
  rewrite chosen_lead_eq in Hl.
  assert (Hc : chosen_lead b1 = chosen_lead b).
  { unfold chosen_lead, b1. by rewrite lead_expert_setattr, experts_setattr. }
  rewrite Hc in Hl. rewrite <- Hl. destruct l as [x|]; simpl.
  - split.
    + rewrite lead_expert_setattr. by destruct b1.
    + intros y [= <-]. rewrite getattr_setattr. by rewrite lookup_insert_eq.
  - split; [|done]. unfold chosen_lead in Hl. unfold b1. rewrite lead_expert_setattr.
    destruct (lead_expert b); [discriminate|done].
Qed.


(** *** The default status *)

Lemma severity_mk sym short text i :
  index status_order (VStr sym) = Returned i -> severity (mk_status sym short text) = i.
Proof.
  intros H. unfold severity, symbol_rank, mk_status, getitem, subscript.
  rewrite lookup_insert_eq. by rewrite H.
Qed.

Lemma update_status_binding fr fr' :
  update_status fr = (Returned tt, fr') ->
  status fr <> Unbound /\ (status fr' = status fr \/ status fr' = Shared).
Proof.
  unfold update_status. intros H.
  apply bind_returned in H as (st & fr1 & Hst & H).
  assert (fr1 = fr /\ status fr <> Unbound) as [-> Hb].
  { unfold read_status in Hst. destruct (status fr) as [| |v]; [discriminate| |].
    - injection Hst as _ <-. auto.
    - injection Hst as -> <-. auto. }
  split; [done|].
  apply bind_returned in H as (sym & fr1 & Hsym & H). apply lift_returned in Hsym as [Hsym ->].
  apply bind_returned in H as (i & fr1 & Hi & H). apply lift_returned in Hi as [Hi ->].
  apply bind_returned in H as (cur & fr1 & Hcur & H). apply read_returned in Hcur as [Hcur ->].
  apply bind_returned in H as (cur_sym & fr1 & Hcs & H). apply lift_returned in Hcs as [Hcs ->].
  apply bind_returned in H as (j & fr1 & Hj & H). apply lift_returned in Hj as [Hj ->].
  destruct (j <=? i)%nat.
  - destruct (eq_symbols sym cur_sym && (eq_str sym "OK" || eq_str sym "KO")).
    + apply bind_returned in H as (old & fr1 & Hold & H). apply lift_returned in Hold as [Hold ->].
      apply bind_returned in H as (txt & fr1 & Htxt & H). apply lift_returned in Htxt as [Htxt ->].
      apply bind_returned in H as (sep & fr1 & Hsep & H). apply lift_returned in Hsep as [Hsep ->].
      apply bind_returned in H as (new & fr1 & Hnew & H). apply lift_returned in Hnew as [Hnew ->].
      destruct cur as [| | | | |c]; try discriminate.
      apply modify_returned in H. subst fr'. auto.
    + apply bind_returned in H as ([] & fr1 & H1 & H).
      apply modify_returned in H1. apply modify_returned in H. subst. auto.
  - apply ret_returned in H as [_ ->]. auto.
Qed.

(** What an iteration that returns has done: nothing, for a side expert,
    or one update, of the status it found or of a status of its own. *)
Lemma iteration_update panel e fr fr' :
  status_iteration py_repr panel e fr = (Returned tt, fr') ->
  (side_expert e = true /\ fr' = fr)
  \/ exists fr1, update_status fr1 = (Returned tt, fr')
       /\ ((status fr1 = status fr /\ comp_summary fr1 = comp_summary fr)
           \/ exists v, status fr1 = Own v /\ (1 <= severity v)%nat).
Proof.
  intros H. unfold status_iteration in H.
  apply bind_returned in H as (crashed & fr1 & Hc & H).
  apply read_returned in Hc as [Hc ->].
  destruct crashed.
  { right.
    apply bind_returned in H as (doc & fr1 & Hdoc & H). apply read_returned in Hdoc as [Hdoc ->].
    apply subscript_returned in Hdoc.
    apply bind_returned in H as ([] & fr1 & H1 & H). apply modify_returned in H1. subst fr1.
    apply bind_returned in H as ([] & fr1 & H1 & H). apply modify_returned in H1. subst fr1.
    eexists. split; [exact H|]. right. exists doc. split; [done|].
    unfold reference_crashed in Hc. rewrite Hdoc in Hc.
    destruct doc as [| | | | |d]; try discriminate. simpl in Hc.
    destruct (d !! "symbol") as [[| | |s| |]|] eqn:Es; try discriminate.
    simpl in Hc. injection Hc as Hc. apply String.eqb_eq in Hc. subst s.
    unfold severity, symbol_rank, getitem, subscript. rewrite Es.
    replace (index status_order (VStr "+")) with (Returned (A:=nat) 6) by (vm_compute; reflexivity).
    simpl. lia. }
  destruct (side_expert e) eqn:Hside.
  { apply ret_returned in H as [_ ->]. auto. }
  right.
  apply bind_returned in H as (validated & fr1 & Hv & H).
  apply read_returned in Hv as [Hv ->].
  destruct validated.
  { apply bind_returned in H as ([] & fr1 & Hi & H).
    exists fr1. split; [exact H|]. unfold interpret_validated in Hi.
    apply bind_returned in Hi as (doc & fr2 & Hdoc & Hi). apply read_returned in Hdoc as [Hdoc ->].
    apply bind_returned in Hi as (v & fr2 & Hval & Hi). apply lift_returned in Hval as [Hval ->].
    destruct (is_True v).
    { apply bind_returned in Hi as (means & fr2 & Hm & Hi). apply lift_returned in Hm as [Hm ->].
      apply modify_returned in Hi. subst fr1. right. eexists. split; [reflexivity|].
      rewrite (severity_mk "OK" _ _ 3) by (vm_compute; reflexivity). lia. }
    destruct (is_False v).
    { apply bind_returned in Hi as (means & fr2 & Hm & Hi). apply lift_returned in Hm as [Hm ->].
      apply modify_returned in Hi. subst fr1. right. eexists. split; [reflexivity|].
      rewrite (severity_mk "KO" _ _ 4) by (vm_compute; reflexivity). lia. }
    apply ret_returned in Hi as [_ ->]. auto. }
  apply bind_returned in H as (failed & fr1 & Hf & H).
  apply read_returned in Hf as [Hf ->].
  destruct failed.
  { apply bind_returned in H as ([] & fr1 & Hm & H). apply modify_returned in Hm. subst fr1.
    eexists. split; [exact H|]. right. eexists. split; [reflexivity|].
    rewrite (severity_mk "!" _ _ 5) by (vm_compute; reflexivity). lia. }
  apply bind_returned in H as (noref & fr1 & Hn & H).
  apply read_returned in Hn as [Hn ->].
  destruct noref.
  { apply bind_returned in H as (doc & fr1 & Hdoc & H). apply read_returned in Hdoc as [Hdoc ->].
    apply subscript_returned in Hdoc.
    apply bind_returned in H as (st & fr1 & Hst & H). apply lift_returned in Hst as [Hst ->].
    apply bind_returned in H as ([] & fr1 & Hm & H). apply modify_returned in Hm. subst fr1.
    eexists. split; [exact H|]. right. exists st. split; [done|].
    unfold no_reference in Hn. rewrite Hdoc in Hn.
    destruct doc as [| | | | |d]; try discriminate. simpl in Hn, Hst.
    injection Hst as <-.
    destruct (d !! "comparisonStatus") as [[| | | | |n]|] eqn:En; try discriminate.
    simpl in Hn. destruct (n !! "symbol") as [[| | |s| |]|] eqn:Es; try discriminate.
    simpl in Hn. injection Hn as Hn. apply String.eqb_eq in Hn. subst s.
    unfold severity, symbol_rank, getitem, subscript. rewrite Es.
    replace (index status_order (VStr "0")) with (Returned (A:=nat) 1) by (vm_compute; reflexivity).
    simpl. lia. }
  apply bind_returned in H as ([] & fr1 & Hm & H). apply modify_returned in Hm. subst fr1.
  eexists. split; [exact H|]. right. eexists. split; [reflexivity|].
  rewrite (severity_mk "?" _ _ 2) by (vm_compute; reflexivity). lia.
Qed.


Lemma severity_rank v i : symbol_rank v = Some i -> severity v = i.
Proof. unfold severity. by intros ->. Qed.

Lemma iteration_stated panel e fr fr' :
  status_iteration py_repr panel e fr = (Returned tt, fr') ->
  stated fr ->
  stated fr' /\ (status fr <> Unbound \/ side_expert e = false -> status fr' <> Unbound).
Proof.
  intros H HJ. destruct (iteration_update panel e fr fr' H) as [[Hside ->]|(fr1 & Hup & Hfr1)].
  { split; [done|]. intros [Hb|Hs]; [done|congruence]. }
  destruct (update_status_binding _ _ Hup) as [Hb Hst].
  apply update_status_mono in Hup as (j & i & Hj & Hi & Hle & Hown & _).
  assert (Hb' : status fr' <> Unbound).
  { destruct Hst as [E|E]; rewrite E; [done|discriminate]. }
  split; [|done]. right.
  destruct Hfr1 as [[Es Ec]|(v & Ev & Hv)].
  - rewrite Es in Hb. destruct HJ as [HJ|[(i0 & Hi0 & Hle0) HJ]]; [done|].
    rewrite Ec, Hi0 in Hj. injection Hj as <-. split; [exists i; split; [done|lia]|].
    intros v Hv. apply HJ. destruct Hst as [E|E]; rewrite E in Hv; [|discriminate].
    by rewrite <- Es.
  - destruct (Hown v Ev) as (iv & Hiv & Hle'). apply severity_rank in Hiv.
    split; [exists i; split; [done|lia]|].
    intros v' Hv'. destruct Hst as [E|E]; rewrite E in Hv'; [|discriminate].
    rewrite Ev in Hv'. by injection Hv' as <-.
Qed.

Lemma loop_stated panel l fr fr' :
  for_each l (status_iteration py_repr panel) fr = (Returned tt, fr') ->
  stated fr ->
  stated fr'
  /\ (status fr <> Unbound \/ (exists e, e ∈ l /\ side_expert e = false) ->
      status fr' <> Unbound).
Proof.
  revert fr. induction l as [|e l IH]; intros fr H HJ; simpl in H.
  - apply ret_returned in H as [_ ->]. split; [done|].
    intros [Hb|(e & He & _)]; [done|]. by apply elem_of_nil in He.
  - apply bind_returned in H as ([] & fr1 & H1 & H).
    destruct (iteration_stated panel e fr fr1 H1 HJ) as [HJ1 Hb1].
    destruct (IH fr1 H HJ1) as [HJ' Hb']. split; [done|].
    intros [Hb|(e' & He' & Hs)].
    + apply Hb'. left. apply Hb1. by left.
    + apply elem_of_cons in He' as [->|He'].
      * apply Hb'. left. apply Hb1. by right.
      * apply Hb'. right. eauto.
Qed.

(** X4: whenever [_status] returns on a summary that is not empty, for a
    panel with an expert that is not a side expert, the status it leaves
    ranks above the default one, '-'. *)
Theorem default_status_means_nobody_states (w : which_summary) (b : board) :
  getattr w b <> ∅ ->
  stating (experts b) <> [] ->
  fst (_status py_repr w b) = Returned tt ->
  exists i, rank (getattr w (snd (_status py_repr w b))) = Some i /\ (1 <= i)%nat.
Proof.
  intros Hne Hst. rewrite (_status_nonempty py_repr w b Hne). rewrite state_status_eq.
  destruct (for_each _ _ _) as [[[]|e] fr] eqn:Hloop; [|discriminate]. intros _.
  destruct (loop_stated _ _ _ _ Hloop) as [HJ Hb].
  { by left. }
  destruct HJ as [HJ|[(i & Hi & Hle) _]].
  { exfalso. apply Hb; [|done]. right.
    destruct (stating (experts b)) as [|e l] eqn:E; [done|].
    exists e. apply and_comm.
    apply (list_elem_of_filter (fun e => side_expert e = false) (experts b) e).
    unfold stating in E. rewrite E. left. }
  exists i. split; [|done].
  unfold rank. destruct (identify_lead_expert_keys w (setattr w (comp_summary fr) b)
                           "comparisonStatus") as [_ ->]; [done|].
  by rewrite getattr_setattr.
Qed.

(** X5: with a panel of side experts only, whose entries are well formed
    and do not carry '+', [_status] returns and leaves the default
    status, 'No expert available'. *)
Theorem side_experts_alone_leave_the_default (w : which_summary) (b : board) :
  getattr w b <> ∅ ->
  (forall e, e ∈ experts b -> side_expert e = true) ->
  (forall e v, e ∈ experts b -> getattr w b !! kind e = Some v ->
     well_formed e v = true /\ carries_plus v = false) ->
  fst (_status py_repr w b) = Returned tt
  /\ getattr w (snd (_status py_repr w b)) !! "comparisonStatus"
     = Some (mk_status "-" "- No expert -" "No expert available").
Proof.
  intros Hne Hside Hdocs. rewrite (_status_nonempty py_repr w b Hne). rewrite state_status_eq.
  assert (Hloop : forall l, (forall e, e ∈ l -> e ∈ experts b) ->
            for_each l (status_iteration py_repr (experts b)) (initial (getattr w b))
            = (Returned tt, initial (getattr w b))).
  { induction l as [|e l IH]; intros Hl; simpl; [done|].
    assert (He : e ∈ experts b) by (apply Hl; left).
    assert (H1 : status_iteration py_repr (experts b) e (initial (getattr w b))
                 = (Returned tt, initial (getattr w b))).
    { unfold status_iteration, bind at 1, reference_crashed. rewrite (Hside e He).
      destruct (decide (kind e = "comparisonStatus")) as [Hk|Hk].
      - rewrite Hk. simpl. rewrite lookup_insert_eq. vm_compute. reflexivity.
      - rewrite initial_lookup by done.
        destruct (getattr w b !! kind e) as [v|] eqn:E; [|done].
        destruct (Hdocs e v He E) as [Hwf Hnp].
        destruct v as [| | | | |d]; try discriminate. simpl in Hnp.
        unfold get, get_default, obind. destruct (d !! "symbol"); [rewrite Hnp|]; done. }
    unfold bind. rewrite H1. apply IH. intros e' He'. apply Hl. by right. }
  rewrite Hloop by done.
  destruct (identify_lead_expert_keys w (setattr w (comp_summary (initial (getattr w b))) b)
              "comparisonStatus") as [-> ->]; [done|].
  split; [done|]. rewrite getattr_setattr. simpl. by rewrite lookup_insert_eq.
Qed.


(** *** The worst verdict *)

Lemma append_assoc (a b c : string) : (a +:+ b) +:+ c = a +:+ (b +:+ c).
Proof.
  induction a as [|x a IH]; [reflexivity|].
  change (String x ((a +:+ b) +:+ c) = String x (a +:+ (b +:+ c))). by rewrite IH.
Qed.

Lemma concat_snoc sep (l : list string) x :
  l <> [] -> String.concat sep (l ++ [x]) = String.concat sep l +:+ (sep +:+ x).
Proof.
  induction l as [|a l IH]; intros Hne; [done|].
  destruct l as [|a' l]; [done|].
  change (String.concat sep ((a :: a' :: l) ++ [x]))
    with (a +:+ sep +:+ String.concat sep ((a' :: l) ++ [x])).
  rewrite IH by done.
  change (String.concat sep (a :: a' :: l)) with (a +:+ sep +:+ String.concat sep (a' :: l)).
  by rewrite !append_assoc.
Qed.

Lemma index_eqb s s' i j :
  index status_order (VStr s) = Returned i ->
  index status_order (VStr s') = Returned j ->
  String.eqb s s' = (i =? j)%nat.
Proof.
  intros Hi Hj.
  assert (Hs : s ∈ status_order).
  { cbv [status_order index obind eq_str] in Hi. unfold status_order.
    rewrite !elem_of_cons.
    repeat (match type of Hi with context [String.eqb s ?x] =>
              destruct (String.eqb_spec s x) as [->|]; [auto 10|] end; cbn in Hi).
    discriminate. }
  assert (Hs' : s' ∈ status_order).
  { cbv [status_order index obind eq_str] in Hj. unfold status_order.
    rewrite !elem_of_cons.
    repeat (match type of Hj with context [String.eqb s' ?x] =>
              destruct (String.eqb_spec s' x) as [->|]; [auto 10|] end; cbn in Hj).
    discriminate. }
  unfold status_order in Hs, Hs'. rewrite !elem_of_cons, elem_of_nil in Hs, Hs'.
  destruct Hs as [->|[->|[->|[->|[->|[->|[->|[]]]]]]]];
    destruct Hs' as [->|[->|[->|[->|[->|[->|[->|[]]]]]]]];
    vm_compute in Hi, Hj; injection Hi as <-; injection Hj as <-; reflexivity.
Qed.

Lemma good_value_inv v :
  good_value v ->
  exists c s, v = VDict c /\ c !! "symbol" = Some (VStr s)
    /\ index status_order (VStr s) = Returned (severity v)
    /\ (severity v = 3%nat \/ severity v = 4%nat -> exists t, c !! "text" = Some (VStr t)).
Proof.
  intros (c & s & -> & Hs & Hin & Ht). destruct (index_in s Hin) as (i & Hi).
  assert (Hsev : severity (VDict c) = i).
  { unfold severity, symbol_rank, getitem, subscript. by rewrite Hs, Hi. }
  exists c, s. rewrite Hsev. split; [done|]. split; [done|]. split; [done|].
  intros H3. apply Ht.
  pose proof (index_eqb s "OK" i 3 Hi eq_refl) as HOK.
  pose proof (index_eqb s "KO" i 4 Hi eq_refl) as HKO.
  destruct H3 as [-> | ->].
  - left. by apply String.eqb_eq.
  - right. by apply String.eqb_eq.
Qed.

Lemma update_status_merge fr v cur :
  status fr = Own v -> good_value v ->
  comp_summary fr !! "comparisonStatus" = Some cur -> good_value cur ->
  exists st, update_status fr
    = (Returned tt, Frame (<["comparisonStatus" := merge cur v]> (comp_summary fr)) st).
Proof.
  intros Hst Hv Hcur Hc.
  destruct (good_value_inv v Hv) as (cv & s & -> & Hs & Hi & Ht).
  destruct (good_value_inv cur Hc) as (cc & s' & -> & Hs' & Hj & Ht').
  set (i := severity (VDict cv)) in *. set (j := severity (VDict cc)) in *.
  unfold update_status, bind at 1, read_status. rewrite Hst.
  unfold bind at 1, lift at 1, getitem at 1, subscript at 1. rewrite Hs.
  unfold bind at 1, lift at 1. rewrite Hi.
  unfold bind at 1, subscript at 1. rewrite Hcur.
  unfold bind at 1, lift at 1, getitem at 1, subscript at 1. rewrite Hs'.
  unfold bind at 1, lift at 1. rewrite Hj.
  unfold merge. fold i j.
  destruct (j <=? i)%nat eqn:Hji.
  2:{ unfold ret. exists (Own (VDict cv)). destruct fr as [cs st]. simpl in *.
      rewrite insert_id by done. by rewrite Hst. }
  unfold eq_symbols, eq_str.
  rewrite (index_eqb s s' i j Hi Hj).
  rewrite (index_eqb s "OK" i 3 Hi eq_refl), (index_eqb s "KO" i 4 Hi eq_refl).
  destruct ((i =? j)%nat && ((i =? 3)%nat || (i =? 4)%nat)) eqn:Hg.
  - apply andb_true_iff in Hg as [Hij H34]. apply Nat.eqb_eq in Hij.
    assert (H34' : i = 3%nat \/ i = 4%nat).
    { apply orb_true_iff in H34 as [H|H]; apply Nat.eqb_eq in H; auto. }
    destruct (Ht H34') as (t & Htx). destruct Ht' as (t' & Htx'); [by rewrite <- Hij|].
    unfold bind at 1, lift at 1, getitem at 1, subscript at 1. rewrite Htx'.
    unfold bind at 1, lift at 1, getitem at 1, subscript at 1. rewrite Htx.
    unfold bind at 1, lift at 1, add_str at 1.
    unfold bind at 1, lift at 1, add_str at 1.
    unfold modify, set_comp_summary. exists (Own (VDict cv)). rewrite Hst.
    unfold text_of, getitem, subscript. by rewrite Htx, Htx'.
  - unfold bind, modify. simpl. eauto.
Qed.


Lemma with_text_good t v : good_value v -> good_value (with_text t v).
Proof.
  intros (c & s & -> & Hs & Hin & Ht). simpl. eexists _, s. split; [reflexivity|].
  rewrite lookup_insert_ne by done. split; [done|]. split; [done|].
  intros _. rewrite lookup_insert_eq. eauto.
Qed.

Lemma merge_good cur v : good_value cur -> good_value v -> good_value (merge cur v).
Proof.
  intros Hc Hv. unfold merge. destruct (_ <=? _)%nat; [|done].
  destruct (_ && _); [|done]. by apply with_text_good.
Qed.

(** For an expert that states, with a well-formed entry without '+', the
    iteration is one update with the verdict of the expert. *)
Lemma iteration_verdict panel e fr :
  side_expert e = false ->
  (forall v, comp_summary fr !! kind e = Some v ->
     well_formed e v = true /\ carries_plus v = false) ->
  status_iteration py_repr panel e fr
  = update_status (set_status (Own (verdict py_repr e (comp_summary fr))) fr)
  /\ good_value (verdict py_repr e (comp_summary fr)).
Proof.
  intros Hside Hentry. unfold status_iteration, bind at 1, reference_crashed, verdict.
  destruct (comp_summary fr !! kind e) as [v|] eqn:E.
  - destruct (Hentry v eq_refl) as [Hwf Hnp]. destruct v as [| | | | |d]; try discriminate.
    simpl in Hwf, Hnp. unfold get, get_default, obind.
    assert (Hs : eq_str (default VNone (d !! "symbol")) "+" = false).
    { destruct (d !! "symbol"); done. }
    replace (match d !! "symbol" with Some x => x | None => VNone end)
      with (default VNone (d !! "symbol")) by (by destruct (d !! "symbol")).
    rewrite Hs, Hside. rewrite Hside in Hwf. simpl in Hwf.
    unfold bind at 1, has_validated. rewrite E. unfold contains.
    unfold states_validation_well in Hwf.
    destruct (d !! "Validated") as [V|] eqn:EV.
    + rewrite bool_decide_eq_true_2 by eauto.
      destruct V as [|b| | | |]; try discriminate. apply bool_decide_eq_true_1 in Hwf as [m Hm].
      unfold bind at 1, interpret_validated, bind at 1, subscript. rewrite E.
      unfold bind at 1, lift, getitem, subscript. rewrite EV, Hm.
      destruct b; simpl; (split; [reflexivity|]); apply good_value_mk; in_order.
    + rewrite bool_decide_eq_false_2 by (intros [? ?]; done).
      unfold bind at 1, comparison_failed. rewrite E. unfold get, get_default, obind.
      replace (match d !! "Comparison" with Some x => x | None => VNone end)
        with (default VNone (d !! "Comparison")) by (by destruct (d !! "Comparison")).
      destruct (eq_str _ "Failed").
      { unfold bind at 1, modify at 1. split; [reflexivity|]. apply good_value_mk. in_order. }
      unfold bind at 1, no_reference. rewrite E. unfold get, get_default, obind.
      destruct (d !! "comparisonStatus") as [n|] eqn:En.
      * destruct n as [| | | | |n]; try discriminate.
        replace (match n !! "symbol" with Some x => x | None => VNone end)
          with (default VNone (n !! "symbol")) by (by destruct (n !! "symbol")).
        destruct (eq_str _ "0") eqn:E0.
        { unfold bind at 1, subscript. rewrite E. unfold bind at 1, lift. rewrite En.
          unfold bind at 1, modify at 1. split; [reflexivity|].
          destruct (n !! "symbol") as [[| | |s| |]|] eqn:Es; try discriminate.
          simpl in E0. apply String.eqb_eq in E0. subst s.
          eexists _, "0". split; [reflexivity|]. split; [done|]. split; [in_order|].
          intros [?|?]; discriminate. }
        unfold bind at 1, modify at 1. split; [reflexivity|]. apply good_value_mk. in_order.
      * rewrite lookup_empty. simpl.
        unfold bind at 1, modify at 1. split; [reflexivity|]. apply good_value_mk. in_order.
  - rewrite Hside.
    unfold bind at 1, has_validated. rewrite E.
    unfold bind at 1, comparison_failed. rewrite E.
    unfold bind at 1, no_reference. rewrite E.
    unfold bind at 1, modify at 1. split; [reflexivity|]. apply good_value_mk. in_order.
Qed.


Lemma verdict_ext e (cs cs' : gmap string value) :
  cs' !! kind e = cs !! kind e -> verdict py_repr e cs' = verdict py_repr e cs.
Proof. unfold verdict. by intros ->. Qed.

Lemma loop_merges panel l fr cur :
  (forall e, e ∈ l -> kind e <> "comparisonStatus") ->
  (forall e v, e ∈ l -> comp_summary fr !! kind e = Some v ->
     well_formed e v = true /\ carries_plus v = false) ->
  comp_summary fr !! "comparisonStatus" = Some cur -> good_value cur ->
  exists st, for_each l (status_iteration py_repr panel) fr
    = (Returned tt,
       Frame (<["comparisonStatus" :=
                  foldl merge cur (map (fun e => verdict py_repr e (comp_summary fr))
                                       (stating l))]> (comp_summary fr)) st).
Proof.
  revert fr cur. induction l as [|e l IH]; intros fr cur Hk Hq Hcur Hg; simpl.
  - exists (status fr). unfold ret. destruct fr as [cs st]. simpl in *. by rewrite insert_id.
  - assert (Hke : kind e <> "comparisonStatus") by (apply Hk; left).
    assert (Hqe : forall v, comp_summary fr !! kind e = Some v ->
                    well_formed e v = true /\ carries_plus v = false).
    { intros v Hv. apply (Hq e v); [left|done]. }
    destruct (side_expert e) eqn:Hside.
    + assert (H1 : status_iteration py_repr panel e fr = (Returned tt, fr)).
      { unfold status_iteration, bind at 1, reference_crashed. rewrite Hside.
        destruct (comp_summary fr !! kind e) as [v|] eqn:E; [|done].
        destruct (Hqe v eq_refl) as [Hwf Hnp].
        destruct v as [| | | | |d]; try discriminate. simpl in Hnp.
        unfold get, get_default, obind. destruct (d !! "symbol"); [rewrite Hnp|]; done. }
      unfold bind. rewrite H1.
      destruct (IH fr cur) as (st & ->); auto.
      { intros e' He'. apply Hk. by right. }
      { intros e' v He'. apply Hq. by right. }
      exists st. unfold stating. rewrite filter_cons_False by (by rewrite Hside). done.
    + destruct (iteration_verdict panel e fr Hside Hqe) as [H1 Hv].
      set (v := verdict py_repr e (comp_summary fr)) in *.
      destruct (update_status_merge (set_status (Own v) fr) v cur) as (st1 & H2); auto.
      unfold bind. rewrite H1, H2. simpl comp_summary.
      set (fr1 := Frame _ st1).
      destruct (IH fr1 (merge cur v)) as (st & ->).
      { intros e' He'. apply Hk. by right. }
      { intros e' v' He'. unfold fr1. simpl. rewrite lookup_insert_ne.
        - apply Hq. by right.
        - intros E. symmetry in E. revert E. apply Hk. by right. }
      { unfold fr1. simpl. by rewrite lookup_insert_eq. }
      { by apply merge_good. }
      exists st. unfold fr1. simpl. rewrite insert_insert_eq.
      unfold stating. rewrite filter_cons_True by done. simpl. fold v.
      replace (map (fun e0 => verdict py_repr e0 (<["comparisonStatus":=merge cur v]> (comp_summary fr)))
                   (filter (fun e0 => side_expert e0 = false) l))
        with (map (fun e0 => verdict py_repr e0 (comp_summary fr))
                  (filter (fun e0 => side_expert e0 = false) l)); [done|].
      apply map_ext_in. intros e' He'. symmetry. apply verdict_ext.
      apply lookup_insert_ne. intros E. symmetry in E. revert E. apply Hk. right.
      apply list_elem_of_In in He'. apply list_elem_of_filter in He'. tauto.
Qed.

(** *** Status codes, merged *)

Lemma severity_with_text t v : severity (with_text t v) = severity v.
Proof.
  destruct v as [| | | | |c]; try done. unfold severity, symbol_rank, getitem, subscript.
  simpl. by rewrite lookup_insert_ne.
Qed.

Lemma text_of_with_text t v : good_value v -> text_of (with_text t v) = t.
Proof.
  intros (c & s & -> & _). unfold text_of, getitem, subscript. simpl.
  by rewrite lookup_insert_eq.
Qed.

Lemma list_max_attained (l : list nat) :
  (0 < list_max l)%nat -> list_max l ∈ l.
Proof.
  induction l as [|x l IH]; simpl; [lia|]. intros H.
  destruct (Nat.max_spec x (list_max l)) as [[Hlt ->]|[Hle ->]].
  - right. apply IH. lia.
  - left.
Qed.

Lemma filter_none {A} (P : A -> Prop) `{!forall x, Decision (P x)} (l : list A) :
  Forall (fun x => ~ P x) l -> filter P l = [].
Proof.
  induction 1 as [|x l Hx Hl IH]; [done|]. by rewrite filter_cons_False.
Qed.

Lemma filter_agree {A} (P Q : A -> Prop) `{!forall x, Decision (P x)}
    `{!forall x, Decision (Q x)} (l : list A) :
  Forall (fun x => P x <-> Q x) l -> filter P l = filter Q l.
Proof.
  induction 1 as [|x l Hx Hl IH]; [done|].
  destruct (decide (P x)) as [HP|HP].
  - rewrite !filter_cons_True by tauto. by rewrite IH.
  - rewrite !filter_cons_False by tauto. done.
Qed.

Lemma merged_spec dflt (vs : list value) :
  good_value dflt -> severity dflt = 0%nat -> Forall good_value vs ->
  let m := list_max (map severity vs) in
  good_value (foldl merge dflt vs)
  /\ severity (foldl merge dflt vs) = m
  /\ (m = 3%nat \/ m = 4%nat ->
      text_of (foldl merge dflt vs)
      = String.concat " | " (map text_of (filter (fun v => severity v = m) vs))).
Proof.
  intros Hd Hd0 Hvs. induction vs as [|v vs IH] using rev_ind; simpl.
  { split; [done|]. split; [done|]. intros [?|?]; discriminate. }
  apply Forall_app in Hvs as [Hvs Hv]. apply Forall_inv in Hv.
  destruct (IH Hvs) as (Hg & Hsev & Htext). clear IH.
  rewrite foldl_app, map_app, list_max_app. simpl.
  set (R := foldl merge dflt vs) in *. set (m := list_max (map severity vs)) in *.
  set (s := severity v). rewrite Nat.max_0_r.
  assert (Hle : Forall (fun x => (severity x <= m)%nat) vs).
  { apply Forall_forall. intros x Hx.
    assert (H := proj1 (list_max_le (map severity vs) m) (Nat.le_refl _)).
    rewrite List.Forall_forall in H. apply H. apply in_map. by apply list_elem_of_In. }
  rewrite filter_app.
  unfold merge. fold R s. rewrite Hsev.
  destruct (m <=? s)%nat eqn:Hms.
  - apply Nat.leb_le in Hms. rewrite Nat.max_r by done.
    destruct ((s =? m)%nat && ((s =? 3)%nat || (s =? 4)%nat)) eqn:Hg'.
    + apply andb_true_iff in Hg' as [Hsm H34]. apply Nat.eqb_eq in Hsm.
      split; [by apply with_text_good|]. split; [by rewrite severity_with_text, Hsev|].
      intros _. rewrite text_of_with_text by done.
      assert (H34' : m = 3%nat \/ m = 4%nat).
      { rewrite <- Hsm. apply orb_true_iff in H34 as [H|H]; apply Nat.eqb_eq in H; auto. }
      rewrite Htext by done. rewrite Hsm.
      rewrite filter_cons_True by done. rewrite filter_nil, map_app. simpl.
      rewrite concat_snoc; [reflexivity|].
      assert (Hin : In m (map severity vs)).
      { apply list_elem_of_In. apply (list_max_attained (map severity vs)). fold m. lia. }
      apply in_map_iff in Hin as (x & Hx & Hxin). apply list_elem_of_In in Hxin.
      intros E. apply map_eq_nil in E.
      assert (Hx' : x ∈ filter (fun v0 => severity v0 = m) vs).
      { apply list_elem_of_filter. auto. }
      rewrite E in Hx'. by apply elem_of_nil in Hx'.
    + split; [done|]. split; [done|]. intros H34.
      assert (Hlt : (m < s)%nat).
      { destruct (decide (s = m)) as [Hsm|Hsm]; [|lia].
        rewrite Hsm, Nat.eqb_refl in Hg'. simpl in Hg'.
        destruct H34 as [H|H]; rewrite Hsm in H; rewrite H in Hg'; discriminate. }
      rewrite filter_cons_True by done. rewrite filter_nil.
      replace (filter (fun v0 => severity v0 = s) vs) with (@nil value); [done|].
      symmetry. apply filter_none. eapply Forall_impl; [exact Hle|]. simpl. intros x Hx. lia.
  - apply Nat.leb_gt in Hms. rewrite Nat.max_l by lia.
    split; [done|]. split; [done|]. intros H34.
    rewrite filter_cons_False by (fold s; lia). rewrite filter_nil, app_nil_r. by apply Htext.
Qed.


Lemma symbol_rank_good v : good_value v -> symbol_rank v = Some (severity v).
Proof.
  intros Hv. destruct (good_value_inv v Hv) as (c & s & -> & Hs & Hi & _).
  unfold symbol_rank at 1, getitem, subscript. by rewrite Hs, Hi.
Qed.

Lemma has_symbol_severity v s i :
  good_value v -> index status_order (VStr s) = Returned i ->
  has_symbol s v = true <-> severity v = i.
Proof.
  intros Hv Hi. destruct (good_value_inv v Hv) as (c & s' & -> & Hs & Hj & _).
  unfold has_symbol, getitem, subscript. rewrite Hs. simpl.
  rewrite (index_eqb s' s _ i Hj Hi). apply Nat.eqb_eq.
Qed.

(** With well-formed entries without '+', the aggregation returns, and
    the status it leaves is the verdicts of the stating experts, merged
    in the order of the panel. *)
Lemma status_merges w b :
  getattr w b <> ∅ ->
  (forall e, e ∈ experts b -> kind e <> "comparisonStatus") ->
  (forall e v, e ∈ experts b -> getattr w b !! kind e = Some v ->
     well_formed e v = true /\ carries_plus v = false) ->
  let vs := map (fun e => verdict py_repr e (getattr w b)) (stating (experts b)) in
  fst (_status py_repr w b) = Returned tt
  /\ getattr w (snd (_status py_repr w b)) !! "comparisonStatus"
     = Some (foldl merge (mk_status "-" "- No expert -" "No expert available") vs)
  /\ Forall good_value vs.
Proof.
  intros Hne Hk Hq vs. rewrite (_status_nonempty py_repr w b Hne). rewrite state_status_eq.
  destruct (loop_merges (experts b) (experts b) (initial (getattr w b))
              (mk_status "-" "- No expert -" "No expert available")) as (st & ->); auto.
  { intros e v He. rewrite initial_lookup by auto. by apply Hq. }
  { simpl. by rewrite lookup_insert_eq. }
  { apply good_value_mk. in_order. }
  set (fr := Frame _ st).
  destruct (identify_lead_expert_keys w (setattr w (comp_summary fr) b)
              "comparisonStatus") as [-> ->]; [done|].
  split; [done|]. rewrite getattr_setattr. unfold fr. cbn [comp_summary].
  rewrite lookup_insert_eq.
  assert (Hvs : map (fun e => verdict py_repr e (comp_summary (initial (getattr w b))))
                    (stating (experts b)) = vs).
  { apply map_ext_in. intros e He. apply verdict_ext. apply initial_lookup. apply Hk.
    apply list_elem_of_In in He. apply list_elem_of_filter in He. tauto. }
  rewrite Hvs. split; [done|].
  apply Forall_forall. intros v Hv. apply list_elem_of_In, in_map_iff in Hv as (e & <- & He).
  apply list_elem_of_In, list_elem_of_filter in He as [Hs He].
  destruct (iteration_verdict (experts b) e (Frame (getattr w b) Unbound) Hs) as [_ Hg]; [|done].
  intros v. by apply Hq.
Qed.

(** X1: when every entry is well formed and none carries '+', [_status]
    returns, and the status it leaves ranks in [status_order] as the
    worst of the verdicts of the experts that are not side experts (as
    '-' when there is none). *)
Theorem severity_is_the_worst_verdict (w : which_summary) (b : board) :
  getattr w b <> ∅ ->
  (forall e, e ∈ experts b -> kind e <> "comparisonStatus") ->
  (forall e v, e ∈ experts b -> getattr w b !! kind e = Some v ->
     well_formed e v = true /\ carries_plus v = false) ->
  fst (_status py_repr w b) = Returned tt
  /\ rank (getattr w (snd (_status py_repr w b)))
     = Some (list_max (map (fun e => severity (verdict py_repr e (getattr w b)))
                           (stating (experts b)))).
Proof.
  intros Hne Hk Hq. destruct (status_merges w b Hne Hk Hq) as (Hret & Hcs & Hvs).
  split; [done|]. unfold rank. rewrite Hcs.
  destruct (merged_spec (mk_status "-" "- No expert -" "No expert available") _
              (good_value_mk "-" _ _ ltac:(in_order)) eq_refl Hvs) as (Hg & Hsev & _).
  rewrite (symbol_rank_good _ Hg), Hsev. by rewrite map_map.
Qed.

(** X2: when every entry is well formed and none carries '+', and the
    status [_status] leaves is 'OK' or 'KO', its text gathers the texts
    of all the verdicts with that symbol, in the order of the panel,
    joined by ' | '. *)
Theorem worst_verdicts_are_gathered (w : which_summary) (b : board) (s : string) :
  getattr w b <> ∅ ->
  (forall e, e ∈ experts b -> kind e <> "comparisonStatus") ->
  (forall e v, e ∈ experts b -> getattr w b !! kind e = Some v ->
     well_formed e v = true /\ carries_plus v = false) ->
  status_symbol (getattr w (snd (_status py_repr w b))) = Some (VStr s) ->
  s = "OK" \/ s = "KO" ->
  status_text (getattr w (snd (_status py_repr w b)))
  = Some (VStr (String.concat " | "
       (map text_of
          (filter (fun v => has_symbol s v = true)
             (map (fun e => verdict py_repr e (getattr w b)) (stating (experts b))))))).
Proof.
  intros Hne Hk Hq Hsym Hs. destruct (status_merges w b Hne Hk Hq) as (Hret & Hcs & Hvs).
  set (vs := map _ _) in *.
  destruct (merged_spec (mk_status "-" "- No expert -" "No expert available") vs
              (good_value_mk "-" _ _ ltac:(in_order)) eq_refl Hvs) as (Hg & Hsev & Htext).
  set (R := foldl merge _ vs) in *. set (m := list_max (map severity vs)) in *.
  destruct (good_value_inv R Hg) as (c & s' & HR & Hs' & Hi & Ht).
  rewrite Hsev in Hi, Ht.
  unfold status_symbol in Hsym. unfold status_text. rewrite Hcs in Hsym |- *.
  rewrite HR in Hsym |- *. rewrite Hs' in Hsym. injection Hsym as ->.
  assert (H34 : m = 3%nat \/ m = 4%nat).
  { destruct Hs as [-> | ->]; [left|right].
    - change (Returned 3%nat = Returned m) in Hi. by injection Hi.
    - change (Returned 4%nat = Returned m) in Hi. by injection Hi. }
  destruct (Ht H34) as (t & Htx). rewrite Htx. do 2 f_equal.
  assert (Hto : text_of R = t).
  { rewrite HR. unfold text_of, getitem, subscript. by rewrite Htx. }
  rewrite <- Hto, Htext by done. do 2 f_equal.
  apply filter_agree. eapply Forall_impl; [exact Hvs|]. simpl. intros v Hv.
  symmetry. by apply has_symbol_severity.
Qed.


(** *** What the aggregation leaves in the summary *)

#[local] Instance same_at_refl k : Reflexive (same_at k).
Proof. by intros fr. Qed.

#[local] Instance same_at_trans k : Transitive (same_at k).
Proof. intros f1 f2 f3 H1 H2. unfold same_at in *. congruence. Qed.

Lemma same_at_lift {A} k (o : outcome A) : preserves (same_at k) (lift o).
Proof. by intros fr. Qed.

Lemma same_at_read {A} k (f : frame -> outcome A) : preserves (same_at k) (fun fr => (f fr, fr)).
Proof. by intros fr. Qed.

Lemma same_at_set_status k b : preserves (same_at k) (modify (set_status b)).
Proof. by intros fr. Qed.

Lemma same_at_read_status k : preserves (same_at k) read_status.
Proof. intros fr. unfold read_status. by destruct (status fr). Qed.

Lemma same_at_set_result k v :
  k <> "comparisonStatus" ->
  preserves (same_at k) (modify (set_comp_summary (insert "comparisonStatus" v))).
Proof. intros Hk fr. unfold same_at. simpl. by rewrite lookup_insert_ne. Qed.

Lemma same_at_update_status k :
  k <> "comparisonStatus" -> preserves (same_at k) update_status.
Proof.
  intros Hk. unfold update_status.
  apply preserves_bind; [apply _|apply same_at_read_status|intros st].
  apply preserves_bind; [apply _|apply same_at_lift|intros sym].
  apply preserves_bind; [apply _|apply same_at_lift|intros i].
  apply preserves_bind; [apply _|apply same_at_read|intros cur].
  apply preserves_bind; [apply _|apply same_at_lift|intros cur_sym].
  apply preserves_bind; [apply _|apply same_at_lift|intros j].
  destruct (j <=? i)%nat; [|by intros fr].
  destruct (_ && _).
  - apply preserves_bind; [apply _|apply same_at_lift|intros old].
    apply preserves_bind; [apply _|apply same_at_lift|intros txt].
    apply preserves_bind; [apply _|apply same_at_lift|intros sep].
    apply preserves_bind; [apply _|apply same_at_lift|intros new].
    destruct cur; try (by intros fr). by apply same_at_set_result.
  - apply preserves_bind; [apply _|by apply same_at_set_result|intros _].
    apply same_at_set_status.
Qed.

Lemma same_at_iteration k panel e :
  k <> "comparisonStatus" -> (forall e', e' ∈ panel -> kind e' <> k) ->
  preserves (same_at k) (status_iteration py_repr panel e).
Proof.
  intros Hk Hpanel. unfold status_iteration.
  apply preserves_bind; [apply _|apply same_at_read|intros crashed]. destruct crashed.
  { apply preserves_bind; [apply _|apply same_at_read|intros doc].
    apply preserves_bind; [apply _|apply same_at_set_status|intros _].
    apply preserves_bind; [apply _| |intros _]; [|by apply same_at_update_status].
    intros fr. unfold same_at. simpl. by apply pop_all_other. }
  destruct (side_expert e); [by intros fr|].
  apply preserves_bind; [apply _|apply same_at_read|intros validated]. destruct validated.
  { apply preserves_bind; [apply _| |intros _]; [|by apply same_at_update_status].
    unfold interpret_validated.
    apply preserves_bind; [apply _|apply same_at_read|intros doc].
    apply preserves_bind; [apply _|apply same_at_lift|intros v].
    destruct (is_True v).
    { apply preserves_bind; [apply _|apply same_at_lift|intros means]. apply same_at_set_status. }
    destruct (is_False v); [|by intros fr].
    apply preserves_bind; [apply _|apply same_at_lift|intros means]. apply same_at_set_status. }
  apply preserves_bind; [apply _|apply same_at_read|intros failed]. destruct failed.
  { apply preserves_bind; [apply _|apply same_at_set_status|intros _].
    by apply same_at_update_status. }
  apply preserves_bind; [apply _|apply same_at_read|intros noref]. destruct noref.
  { apply preserves_bind; [apply _|apply same_at_read|intros doc].
    apply preserves_bind; [apply _|apply same_at_lift|intros st].
    apply preserves_bind; [apply _|apply same_at_set_status|intros _].
    by apply same_at_update_status. }
  apply preserves_bind; [apply _|apply same_at_set_status|intros _].
  by apply same_at_update_status.
Qed.

Lemma _status_keeps w b k :
  k <> "comparisonStatus" -> k <> "leadExpert" ->
  (forall e, e ∈ experts b -> kind e <> k) ->
  getattr w (snd (_status py_repr w b)) !! k = getattr w b !! k.
Proof.
  intros Hk Hl Hpanel. unfold _status, bind at 1, gets at 1.
  destruct (0 <? size (getattr w b))%nat.
  2:{ unfold _notify_no_ref_resource, modify. simpl. rewrite getattr_setattr.
      by rewrite lookup_insert_ne. }
  unfold bind at 1, gets at 1. unfold bind, with_summary.
  assert (H := preserves_for_each (same_at k) (experts b)
                 (status_iteration py_repr (experts b))
                 (fun e _ => same_at_iteration k (experts b) e Hk Hpanel)
                 (initial (getattr w b))).
  unfold same_at in H. rewrite initial_lookup in H by done.
  unfold state_status, bind, modify. fold (initial (getattr w b)).
  destruct (for_each _ _ _) as [[[]|e] fr]; simpl in *.
  - destruct (identify_lead_expert_keys w (setattr w (comp_summary fr) b) k) as [_ ->]; [done|].
    by rewrite getattr_setattr.
  - by rewrite getattr_setattr.
Qed.

(** X6: whether it returns or raises, [_status] leaves the panel, the
    task summary, the trace and the other comparison summary as they
    were; in its own summary it leaves every key other than
    'comparisonStatus', 'leadExpert' and the kinds of the experts. *)
Theorem status_touches_its_summary_only (w : which_summary) (b : board) :
  apart w b (snd (_status py_repr w b))
  /\ forall k, k <> "comparisonStatus" -> k <> "leadExpert" ->
       (forall e, e ∈ experts b -> kind e <> k) ->
       getattr w (snd (_status py_repr w b)) !! k = getattr w b !! k.
Proof. split; [apply _status_apart|apply _status_keeps]. Qed.

(** X7: [compare] refuses consistency references that come from two
    different tasks: it raises ExpertError before any expert is asked to
    compare, and leaves the summaries as they were. *)
Theorem compare_refuses_mixed_tasks (consistency_refs : list reference)
    (continuity_refs : option (list reference)) (b : board) (r1 r2 : reference) :
  r1 ∈ consistency_refs -> r2 ∈ consistency_refs -> ref_is_task r1 <> ref_is_task r2 ->
  compare py_repr (Some consistency_refs) continuity_refs b
  = (Raised (ExpertError
       "Consistency reference resources must all come from the same 'task'."),
     log (Call "compare") b).
Proof.
  intros H1 H2 Hne. unfold compare, bind at 1, modify at 1.
  assert (Ht : truthy (Some consistency_refs) = true).
  { destruct consistency_refs; [by apply elem_of_nil in H1|done]. }
  rewrite Ht. cbv iota. simpl default.
  set (X := list_to_set (map ref_is_task consistency_refs) : gset string).
  assert (Hsize : (1 <? size X)%nat = true).
  { apply Nat.ltb_lt.
    assert (Hsub : ({[ref_is_task r1]} ∪ {[ref_is_task r2]} : gset string) ⊆ X).
    { apply union_subseteq. split; apply singleton_subseteq_l; unfold X;
        apply elem_of_list_to_set, list_elem_of_In, in_map; by apply list_elem_of_In. }
    apply subseteq_size in Hsub. rewrite size_union in Hsub by set_solver.
    rewrite !size_singleton in Hsub. lia. }
  unfold bind at 1. rewrite Hsize. reflexivity.
Qed.


(** *** The trace and the summaries along [parse], [compare] and [process] *)

#[local] Instance keeps_refl {S T} (f : S -> T) : Reflexive (keeps f).
Proof. by intros s. Qed.

#[local] Instance keeps_trans {S T} (f : S -> T) : Transitive (keeps f).
Proof. intros s1 s2 s3 H1 H2. unfold keeps in *. congruence. Qed.

#[local] Instance grows_refl P : Reflexive (grows P).
Proof. intros b. exists []. by rewrite app_nil_r. Qed.

#[local] Instance grows_trans P : Transitive (grows P).
Proof.
  intros b1 b2 b3 (evs1 & T1 & F1) (evs2 & T2 & F2). exists (evs1 ++ evs2). split.
  - rewrite T2, T1. by rewrite app_assoc.
  - by apply Forall_app.
Qed.

Lemma grows_log (P : event -> Prop) ev : P ev -> preserves (grows P) (modify (log ev)).
Proof. intros H b. exists [ev]. split; [done|]. by constructor. Qed.

Lemma grows_same (P : event -> Prop) {A} (m : M board A) :
  preserves (keeps trace) m -> preserves (grows P) m.
Proof. intros H b. exists []. rewrite app_nil_r. split; [apply H|done]. Qed.

Lemma apart_keeps_trace w b b' : apart w b b' -> keeps trace b b'.
Proof. by intros (_ & _ & H & _). Qed.

Lemma _status_trace w : preserves (keeps trace) (_status py_repr w).
Proof. intros b. eapply apart_keeps_trace, _status_apart. Qed.

Lemma parse_grows (P : event -> Prop) :
  (forall k, P (ExpertParse k)) -> (forall d, P (Dump "task_summary.json" d)) ->
  P (Call "parse") ->
  preserves (grows P) parse.
Proof.
  intros HP HD HC. unfold parse.
  apply preserves_bind; [apply _|by apply grows_log|intros _].
  apply preserves_bind; [apply _|apply (preserves_pure (grows P))|intros panel].
  apply preserves_bind; [apply _| |intros _].
  - apply preserves_for_each; try apply _. intros e _. unfold parse_expert.
    apply preserves_bind; [apply _|by apply grows_log|intros _].
    apply preserves_bind; [apply _|by intros b|intros d].
    apply grows_same. by intros b.
  - intros b. exists [Dump "task_summary.json" (task_summary b)]. split; [done|].
    by constructor.
Qed.

Lemma compare_expert_grows (P : event -> Prop) w refs e :
  (forall k n, P (ExpertCompare k n)) -> preserves (grows P) (compare_expert w refs e).
Proof.
  intros HP. unfold compare_expert. destruct (truthy refs); [|by intros b].
  apply preserves_bind; [apply _|by apply grows_log|intros _].
  apply preserves_bind; [apply _|by intros b|intros d].
  apply grows_same. intros b. by destruct w, b.
Qed.

Lemma compare_grows (P : event -> Prop) consistency_refs continuity_refs :
  (forall k n, P (ExpertCompare k n)) -> P (Call "compare") ->
  preserves (grows P) (compare py_repr consistency_refs continuity_refs).
Proof.
  intros HP HC. unfold compare.
  apply preserves_bind; [apply _|by apply grows_log|intros _].
  apply preserves_bind; [apply _| |intros _].
  { destruct (truthy consistency_refs); [|by intros b].
    destruct (_ <? _)%nat; [by intros b|].
    apply preserves_bind; [apply _|by intros b|intros t].
    apply grows_same. by intros b. }
  apply preserves_bind; [apply _|apply (preserves_pure (grows P))|intros panel].
  apply preserves_bind; [apply _| |intros _].
  - apply preserves_for_each; try apply _. intros e _.
    apply preserves_bind; [apply _|by apply compare_expert_grows|intros _].
    by apply compare_expert_grows.
  - apply preserves_for_each; try apply _. intros w _. apply grows_same, _status_trace.
Qed.

Lemma dump_spec b :
  dump b = (Returned tt,
            Board (experts b) (lead_expert b) (task_summary b) (consistency b) (continuity b)
                  (trace b ++ [Call "dump"; Dump "task_summary.json" (task_summary b);
                               Dump "task_consistency.json" (consistency b);
                               Dump "task_continuity.json" (continuity b)])).
Proof.
  unfold dump, dump_summary, bind, modify, log. simpl. by rewrite <- !app_assoc.
Qed.

(** [process], step by step. *)
Lemma process_run now consistency_refs continuity_refs b :
  process py_repr now consistency_refs continuity_refs b
  = match parse (log (Call "process") b) with
    | (Returned _, b1) =>
        match (if truthy consistency_refs || truthy continuity_refs
               then compare py_repr consistency_refs continuity_refs
               else (_notify_no_ref_resource consistency_;;
                     _notify_no_ref_resource continuity_)) b1 with
        | (Returned _, b2) =>
            dump (set_task_summary (<["Updated" := VStr now]> (task_summary b2)) b2)
        | (Raised e, b2) => (Raised e, b2)
        end
    | (Raised e, b1) => (Raised e, b1)
    end.
Proof.
  unfold process. unfold bind at 1, modify at 1. unfold bind at 1.
  destruct (parse (log (Call "process") b)) as [[[]|e] b1]; [|done].
  unfold bind at 1. destruct (_ b1) as [[[]|e] b2]; [|done].
  unfold bind, modify. reflexivity.
Qed.

(** X9: when [process] returns, the last thing it did is dump the three
    summaries, each as the board holds it in the end, and the task
    summary holds the time under 'Updated'. *)
Theorem process_dumps_what_it_leaves (now : string)
    (consistency_refs continuity_refs : option (list reference)) (b : board) :
  fst (process py_repr now consistency_refs continuity_refs b) = Returned tt ->
  let b' := snd (process py_repr now consistency_refs continuity_refs b) in
  (exists evs, trace b' = trace b ++ evs
     ++ [Call "dump"; Dump "task_summary.json" (task_summary b');
         Dump "task_consistency.json" (consistency b');
         Dump "task_continuity.json" (continuity b')])
  /\ task_summary b' !! "Updated" = Some (VStr now).
Proof.
  rewrite process_run.
  set (b0 := log (Call "process") b) in *.
  assert (G0 : grows (fun _ => True) b b0) by (by apply (grows_log (fun _ => True))).
  pose proof (parse_grows (fun _ => True) (fun _ => I) (fun _ => I) I b0) as G1.
  destruct (parse b0) as [[[]|ex] b1]; simpl in G1; [|discriminate].
  set (mid := if truthy consistency_refs || truthy continuity_refs then _ else _).
  assert (G2 : preserves (grows (fun _ => True)) mid).
  { unfold mid. destruct (_ || _).
    - by apply compare_grows.
    - apply preserves_bind; [apply _| |intros _]; apply grows_same; by intros [].  }
  specialize (G2 b1).
  destruct (mid b1) as [[[]|e] b2]; simpl in G2; [|discriminate]. intros _.
  rewrite dump_spec. simpl. split.
  - destruct (transitivity G0 (transitivity G1 G2)) as (evs & -> & _).
    exists evs. by rewrite <- app_assoc.
  - by rewrite lookup_insert_eq.
Qed.

(** *** [parse] *)

(** The first expert whose [parse()] raises, when one does. *)
Lemma parses_false l :
  parses l = false ->
  exists l1 e l2 x, l = l1 ++ e :: l2 /\ parses l1 = true /\ parse_ e = Raised x.
Proof.
  induction l as [|a l IH]; [discriminate|]. unfold parses. simpl.
  destruct (parse_ a) as [d|x] eqn:Ea; simpl.
  - intros H. destruct (IH H) as (l1 & e & l2 & y & -> & H1 & H2).
    exists (a :: l1), e, l2, y. split; [done|]. split; [|done].
    unfold parses. simpl. by rewrite Ea.
  - intros _. exists [], a, l, x. done.
Qed.

Lemma parse_loop_trace l b :
  (parses l = true ->
   fst (for_each l parse_expert b) = Returned tt
   /\ trace (snd (for_each l parse_expert b))
      = trace b ++ map (fun e => ExpertParse (kind e)) l)
  /\ (forall l1 e l2 x, l = l1 ++ e :: l2 -> parses l1 = true -> parse_ e = Raised x ->
        fst (for_each l parse_expert b) = Raised x
        /\ trace (snd (for_each l parse_expert b))
           = trace b ++ map (fun e => ExpertParse (kind e)) (l1 ++ [e])).
Proof.
  revert b. induction l as [|a l IH]; intros b.
  { split; [intros _; simpl; by rewrite app_nil_r|]. intros [|? ?] ? ? ? E; discriminate. }
  simpl. unfold bind. rewrite parse_expert_spec. unfold parses. simpl.
  destruct (parse_ a) as [d|y] eqn:Ea; simpl.
  - set (b1 := set_task_summary _ _). destruct (IH b1) as [IH1 IH2]. split.
    + intros H. destruct (IH1 H) as [-> ->]. split; [done|].
      unfold b1. destruct b. simpl. by rewrite <- app_assoc.
    + intros l1 e l2 x E H1 Hx. destruct l1 as [|a' l1]; injection E as -> ->.
      * congruence.
      * unfold parses in H1. simpl in H1. rewrite Ea in H1. simpl in H1.
        destruct (IH2 l1 e l2 x eq_refl H1 Hx) as [-> ->]. split; [done|].
        unfold b1. destruct b. simpl. by rewrite <- app_assoc.
  - split; [discriminate|].
    intros l1 e l2 x E H1 Hx. destruct l1 as [|a' l1]; injection E as -> ->.
    + split; [congruence|done].
    + unfold parses in H1. simpl in H1. rewrite Ea in H1. discriminate.
Qed.

Lemma parse_loop_stores l b :
  (forall k, (forall e, e ∈ l -> kind e <> k) ->
     task_summary (snd (for_each l parse_expert b)) !! k = task_summary b !! k)
  /\ (parses l = true ->
      forall l1 e l2 d, l = l1 ++ e :: l2 -> (forall e', e' ∈ l2 -> kind e' <> kind e) ->
        parse_ e = Returned d ->
        task_summary (snd (for_each l parse_expert b)) !! kind e = Some d).
Proof.
  revert b. induction l as [|a l IH]; intros b.
  { split; [done|]. intros _ [|? ?] ? ? ? E; discriminate. }
  simpl. unfold bind. rewrite parse_expert_spec. unfold parses. simpl.
  destruct (parse_ a) as [d|y] eqn:Ea; simpl.
  - set (b1 := set_task_summary _ _). destruct (IH b1) as [IH1 IH2]. split.
    + intros k Hk. rewrite IH1 by (intros e He; apply Hk; by right).
      unfold b1. destruct b. simpl. apply lookup_insert_ne. apply Hk. left.
    + intros H l1 e l2 d' E Hl2 Hd. destruct l1 as [|a' l1]; injection E as -> ->.
      * rewrite IH1 by done. unfold b1. destruct b. simpl.
        rewrite lookup_insert_eq. congruence.
      * by apply (IH2 H l1 e l2).
  - split; [|discriminate]. intros k Hk. by destruct b.
Qed.

(** X8: [parse] leaves the keys of the task summary that are not the
    kind of an expert. When the [parse()] of every expert returns, it
    returns, stores under the kind of an expert the document of the last
    expert of that kind, and asks the experts once each, in the order of
    the panel, before it dumps the task summary. When the [parse()] of
    an expert raises, [parse] raises the same exception, once it has
    asked the experts before that one, and it dumps nothing. *)
Theorem parse_stores_every_document (b : board) :
  (forall k, (forall e, e ∈ experts b -> kind e <> k) ->
     task_summary (snd (parse b)) !! k = task_summary b !! k)
  /\ (parses (experts b) = true ->
      fst (parse b) = Returned tt
      /\ (forall l1 e l2 d, experts b = l1 ++ e :: l2 ->
            (forall e', e' ∈ l2 -> kind e' <> kind e) ->
            parse_ e = Returned d ->
            task_summary (snd (parse b)) !! kind e = Some d)
      /\ trace (snd (parse b))
         = trace b ++ Call "parse" :: map (fun e => ExpertParse (kind e)) (experts b)
             ++ [Dump "task_summary.json" (task_summary (snd (parse b)))])
  /\ (forall l1 e l2 x, experts b = l1 ++ e :: l2 -> parses l1 = true ->
        parse_ e = Raised x ->
        fst (parse b) = Raised x
        /\ trace (snd (parse b))
           = trace b ++ Call "parse" :: map (fun e => ExpertParse (kind e)) (l1 ++ [e])).
Proof.
  unfold parse, bind, modify, gets, dump_summary, modify.
  change (experts (log (Call "parse") b)) with (experts b).
  destruct (parse_loop_stores (experts b) (log (Call "parse") b)) as [H1 H2].
  destruct (parse_loop_trace (experts b) (log (Call "parse") b)) as [H3 H4].
  destruct (for_each (experts b) parse_expert (log (Call "parse") b)) as [[[]|ex] b1];
    simpl in *.
  - split; [done|]. split.
    + intros H. destruct (H3 H) as [_ ->]. split; [done|]. split; [by apply H2|].
      by rewrite <- !app_assoc.
    + intros l1 e l2 x E Hl1 Hx. by destruct (H4 l1 e l2 x E Hl1 Hx).
  - split; [done|]. split.
    + intros H. by destruct (H3 H).
    + intros l1 e l2 x E Hl1 Hx. destruct (H4 l1 e l2 x E Hl1 Hx) as [-> ->].
      split; [done|]. by rewrite <- !app_assoc.
Qed.

Lemma parse_raises b x :
  fst (parse b) = Raised x -> exists e, e ∈ experts b /\ parse_ e = Raised x.
Proof.
  intros H. destruct (parse_spec b) as [Hr _]. rewrite H in Hr. simpl in Hr.
  destruct (parses_false _ (eq_sym Hr)) as (l1 & e & l2 & y & E & Hl1 & Hy).
  assert (H' : fst (parse b) = Raised y).
  { unfold parse, bind, modify, gets, dump_summary, modify.
    change (experts (log (Call "parse") b)) with (experts b).
    destruct (parse_loop_trace (experts b) (log (Call "parse") b)) as [_ H4].
    destruct (H4 l1 e l2 y E Hl1 Hy) as [H5 _].
    destruct (for_each (experts b) parse_expert (log (Call "parse") b)) as [[[]|ex] b1];
      simpl in *; congruence. }
  exists e. split; [rewrite E; apply elem_of_app; right; left|]. congruence.
Qed.

(** *** [process] and the references *)

(** X10: [process] raises only the exception of an expert's [parse()],
    or when a reference is given; and then neither comparison summary
    has been written to its file. *)
Theorem process_raising_writes_no_comparison (now : string)
    (consistency_refs continuity_refs : option (list reference)) (b : board) (x : exn) :
  fst (process py_repr now consistency_refs continuity_refs b) = Raised x ->
  ((exists e, e ∈ experts b /\ parse_ e = Raised x)
   \/ truthy consistency_refs || truthy continuity_refs = true)
  /\ exists evs,
       trace (snd (process py_repr now consistency_refs continuity_refs b)) = trace b ++ evs
       /\ Forall (fun ev => writes_comparison ev = false) evs.
Proof.
  rewrite process_run.
  set (P := fun ev => writes_comparison ev = false).
  set (b0 := log (Call "process") b) in *.
  assert (G0 : grows P b b0) by (by apply (grows_log P)).
  pose proof (parse_grows P (fun _ => eq_refl) (fun _ => eq_refl) eq_refl b0) as G1.
  pose proof (parse_raises b0) as Hraise.
  destruct (parse b0) as [[[]|ex] b1]; simpl in G1, Hraise.
  2:{ simpl. intros [= ->]. split; [left; by apply Hraise|].
      exact (transitivity G0 G1). }
  destruct (truthy consistency_refs || truthy continuity_refs) eqn:Ht.
  2:{ unfold bind, modify, _notify_no_ref_resource, modify. cbv beta iota.
      rewrite dump_spec. discriminate. }
  assert (G2 := compare_grows P consistency_refs continuity_refs (fun _ _ => eq_refl) eq_refl b1).
  destruct (compare py_repr consistency_refs continuity_refs b1) as [[[]|e'] b2]; simpl in G2.
  { rewrite dump_spec. discriminate. }
  intros _. split; [by right|]. simpl. exact (transitivity G0 (transitivity G1 G2)).
Qed.

Lemma compare_expert_elsewhere w w' refs e :
  w <> w' -> preserves (keeps (getattr w')) (compare_expert w refs e).
Proof.
  intros Hw. unfold compare_expert. destruct (truthy refs); [|by intros b].
  apply preserves_bind; [apply _| |intros _].
  - intros b. by destruct w', b.
  - apply preserves_bind; [apply _|by intros b|intros d].
    intros b. unfold keeps. simpl. destruct w, w', b; done.
Qed.

Lemma compare_expert_spec w refs e b :
  compare_expert w refs e b
  = if truthy refs then
      match compare_ e (map rh (default [] refs)) with
      | Returned d =>
          (Returned tt,
           setattr w (<[kind e := d]> (getattr w b))
                   (log (ExpertCompare (kind e) (summary_name w)) b))
      | Raised x => (Raised x, log (ExpertCompare (kind e) (summary_name w)) b)
      end
    else (Returned tt, b).
Proof.
  unfold compare_expert. destruct (truthy refs); [|done].
  unfold bind, modify, lift. destruct (compare_ e _); [|done]. by destruct w, b.
Qed.

(** Without consistency reference, the loop of [compare] returns exactly
    when every [compare(references)] for the continuity does. *)
Lemma compare_loop_returns consistency_refs continuity_refs l b :
  truthy consistency_refs = false ->
  returns (fst (for_each l (fun e => compare_expert consistency_ consistency_refs e;;
                                     compare_expert continuity_ continuity_refs e) b))
  = compares continuity_refs l.
Proof.
  intros Hc. unfold compares. revert b. induction l as [|e l IH]; intros b.
  { simpl. by rewrite orb_true_r. }
  cbn [for_each forallb]. unfold bind at 1. unfold bind at 1.
  rewrite (compare_expert_spec consistency_), Hc. cbv beta iota.
  rewrite (compare_expert_spec continuity_).
  destruct (truthy continuity_refs) eqn:Hk.
  - destruct (compare_ e _) as [d|x]; [|done]. cbv beta iota. rewrite IH. done.
  - cbv beta iota. rewrite IH. done.
Qed.

Lemma compare_without_consistency consistency_refs continuity_refs b :
  truthy consistency_refs = false -> consistency b = ∅ ->
  consistency (snd (compare py_repr consistency_refs continuity_refs b))
  = if compares continuity_refs (experts b)
    then {[ "comparisonStatus" := no_reference_status ]} else ∅.
Proof.
  intros Ht He. unfold compare. unfold bind at 1, modify at 1. rewrite Ht.
  unfold bind at 1, ret at 1. unfold bind at 1, gets at 1.
  set (b0 := log (Call "compare") b).
  assert (H0 : consistency b0 = ∅) by done.
  assert (H1 := preserves_for_each (keeps consistency) (experts b0)
            (fun e => compare_expert consistency_ consistency_refs e;;
                      compare_expert continuity_ continuity_refs e)).
  specialize (H1 (fun e _ => ltac:(
    apply preserves_bind; [apply _| |intros _];
    [unfold compare_expert; rewrite Ht; by intros ?
    |apply (compare_expert_elsewhere continuity_ consistency_); done])) b0).
  unfold keeps in H1. rewrite H0 in H1. unfold bind at 1.
  pose proof (compare_loop_returns consistency_refs continuity_refs (experts b0) b0 Ht) as Hr.
  change (experts b0) with (experts b) in *.
  destruct (for_each (experts b) _ b0) as [[[]|ex] b1]; simpl in H1, Hr; rewrite <- Hr;
    [|done].
  simpl for_each. unfold bind at 1.
  assert (H2 : _status py_repr consistency_ b1
               = (Returned tt, setattr consistency_
                    (<["comparisonStatus" := no_reference_status]> ∅) b1)).
  { unfold _status, bind, gets. cbv beta iota.
    change (getattr consistency_ b1) with (consistency b1). rewrite H1.
    rewrite map_size_empty. unfold _notify_no_ref_resource, modify.
    change (0 <? 0)%nat with false. cbv beta iota.
    change (getattr consistency_ b1) with (consistency b1). by rewrite H1. }
  rewrite H2. set (b2 := setattr _ _ b1).
  assert (H3 := _status_apart continuity_ b2). destruct H3 as (_ & _ & _ & H3).
  unfold bind. destruct (_status py_repr continuity_ b2) as [[[]|ex] b3]; simpl in *;
    rewrite H3; unfold b2; destruct b1; simpl; by rewrite insert_empty.
Qed.

(** X11: without consistency reference, and from an empty consistency
    summary, [process] leaves the consistency summary with the single
    entry 'comparisonStatus', which reads 'No reference to be compared
    to', when the [parse()] of every expert returns and so does, if a
    continuity reference is given, its [compare(references)]: so also
    when the aggregation of the continuity summary then raises. When a
    [parse()] or a [compare(references)] raises, the consistency
    summary is left empty. *)
Theorem category_without_reference_reads_so (now : string)
    (consistency_refs continuity_refs : option (list reference)) (b : board) :
  truthy consistency_refs = false -> consistency b = ∅ ->
  consistency (snd (process py_repr now consistency_refs continuity_refs b))
  = if parses (experts b) && compares continuity_refs (experts b)
    then {[ "comparisonStatus" := no_reference_status ]} else ∅.
Proof.
  intros Ht He. rewrite process_run.
  destruct (parse_spec (log (Call "process") b)) as [Hret Hpo].
  change (experts (log (Call "process") b)) with (experts b) in Hret.
  destruct Hpo as (Hex & Hcs & _).
  destruct (parse (log (Call "process") b)) as [[[]|ex] b1]; simpl in *; rewrite <- Hret.
  2:{ simpl. by rewrite Hcs. }
  assert (H1 : consistency b1 = ∅) by (by rewrite Hcs).
  rewrite Ht. change (false || truthy continuity_refs) with (truthy continuity_refs).
  change (true && compares continuity_refs (experts b))
    with (compares continuity_refs (experts b)).
  set (mid := if truthy continuity_refs then _ else _).
  assert (Hmid : consistency (snd (mid b1))
                 = if compares continuity_refs (experts b)
                   then {[ "comparisonStatus" := no_reference_status ]} else ∅).
  { unfold mid. destruct (truthy continuity_refs) eqn:Hk.
    - rewrite <- Hex. by apply compare_without_consistency.
    - unfold compares. rewrite Hk. simpl.
      unfold bind, _notify_no_ref_resource, modify. simpl. destruct b1; simpl in *.
      rewrite H1. by rewrite insert_empty. }
  destruct (mid b1) as [[[]|e] b2]; [|done]. rewrite dump_spec. done.
Qed.

End Verdicts.

(** *** The constructor *)

Section Construction.
Variable py_repr : value -> string.
Variable outputexpert : gmap string value -> option expert.

Lemma add_experts_spec (l : list (gmap string value)) (panel : list expert) :
  (Forall (fun d => ~ refused outputexpert d) l
   /\ for_each l (add_expert py_repr outputexpert) panel
      = (Returned tt, panel ++ omap outputexpert l))
  \/ (exists l1 d l2, l = l1 ++ d :: l2 /\ Forall (fun d => ~ refused outputexpert d) l1 /\ refused outputexpert d
      /\ for_each l (add_expert py_repr outputexpert) panel
         = (Raised (ExpertError ("No Expert was found for attributes: "
                                 +:+ py_repr (VDict d))),
            panel ++ omap outputexpert l1)).
Proof.
  revert panel. induction l as [|d l IH]; intros panel; simpl.
  { left. split; [constructor|]. unfold ret. by rewrite app_nil_r. }
  unfold bind, add_expert at 1 3. destruct (outputexpert d) as [e|] eqn:Ed.
  - unfold modify. destruct (IH (panel ++ [e])) as [[Hl ->]|(l1 & d' & l2 & -> & Hl1 & Hd' & ->)].
    + left. split.
      * constructor; [|done]. intros [H _]. congruence.
      * by rewrite <- app_assoc.
    + right. exists (d :: l1), d', l2. split; [done|]. split.
      * constructor; [|done]. intros [H _]. congruence.
      * split; [done|]. simpl. rewrite Ed. by rewrite <- app_assoc.
  - destruct (truth (default (VBool true) (d !! "fatal_exceptions"))) eqn:Ef.
    + right. exists [], d, l. split; [done|]. split; [constructor|]. split; [done|].
      unfold raise. simpl. by rewrite app_nil_r.
    + unfold ret. destruct (IH panel) as [[Hl ->]|(l1 & d' & l2 & -> & Hl1 & Hd' & ->)].
      * left. split; [|done]. constructor; [|done]. intros [_ H]. congruence.
      * right. exists (d :: l1), d', l2. split; [done|]. split.
        { constructor; [|done]. intros [_ H]. congruence. }
        split; [done|]. simpl. by rewrite Ed.
Qed.

(** X12: the constructor keeps, in their order, the experts found for
    the descriptions; a description for which none is found is skipped
    when it sets 'fatal_exceptions' to a false value, and otherwise the
    first such description stops the construction with ExpertError. The
    board starts with the status 'Ended' and empty comparison
    summaries. *)
Theorem board_holds_the_experts_found (descriptions : list (gmap string value))
    (lead : lead_argument) :
  match __init__ py_repr outputexpert descriptions lead with
  | Returned b =>
      Forall (fun d => ~ refused outputexpert d) descriptions
      /\ experts b = omap outputexpert descriptions
      /\ task_summary b = {[ "Status" := task_ended ]}
      /\ consistency b = ∅ /\ continuity b = ∅ /\ trace b = []
  | Raised e =>
      exists l1 d l2, descriptions = l1 ++ d :: l2
        /\ Forall (fun d => ~ refused outputexpert d) l1 /\ refused outputexpert d
        /\ e = ExpertError ("No Expert was found for attributes: " +:+ py_repr (VDict d))
  end.
Proof.
  unfold __init__.
  destruct (add_experts_spec descriptions []) as [[Hl ->]|(l1 & d & l2 & -> & Hl1 & Hd & ->)].
  - done.
  - exists l1, d, l2. done.
Qed.

End Construction.

Lemma split_nonempty c s : split c s <> [].
Proof.
  destruct s as [|a s]; simpl; [done|].
  destruct (Ascii.eqb a c); [done|]. by destruct (split c s).
Qed.

(** *** The listings *)

Section Listings.
Variable resource_kind : string -> string.
Variable locate : string -> string.

(** X13: [remember_listings] raises ExpertError when more than one
    listing is promised, or when more than one continuity reference is
    a listing, and it leaves the board as it was. *)
Theorem remember_listings_refuses_two (promises : list string)
    (continuity_refs : option (list reference)) (b : board) :
  ((2 <= length (listings resource_kind promises))%nat ->
   remember_listings resource_kind locate promises continuity_refs b
   = (Raised (ExpertError "More than one promised listing."), b))
  /\ ((length (listings resource_kind promises) <= 1)%nat ->
      truthy continuity_refs = true ->
      (2 <= length (listings resource_kind (map rh (default [] continuity_refs))))%nat ->
      remember_listings resource_kind locate promises continuity_refs b
      = (Raised (ExpertError "More than one continuity reference listing."), b)).
Proof.
  unfold remember_listings. split.
  - intros H. destruct (listings _ promises) as [|r1 [|r2 l]]; simpl in H; try lia. done.
  - intros H1 Ht H2. rewrite Ht.
    destruct (listings _ promises) as [|r1 [|r2 l]]; simpl in H1; try lia;
      destruct (listings _ (map rh (default [] continuity_refs))) as [|q1 [|q2 k]];
      simpl in H2; try lia; done.
Qed.

(** X14: when [remember_listings] returns, the task summary holds the
    uris of the promised listing under 'Listing', if one is promised; the
    continuity summary holds the uris of both listings under 'Listings',
    if a continuity reference is a listing, with no test uri when no
    listing is promised; the rest of the board is as it was. *)
Theorem remember_listings_saves (promises : list string)
    (continuity_refs : option (list reference)) (b : board) :
  fst (remember_listings resource_kind locate promises continuity_refs b) = Returned tt ->
  let b' := snd (remember_listings resource_kind locate promises continuity_refs b) in
  let test_listing :=
    match listings resource_kind promises with
    | [rh] => split semicolon (locate rh)
    | _ => []
    end in
  (forall rh, listings resource_kind promises = [rh] ->
     task_summary b' !! "Listing"
     = Some (VDict {[ "Task listing uri(s)" := uris test_listing ]}))
  /\ (listings resource_kind promises = [] -> task_summary b' = task_summary b)
  /\ (forall rh, truthy continuity_refs = true ->
        listings resource_kind (map Expertise.rh (default [] continuity_refs)) = [rh] ->
        continuity b' !! "Listings"
        = Some (VDict {[ "Compare listings at uri(s)" :=
                           VDict (<["test" := uris test_listing]>
                                 (<["ref" := uris (split semicolon (locate rh))]> ∅)) ]}))
  /\ consistency b' = consistency b /\ experts b' = experts b /\ trace b' = trace b.
Proof.
  intros H.
  destruct (remember_listings resource_kind locate promises continuity_refs b)
    as [o b'] eqn:E.
  simpl in H. subst o. simpl. clear -E. rename E into H. revert H.
  unfold remember_listings. intros H.
  destruct (listings _ promises) as [|r1 [|r2 l]]; [| |discriminate].
  - unfold bind at 1, ret at 1 in H.
    split; [intros rh; discriminate|].
    destruct (truthy continuity_refs).
    + destruct (listings _ (map rh (default [] continuity_refs))) as [|q1 [|q2 k]];
        [| |discriminate].
      * unfold bind, ret in H. injection H as <-.
        split; [done|]. split; [intros rh _; discriminate|done].
      * unfold bind at 1, ret at 1 in H.
        pose proof (split_nonempty semicolon (locate q1)) as Hne.
        destruct (split semicolon (locate q1)) as [|u us] eqn:Eu; [done|].
        unfold bind, ret, modify in H. injection H as <-. destruct b; simpl.
        split; [done|]. split; [|done].
        intros rh _ [= <-]. rewrite Eu. by rewrite lookup_insert_eq.
    + unfold bind, ret in H. injection H as <-.
      split; [done|]. split; [intros rh; discriminate|done].
  - unfold bind at 1, ret at 1 in H.
    pose proof (split_nonempty semicolon (locate r1)) as Hne1.
    destruct (split semicolon (locate r1)) as [|t ts] eqn:Et; [done|].
    split; [|split; [discriminate|]].
    { intros rh _. revert H. destruct (truthy continuity_refs).
      - destruct (listings _ (map Expertise.rh (default [] continuity_refs)))
          as [|q1 [|q2 k]]; [| |discriminate].
        + unfold bind, ret, modify. intros [= <-]. destruct b; simpl.
          by rewrite lookup_insert_eq.
        + unfold bind at 1, ret at 1.
          pose proof (split_nonempty semicolon (locate q1)) as Hne.
          destruct (split semicolon (locate q1)) as [|u us] eqn:Eu; [done|].
          unfold bind, ret, modify. intros [= <-]. destruct b; simpl.
          by rewrite lookup_insert_eq.
      - unfold bind, ret, modify. intros [= <-]. destruct b; simpl.
        by rewrite lookup_insert_eq. }
    destruct (truthy continuity_refs).
    + destruct (listings _ (map rh (default [] continuity_refs))) as [|q1 [|q2 k]];
        [| |discriminate].
      * unfold bind, ret, modify in H. injection H as <-. destruct b; simpl.
        split; [intros rh _; discriminate|done].
      * unfold bind at 1, ret at 1 in H.
        pose proof (split_nonempty semicolon (locate q1)) as Hne.
        destruct (split semicolon (locate q1)) as [|u us] eqn:Eu; [done|].
        unfold bind, ret, modify in H. injection H as <-. destruct b; simpl.
        split; [|done]. intros rh _ [= <-]. rewrite Eu. by rewrite lookup_insert_eq.
    + unfold bind, ret, modify in H. injection H as <-. destruct b; simpl.
      split; [intros rh; discriminate|done].
Qed.

End Listings.

(** *** Runs of the statements above *)

Lemma severity_is_the_worst_verdict_witness :
  fst (_status Samples.sample_repr continuity_ Samples.ok_and_failed) = Returned tt
  /\ rank (continuity (snd (_status Samples.sample_repr continuity_ Samples.ok_and_failed)))
     = Some (list_max (map (fun e => severity (verdict Samples.sample_repr e
                                                 (continuity Samples.ok_and_failed)))
                           (stating (experts Samples.ok_and_failed)))).
Proof.
  apply (severity_is_the_worst_verdict Samples.sample_repr continuity_ Samples.ok_and_failed).
  - intros E. apply (f_equal (fun m : gmap string value => m !! "norms")) in E.
    vm_compute in E. discriminate.
  - intros e He. apply elem_of_cons in He as [->|He].
    + discriminate.
    + apply list_elem_of_singleton in He. subst e. discriminate.
  - intros e v He Hv. apply elem_of_cons in He as [->|He].
    + vm_compute in Hv. injection Hv as <-. vm_compute. auto.
    + apply list_elem_of_singleton in He. subst e.
      vm_compute in Hv. injection Hv as <-. vm_compute. auto.
Defined.

Lemma worst_verdicts_are_gathered_witness :
  status_text (continuity (snd (_status Samples.sample_repr continuity_ Samples.ok_and_ok)))
  = Some (VStr (String.concat " | "
       (map text_of
          (filter (fun v => has_symbol "OK" v = true)
             (map (fun e => verdict Samples.sample_repr e (continuity Samples.ok_and_ok))
                  (stating (experts Samples.ok_and_ok))))))).
Proof.
  apply (worst_verdicts_are_gathered Samples.sample_repr continuity_ Samples.ok_and_ok "OK").
  - intros E. apply (f_equal (fun m : gmap string value => m !! "norms")) in E.
    vm_compute in E. discriminate.
  - intros e He. apply elem_of_cons in He as [->|He].
    + discriminate.
    + apply list_elem_of_singleton in He. subst e. discriminate.
  - intros e v He Hv. apply elem_of_cons in He as [->|He].
    + vm_compute in Hv. injection Hv as <-. vm_compute. auto.
    + apply list_elem_of_singleton in He. subst e.
      vm_compute in Hv. injection Hv as <-. vm_compute. auto.
  - vm_compute. reflexivity.
  - left. reflexivity.
Defined.

Lemma lead_expert_is_settled_witness :
  lead_expert (snd (_status Samples.sample_repr continuity_ Samples.side_failed))
  = chosen_lead Samples.side_failed
  /\ forall x, chosen_lead Samples.side_failed = Some x ->
       continuity (snd (_status Samples.sample_repr continuity_ Samples.side_failed))
         !! "leadExpert" = Some (VStr x).
Proof.
  apply (lead_expert_is_settled Samples.sample_repr continuity_ Samples.side_failed).
  - intros E. apply (f_equal (fun m : gmap string value => m !! "norms")) in E.
    vm_compute in E. discriminate.
  - vm_compute. reflexivity.
Defined.

Lemma default_status_means_nobody_states_witness :
  exists i,
    rank (continuity (snd (_status Samples.sample_repr continuity_ Samples.ok_and_failed)))
    = Some i /\ (1 <= i)%nat.
Proof.
  apply (default_status_means_nobody_states Samples.sample_repr continuity_
           Samples.ok_and_failed).
  - intros E. apply (f_equal (fun m : gmap string value => m !! "norms")) in E.
    vm_compute in E. discriminate.
  - vm_compute. discriminate.
  - vm_compute. reflexivity.
Defined.

Lemma side_experts_alone_leave_the_default_witness :
  fst (_status Samples.sample_repr continuity_ Samples.side_alone) = Returned tt
  /\ continuity (snd (_status Samples.sample_repr continuity_ Samples.side_alone))
       !! "comparisonStatus"
     = Some (mk_status "-" "- No expert -" "No expert available").
Proof.
  apply (side_experts_alone_leave_the_default Samples.sample_repr continuity_
           Samples.side_alone).
  - intros E. apply (f_equal (fun m : gmap string value => m !! "drhook")) in E.
    vm_compute in E. discriminate.
  - intros e He. apply list_elem_of_singleton in He. subst e. reflexivity.
  - intros e v He Hv. apply list_elem_of_singleton in He. subst e.
    vm_compute in Hv. injection Hv as <-. vm_compute. auto.
Defined.

Lemma compare_refuses_mixed_tasks_witness :
  compare Samples.sample_repr (Some Samples.mixed_references) None Samples.fresh
  = (Raised (ExpertError
       "Consistency reference resources must all come from the same 'task'."),
     log (Call "compare") Samples.fresh).
Proof.
  apply (compare_refuses_mixed_tasks Samples.sample_repr Samples.mixed_references None
           Samples.fresh (Reference "historic.forecast" "forecast")
           (Reference "historic.analysis" "analysis")).
  - left.
  - right. left.
  - discriminate.
Defined.

Lemma process_dumps_what_it_leaves_witness :
  let b' := snd (process Samples.sample_repr "2020-01-01T00:00:00" None None Samples.fresh) in
  (exists evs, trace b' = trace Samples.fresh ++ evs
     ++ [Call "dump"; Dump "task_summary.json" (task_summary b');
         Dump "task_consistency.json" (consistency b');
         Dump "task_continuity.json" (continuity b')])
  /\ task_summary b' !! "Updated" = Some (VStr "2020-01-01T00:00:00").
Proof.
  apply (process_dumps_what_it_leaves Samples.sample_repr "2020-01-01T00:00:00" None None
           Samples.fresh).
  vm_compute. reflexivity.
Defined.

Lemma process_raising_writes_no_comparison_witness :
  ((exists e, e ∈ experts Samples.unparsable
              /\ parse_ e = Raised (ExpertError "Output file not found: NODE.001_01"))
   \/ truthy (@None (list reference)) || truthy (@None (list reference)) = true)
  /\ exists evs,
       trace (snd (process Samples.sample_repr "2020-01-01T00:00:00" None None
                     Samples.unparsable))
       = trace Samples.unparsable ++ evs
       /\ Forall (fun ev => writes_comparison ev = false) evs.
Proof.
  apply (process_raising_writes_no_comparison Samples.sample_repr "2020-01-01T00:00:00"
           None None Samples.unparsable
           (ExpertError "Output file not found: NODE.001_01")).
  vm_compute. reflexivity.
Defined.

Lemma category_without_reference_reads_so_witness :
  consistency (snd (process Samples.sample_repr "2020-01-01T00:00:00" None
                      (Some [Reference "historic.forecast" "forecast"]) Samples.fresh))
  = if parses (experts Samples.fresh)
       && compares (Some [Reference "historic.forecast" "forecast"]) (experts Samples.fresh)
    then {[ "comparisonStatus" := no_reference_status ]} else ∅.
Proof.
  apply (category_without_reference_reads_so Samples.sample_repr "2020-01-01T00:00:00" None
           (Some [Reference "historic.forecast" "forecast"]) Samples.fresh).
  - reflexivity.
  - reflexivity.
Defined.

Lemma remember_listings_saves_witness :
  let b' := snd (remember_listings Samples.sample_kind Samples.sample_locate
                   ["historic"; "listing"] (Some [Reference "plisting" "forecast"])
                   Samples.fresh) in
  let test_listing :=
    match listings Samples.sample_kind ["historic"; "listing"] with
    | [rh] => split semicolon (Samples.sample_locate rh)
    | _ => []
    end in
  (forall rh, listings Samples.sample_kind ["historic"; "listing"] = [rh] ->
     task_summary b' !! "Listing"
     = Some (VDict {[ "Task listing uri(s)" := uris test_listing ]}))
  /\ (listings Samples.sample_kind ["historic"; "listing"] = [] ->
      task_summary b' = task_summary Samples.fresh)
  /\ (forall rh, truthy (Some [Reference "plisting" "forecast"]) = true ->
        listings Samples.sample_kind
          (map Expertise.rh (default [] (Some [Reference "plisting" "forecast"]))) = [rh] ->
        continuity b' !! "Listings"
        = Some (VDict {[ "Compare listings at uri(s)" :=
                           VDict (<["test" := uris test_listing]>
                                 (<["ref" := uris (split semicolon (Samples.sample_locate rh))]>
                                    ∅)) ]}))
  /\ consistency b' = consistency Samples.fresh /\ experts b' = experts Samples.fresh
  /\ trace b' = trace Samples.fresh.
Proof.
  apply (remember_listings_saves Samples.sample_kind Samples.sample_locate
           ["historic"; "listing"] (Some [Reference "plisting" "forecast"]) Samples.fresh).
  vm_compute. reflexivity.
Defined.

End ExpertiseProofs.

(* ===================================================================== *)
(** * Properties of the comparison of files                               *)
(* ===================================================================== *)

Module FieldsProofs.
Import Py Fields.

(** ** The order of floats *)

Lemma SFcompare_refl x : x <> S754_nan -> SFcompare x x = Some Eq.
Proof.
  destruct x as [s|s| |s m e]; intros H; try done; simpl.
  - by destruct s.
  - rewrite Z.compare_refl, Pos.compare_cont_refl. by destruct s.
Qed.

Lemma float_leb_refl x : PrimFloat.is_nan x = false -> PrimFloat.leb x x = true.
Proof.
  unfold PrimFloat.is_nan. rewrite FloatAxioms.eqb_spec, FloatAxioms.leb_spec. unfold SFeqb, SFleb.
  destruct (SFcompare _ _) as [[]|]; done.
Qed.

Lemma float_ltb_leb x y : PrimFloat.ltb x y = true -> PrimFloat.leb x y = true.
Proof.
  rewrite FloatAxioms.ltb_spec, FloatAxioms.leb_spec. unfold SFltb, SFleb.
  destruct (SFcompare _ _) as [[]|]; done.
Qed.

Lemma float_ltb_not_nan x y : PrimFloat.ltb x y = true -> PrimFloat.is_nan y = false.
Proof.
  unfold PrimFloat.is_nan. rewrite FloatAxioms.ltb_spec, FloatAxioms.eqb_spec. unfold SFltb, SFeqb.
  intros H. rewrite SFcompare_refl; [done|].
  intros E. rewrite E in H. by destruct (Prim2SF x).
Qed.

Lemma SFleb_trans a b c : SFleb a b = true -> SFleb b c = true -> SFleb a c = true.
Proof.
  unfold SFleb, SFcompare.
  destruct a as [sa|sa| |sa ma ea], b as [sb|sb| |sb mb eb], c as [sc|sc| |sc mc ec];
    try destruct sa; try destruct sb; try destruct sc; try done.
  - destruct (Z.compare_spec ea eb), (Z.compare_spec eb ec), (Z.compare_spec ea ec);
      try done; try lia; subst.
    rewrite !Pos.compare_cont_spec. simpl.
    destruct (Pos.compare_spec ma mb), (Pos.compare_spec mb mc), (Pos.compare_spec ma mc);
      simpl; try done; try lia.
  - destruct (Z.compare_spec ea eb), (Z.compare_spec eb ec), (Z.compare_spec ea ec);
      try done; try lia; subst.
    rewrite !Pos.compare_cont_spec. simpl.
    destruct (Pos.compare_spec ma mb), (Pos.compare_spec mb mc), (Pos.compare_spec ma mc);
      simpl; try done; try lia.
Qed.

Lemma float_leb_trans x y z :
  PrimFloat.leb x y = true -> PrimFloat.leb y z = true -> PrimFloat.leb x z = true.
Proof. rewrite !FloatAxioms.leb_spec. apply SFleb_trans. Qed.


(** ** The comparison of one field and the loop over the common fields *)

Lemma obind_returned {A B} (o : outcome A) (k : A -> outcome B) b :
  obind o k = Returned b -> exists a, o = Returned a /\ k a = Returned b.
Proof. destruct o as [a|e]; simpl; intros H; [eauto|discriminate]. Qed.


Section Comparison.
Variable X : externals.

Lemma compare_2_fields_accumulates t r f acc im vb thr status m :
  compare_2_fields X t r f acc im vb thr = Returned (status, m) ->
  m = acc \/ PrimFloat.ltb acc m = true.
Proof.
  unfold compare_2_fields. intros H.
  apply obind_returned in H as (tfld & _ & H).
  apply obind_returned in H as (rfld & _ & H).
  apply obind_returned in H as (tfld' & _ & H).
  apply obind_returned in H as (rfld' & _ & H).
  apply obind_returned in H as ([st v] & _ & H).
  destruct (negb (bool_decide _)).
  { injection H as _ <-. auto. }
  destruct (negb _).
  - apply obind_returned in H as ([dd cm] & _ & H).
    apply obind_returned in H as (loc_max & _ & H).
    injection H as _ <-. destruct (PrimFloat.ltb acc loc_max) eqn:E; auto.
  - injection H as _ <-. auto.
Qed.

Lemma compare_2_fields_monotone t r f acc im vb thr status m :
  PrimFloat.is_nan acc = false ->
  compare_2_fields X t r f acc im vb thr = Returned (status, m) ->
  PrimFloat.leb acc m = true /\ PrimFloat.is_nan m = false.
Proof.
  intros Hn H. apply compare_2_fields_accumulates in H as [->|H].
  - split; [by apply float_leb_refl|done].
  - split; [by apply float_ltb_leb|by apply float_ltb_not_nan in H].
Qed.

Lemma compare_common_field_monotone t r im hide fatal thr f st st' :
  PrimFloat.is_nan (max_normalized_diff st) = false ->
  compare_common_field X t r im hide fatal thr f st = Returned st' ->
  PrimFloat.leb (max_normalized_diff st) (max_normalized_diff st') = true
  /\ PrimFloat.is_nan (max_normalized_diff st') = false.
Proof.
  intros Hn. unfold compare_common_field.
  destruct (ignore_field f).
  { intros [= <-]. split; [by apply float_leb_refl|done]. }
  destruct (compare_2_fields _ _ _ _ _ _ _ _) as [[status m]|e] eqn:E.
  - intros [= <-]. simpl. by apply compare_2_fields_monotone in E.
  - destruct fatal; [discriminate|]. intros [= <-]. simpl.
    split; [by apply float_leb_refl|done].
Qed.

Lemma for_fields_monotone t r im hide fatal thr l st st' :
  PrimFloat.is_nan (max_normalized_diff st) = false ->
  for_fields (compare_common_field X t r im hide fatal thr) l st = Returned st' ->
  PrimFloat.leb (max_normalized_diff st) (max_normalized_diff st') = true
  /\ PrimFloat.is_nan (max_normalized_diff st') = false.
Proof.
  revert st. induction l as [|f l IH]; intros st Hn; simpl.
  - intros [= <-]. split; [by apply float_leb_refl|done].
  - intros H. apply obind_returned in H as (st1 & H1 & H).
    apply compare_common_field_monotone in H1 as [Hle Hn1]; [|done].
    destruct (IH st1 Hn1 H) as [Hle' Hn']. split; [|done].
    by apply (float_leb_trans _ (max_normalized_diff st1)).
Qed.

Lemma for_fields_ignored body l st :
  (forall f st, f ∈ l -> body f st = Returned st) ->
  for_fields body l st = Returned st.
Proof.
  induction l as [|f l IH]; intros H; simpl; [done|].
  rewrite H by left. simpl. apply IH. intros g st' Hg. apply H. by right.
Qed.

Lemma for_fields_ext body body' l st :
  (forall f st, f ∈ l -> body f st = body' f st) ->
  for_fields body l st = for_fields body' l st.
Proof.
  revert st. induction l as [|f l IH]; intros st H; simpl; [done|].
  rewrite H by left. destruct (body' f st); simpl; [|done].
  apply IH. intros g st' Hg. apply H. by right.
Qed.

Lemma as_strings_Some l ss : as_strings l = Some ss -> l = map FidStr ss.
Proof.
  revert ss. induction l as [|[s|k] l IH]; intros ss; simpl; [by intros [= <-]| |done].
  destruct (as_strings l) as [ss'|]; simpl; [|done].
  intros [= <-]. simpl. by rewrite (IH ss').
Qed.

Lemma as_strings_ignored l :
  (forall f, f ∈ l -> ignore_field f = true) -> exists ss, as_strings l = Some ss.
Proof.
  induction l as [|[s|k] l IH]; intros H; simpl.
  - eauto.
  - destruct IH as [ss ->]; [intros f Hf; apply H; by right|]. simpl. eauto.
  - specialize (H (FidKey k)). simpl in H. discriminate H. left.
Qed.

Lemma sorted_elem l l' f : sorted l = Returned l' -> f ∈ l' -> f ∈ l.
Proof.
  unfold sorted. destruct (as_strings l) as [ss|] eqn:E; [|done].
  intros [= <-] Hf. apply as_strings_Some in E. subst l.
  apply list_elem_of_fmap in Hf as (s & -> & Hs). apply list_elem_of_fmap. exists s. split; [done|].
  by rewrite merge_sort_Permutation in Hs.
Qed.

Lemma common_fields_elem t r l f :
  common_fields t r = Returned l -> f ∈ l -> f ∈ listfields t /\ f ∈ listfields r.
Proof.
  unfold common_fields. intros H Hf.
  assert (Hin : f ∈ filter (fun f => f ∈ listfields r) (listfields t)).
  { destruct (filter _ _) as [|[s|k] l0] eqn:E.
    - injection H as <-. done.
    - by apply (sorted_elem _ _ _ H).
    - injection H as <-. done. }
  apply list_elem_of_filter in Hin. tauto.
Qed.

Lemma common_fields_ignored t r :
  (forall f, f ∈ listfields t -> f ∈ listfields r -> ignore_field f = true) ->
  exists l, common_fields t r = Returned l.
Proof.
  intros H. unfold common_fields.
  destruct (filter _ _) as [|[s|k] l0] eqn:E; eauto.
  unfold sorted. destruct (as_strings_ignored (FidStr s :: l0)) as [ss ->]; eauto.
  intros f Hf. rewrite <- E in Hf. apply list_elem_of_filter in Hf as [? ?]. auto.
Qed.


(** Whatever the dtype, the flag 'Data bit-repro' of two fields of one
    shape is the exact equality of their data. *)
Lemma bit_repro_flag_is_exact_equality t r f acc im vb thr tfld rfld status m :
  readfield t f = Returned tfld ->
  readfield r f = Returned rfld ->
  spectral tfld = false ->
  spectral rfld = false ->
  shape (data tfld) = shape (data rfld) ->
  compare_2_fields X t r f acc im vb thr = Returned (status, m) ->
  Data_bit_repro status = Some (all_equal (data tfld) (data rfld)).
Proof.
  intros Ht Hr Hst Hsr Hshape. unfold compare_2_fields.
  rewrite Ht, Hr. simpl obind. rewrite Hst, Hsr, !andb_false_r. simpl obind.
  intros H. apply obind_returned in H as ([st v] & Hmeta & H).
  assert (Hst0 : Data_bit_repro st = None /\ True).
  { destruct (negb (is_MiscField tfld) && negb im).
    - apply obind_returned in Hmeta as (vd & _ & Hmeta).
      apply obind_returned in Hmeta as (gd & _ & Hmeta). by injection Hmeta as <- _.
    - by injection Hmeta as <- _. }
  rewrite bool_decide_eq_true_2 in H by done. simpl negb in H. cbv iota in H.
  unfold isinstance_int_float in H.
  destruct (negb (all_equal (data tfld) (data rfld))) eqn:E.
  - apply obind_returned in H as ([dd cm] & _ & H).
    apply obind_returned in H as (loc_max & _ & H). by injection H as <- _.
  - by injection H as <- _.
Qed.

(** C10. When every common field matches the ignore rule (or there is
    none), [compare_2_files] returns, no field status is recorded,
    'Bit-reproducible' is True, and 'Validated' is True when orphans are
    ignored. *)
Theorem empty_common_set_is_validated (t r : resource)
    (ignore_meta ignore_orphan_fields hide_bit_repro_fields validate_if_bit_repro_only : bool)
    (threshold : float) (fatal_exceptions : bool) :
  (forall f, f ∈ listfields t -> f ∈ listfields r -> ignore_field f = true) ->
  exists c,
    compare_2_files X t r ignore_meta ignore_orphan_fields hide_bit_repro_fields
                    validate_if_bit_repro_only threshold fatal_exceptions = Returned c
    /\ comp_Common_fields_differences c = ∅
    /\ comp_Bit_reproducible c = true
    /\ (ignore_orphan_fields = true -> comp_Validated c = true).
Proof.
  intros H. unfold compare_2_files.
  destruct (common_fields_ignored t r H) as [l Hl]. rewrite Hl. simpl obind.
  rewrite for_fields_ignored.
  2:{ intros f st Hf. unfold compare_common_field.
      destruct (common_fields_elem t r l f Hl Hf) as [Ht Hr]. by rewrite (H f Ht Hr). }
  simpl. eexists. split; [reflexivity|]. simpl. split; [done|]. split; [done|].
  intros ->. done.
Qed.

(** C6 (as amended). A field identity that matches the ignore rule is
    never compared as a common field: what reading it from either file
    gives has no effect on the result. The lists of new and lost fields
    are drawn from the two listings whatever the rule says, so such a
    field held by one file only is listed there, and forces 'Validated'
    to False unless orphans are ignored. *)
Theorem ignored_field_only_skipped_as_common (t r : resource)
    (ignore_meta ignore_orphan_fields hide_bit_repro_fields validate_if_bit_repro_only : bool)
    (threshold : float) (fatal_exceptions : bool) (f : fid) :
  ignore_field f = true ->
  (forall t' r',
     listfields t' = listfields t -> listfields r' = listfields r ->
     (forall g, g <> f -> readfield t' g = readfield t g /\ readfield r' g = readfield r g) ->
     compare_2_files X t' r' ignore_meta ignore_orphan_fields hide_bit_repro_fields
                     validate_if_bit_repro_only threshold fatal_exceptions
     = compare_2_files X t r ignore_meta ignore_orphan_fields hide_bit_repro_fields
                       validate_if_bit_repro_only threshold fatal_exceptions)
  /\ (forall c,
        compare_2_files X t r ignore_meta ignore_orphan_fields hide_bit_repro_fields
                        validate_if_bit_repro_only threshold fatal_exceptions = Returned c ->
        (f ∈ default [] (comp_New_fields c) <-> f ∈ listfields t /\ f ∉ listfields r)
        /\ (f ∈ default [] (comp_Lost_fields c) <-> f ∈ listfields r /\ f ∉ listfields t)
        /\ (ignore_orphan_fields = false ->
            (f ∈ listfields t /\ f ∉ listfields r) \/ (f ∈ listfields r /\ f ∉ listfields t) ->
            comp_Validated c = false)).
Proof.
  intros Hf. split.
  - intros t' r' Ht Hr Hread. unfold compare_2_files, common_fields. rewrite Ht, Hr.
    destruct (match filter _ _ with FidStr _ :: _ => _ | _ => _ end) as [l|e]; [|done].
    simpl obind.
    rewrite (for_fields_ext
      (compare_common_field X t' r' ignore_meta hide_bit_repro_fields fatal_exceptions threshold)
      (compare_common_field X t r ignore_meta hide_bit_repro_fields fatal_exceptions threshold));
      [done|].
    intros g st _. unfold compare_common_field.
    destruct (ignore_field g) eqn:Eg; [done|].
    assert (Hg : g <> f) by (intros ->; congruence).
    destruct (Hread g Hg) as [E1 E2]. unfold compare_2_fields. by rewrite E1, E2.
  - intros c H. unfold compare_2_files in H.
    apply obind_returned in H as (l & _ & H). apply obind_returned in H as (st & _ & H).
    injection H as <-. simpl.
    assert (Hor : forall l : list fid, f ∈ default [] (or_None l) <-> f ∈ l).
    { intros [|x l']; simpl; [|done]. done. }
    rewrite !Hor, !list_elem_of_filter.
    split; [tauto|]. split; [tauto|].
    intros -> Horphan. simpl.
    destruct (filter _ (listfields t) ++ filter _ (listfields r)) as [|x l'] eqn:E; [|done].
    apply app_eq_nil in E as [E1 E2].
    destruct Horphan as [[H1 H2]|[H1 H2]].
    + assert (Hin : f ∈ filter (fun f => f ∉ listfields r) (listfields t))
        by (by apply list_elem_of_filter).
      rewrite E1 in Hin. by apply elem_of_nil in Hin.
    + assert (Hin : f ∈ filter (fun f => f ∉ listfields t) (listfields r))
        by (by apply list_elem_of_filter).
      rewrite E2 in Hin. by apply elem_of_nil in Hin.
Qed.

(** C9 (as amended). When [compare_2_fields] returns, the accumulator
    it returns is at least the one it was given, provided that one is
    not NaN; and over the common fields of one file pair, where the
    accumulator starts from 0, the running maximum after any later field
    is at least what it was after any earlier one. *)
Theorem running_maximum_is_monotone (t r : resource)
    (ignore_meta hide_bit_repro_fields fatal_exceptions : bool) (threshold : float) :
  (forall f acc validate_if_bit_repro_only status m,
     PrimFloat.is_nan acc = false ->
     compare_2_fields X t r f acc ignore_meta validate_if_bit_repro_only threshold
       = Returned (status, m) ->
     PrimFloat.leb acc m = true)
  /\ (forall l1 l2 st1 st2,
        common_fields t r = Returned (l1 ++ l2) ->
        for_fields (compare_common_field X t r ignore_meta hide_bit_repro_fields
                                         fatal_exceptions threshold)
                   l1 (LoopState ∅ 0%float []) = Returned st1 ->
        for_fields (compare_common_field X t r ignore_meta hide_bit_repro_fields
                                         fatal_exceptions threshold)
                   l2 st1 = Returned st2 ->
        PrimFloat.leb 0%float (max_normalized_diff st1) = true
        /\ PrimFloat.leb (max_normalized_diff st1) (max_normalized_diff st2) = true).
Proof.
  split.
  - intros f acc vb status m Hn H. by apply compare_2_fields_monotone in H as [? ?].
  - intros l1 l2 st1 st2 _ H1 H2.
    apply for_fields_monotone in H1 as [Hle Hn]; [|done].
    apply for_fields_monotone in H2 as [Hle' _]; done.
Qed.

End Comparison.

(** ** The comparison on sample files *)

Example a_file_against_itself :
  comp_Validated <$> returned (compare_2_files Samples.sample_externals
      Samples.orphans_test Samples.orphans_test false false true true 0.5%float true)
  = Some true
  /\ comp_Bit_reproducible <$> returned (compare_2_files Samples.sample_externals
      Samples.orphans_test Samples.orphans_test false false true true 0.5%float true)
     = Some true
  /\ comp_New_fields <$> returned (compare_2_files Samples.sample_externals
      Samples.orphans_test Samples.orphans_test false false true true 0.5%float true)
     = Some None
  /\ comp_Lost_fields <$> returned (compare_2_files Samples.sample_externals
      Samples.orphans_test Samples.orphans_test false false true true 0.5%float true)
     = Some None.
Proof. vm_compute. auto. Qed.

Example orphans_on_both_sides :
  comp_New_fields <$> returned (compare_2_files Samples.sample_externals
      Samples.orphans_test Samples.orphans_ref false false true true 0.5%float true)
  = Some (Some [FidStr "f2"])
  /\ comp_Lost_fields <$> returned (compare_2_files Samples.sample_externals
      Samples.orphans_test Samples.orphans_ref false false true true 0.5%float true)
     = Some (Some [FidStr "f3"])
  /\ comp_Validated <$> returned (compare_2_files Samples.sample_externals
      Samples.orphans_test Samples.orphans_ref false false true true 0.5%float true)
     = Some false
  /\ comp_Validated <$> returned (compare_2_files Samples.sample_externals
      Samples.orphans_test Samples.orphans_ref false true true true 0.5%float true)
     = Some true.
Proof. vm_compute. auto. Qed.

(** C4 fails for floating data: the test value is EPSILON away from the
    reference, and the flag 'Data bit-repro' is False all the same. *)
Theorem float_bit_repro_ignores_epsilon :
  dtype (FloatArray [1] [0x1p-52%float]) = float64
  /\ zip_all (fun x y => PrimFloat.leb (PrimFloat.abs (PrimFloat.sub x y))
                                       (EPSILON Samples.sample_externals))
             [0x1p-52%float] [0%float] = true
  /\ (fun r => Data_bit_repro (fst r))
       <$> returned (compare_2_fields Samples.sample_externals
                       Samples.within_epsilon_test Samples.within_epsilon_ref
                       (FidStr "T") 0%float false true 0.5%float)
     = Some (Some false).
Proof. vm_compute. auto. Qed.

(** C5 fails for a field of equal data and different validity: hidden, it
    leaves both aggregates True; shown, it makes both False. *)
Theorem hiding_changes_the_aggregates :
  (comp_Validated <$> returned (compare_2_files Samples.sample_externals
      Samples.meta_diff_test Samples.meta_diff_ref
      false false true true 0.5%float true) = Some true)
  /\ (comp_Bit_reproducible <$> returned (compare_2_files Samples.sample_externals
      Samples.meta_diff_test Samples.meta_diff_ref
      false false true true 0.5%float true) = Some true)
  /\ (comp_Validated <$> returned (compare_2_files Samples.sample_externals
      Samples.meta_diff_test Samples.meta_diff_ref
      false false false true 0.5%float true) = Some false)
  /\ (comp_Bit_reproducible <$> returned (compare_2_files Samples.sample_externals
      Samples.meta_diff_test Samples.meta_diff_ref
      false false false true 0.5%float true) = Some false).
Proof. vm_compute. auto. Qed.

(** C6, as stated, fails for a buffer field that the test file holds
    alone: it is listed as new, and 'Validated' is False although the
    only other field is identical (the reference against itself is
    validated). *)
Lemma ignored_orphan_is_listed_and_counted :
  ignore_field (FidStr "SFX._FBUF_A") = true
  /\ comp_New_fields <$> returned (compare_2_files Samples.sample_externals
       Samples.buffer_test Samples.buffer_ref false false true true 0.5%float true)
     = Some (Some [FidStr "SFX._FBUF_A"])
  /\ comp_Validated <$> returned (compare_2_files Samples.sample_externals
       Samples.buffer_test Samples.buffer_ref false false true true 0.5%float true)
     = Some false
  /\ comp_Validated <$> returned (compare_2_files Samples.sample_externals
       Samples.buffer_ref Samples.buffer_ref false false true true 0.5%float true)
     = Some true.
Proof. vm_compute. auto. Qed.

Lemma ignored_field_only_skipped_as_common_witness :
  (forall t' r',
     listfields t' = listfields Samples.only_buffer_test ->
     listfields r' = listfields Samples.only_buffer_ref ->
     (forall g, g <> FidStr "SFX._FBUF_A" ->
        readfield t' g = readfield Samples.only_buffer_test g
        /\ readfield r' g = readfield Samples.only_buffer_ref g) ->
     compare_2_files Samples.sample_externals t' r' false false true true 0.5%float true
     = compare_2_files Samples.sample_externals Samples.only_buffer_test
         Samples.only_buffer_ref false false true true 0.5%float true)
  /\ (forall c,
        compare_2_files Samples.sample_externals Samples.only_buffer_test
          Samples.only_buffer_ref false false true true 0.5%float true = Returned c ->
        (FidStr "SFX._FBUF_A" ∈ default [] (comp_New_fields c)
         <-> FidStr "SFX._FBUF_A" ∈ listfields Samples.only_buffer_test
             /\ FidStr "SFX._FBUF_A" ∉ listfields Samples.only_buffer_ref)
        /\ (FidStr "SFX._FBUF_A" ∈ default [] (comp_Lost_fields c)
            <-> FidStr "SFX._FBUF_A" ∈ listfields Samples.only_buffer_ref
                /\ FidStr "SFX._FBUF_A" ∉ listfields Samples.only_buffer_test)
        /\ (false = false ->
            (FidStr "SFX._FBUF_A" ∈ listfields Samples.only_buffer_test
             /\ FidStr "SFX._FBUF_A" ∉ listfields Samples.only_buffer_ref)
            \/ (FidStr "SFX._FBUF_A" ∈ listfields Samples.only_buffer_ref
                /\ FidStr "SFX._FBUF_A" ∉ listfields Samples.only_buffer_test) ->
            comp_Validated c = false)).
Proof.
  apply (ignored_field_only_skipped_as_common Samples.sample_externals
           Samples.only_buffer_test Samples.only_buffer_ref
           false false true true 0.5%float true (FidStr "SFX._FBUF_A")).
  reflexivity.
Defined.

(** C9, as stated, fails for an accumulator that is NaN: the call returns
    an accumulator that is not at least the one it was given. *)
Lemma nan_accumulator_is_not_exceeded :
  match returned (compare_2_fields Samples.sample_externals
                    Samples.within_epsilon_test Samples.within_epsilon_ref
                    (FidStr "T") nan false true 0.5%float) with
  | Some (_, m) => PrimFloat.leb nan m
  | None => true
  end = false.
Proof. vm_compute. reflexivity. Qed.

Lemma running_maximum_is_monotone_witness :
  match returned (compare_2_fields Samples.sample_externals
                    Samples.within_epsilon_test Samples.within_epsilon_ref
                    (FidStr "T") 0%float false true 0.5%float) with
  | Some (_, m) => PrimFloat.leb 0%float m = true
  | None => False
  end.
Proof.
  destruct (compare_2_fields Samples.sample_externals
              Samples.within_epsilon_test Samples.within_epsilon_ref
              (FidStr "T") 0%float false true 0.5%float) as [[status m]|e] eqn:E.
  - simpl.
    apply (proj1 (running_maximum_is_monotone Samples.sample_externals
                    Samples.within_epsilon_test Samples.within_epsilon_ref
                    false true true 0.5%float)
                 (FidStr "T") 0%float true status m); [reflexivity|exact E].
  - vm_compute in E. discriminate.
Defined.

Lemma empty_common_set_is_validated_witness :
  exists c,
    compare_2_files Samples.sample_externals Samples.only_buffer_test Samples.only_buffer_ref
                    false true true true 0.5%float true = Returned c
    /\ comp_Common_fields_differences c = ∅
    /\ comp_Bit_reproducible c = true
    /\ (true = true -> comp_Validated c = true).
Proof.
  apply (empty_common_set_is_validated Samples.sample_externals
           Samples.only_buffer_test Samples.only_buffer_ref false true true true 0.5%float true).
  intros f Ht Hr.
  apply elem_of_cons in Ht as [->|Ht]; [reflexivity|].
  apply list_elem_of_singleton in Ht. subst f.
  apply elem_of_cons in Hr as [Hr|Hr]; [discriminate|].
  apply list_elem_of_singleton in Hr. discriminate.
Defined.

(** ** What the aggregates of a file tell *)

Section Aggregates.
Variable X : externals.

Lemma compare_2_fields_status t r f acc im thr s m :
  compare_2_fields X t r f acc im true thr = Returned (s, m) ->
  Error_during_comparison s = None
  /\ (exists b, Data_bit_repro s = Some b /\ Validated s = Some (b && no_metadata_diff s))
  /\ (im = true -> Validity_diff s = None /\ Geometry_diff s = None).
Proof.
  unfold compare_2_fields. intros H.
  apply obind_returned in H as (tfld & _ & H).
  apply obind_returned in H as (rfld & _ & H).
  apply obind_returned in H as (tfld' & _ & H).
  apply obind_returned in H as (rfld' & _ & H).
  apply obind_returned in H as ([st v] & Hmeta & H).
  assert (Hst : Error_during_comparison st = None /\ Data_bit_repro st = None
                /\ v = no_metadata_diff st
                /\ (im = true -> Validity_diff st = None /\ Geometry_diff st = None)).
  { destruct (negb (is_MiscField tfld) && negb im) eqn:Em.
    - apply obind_returned in Hmeta as (vd & _ & Hmeta).
      apply obind_returned in Hmeta as (gd & _ & Hmeta). injection Hmeta as <- <-.
      unfold no_metadata_diff. simpl. split; [done|]. split; [done|].
      split; [by destruct (truth vd || truth gd)|].
      intros ->. by rewrite andb_false_r in Em.
    - injection Hmeta as <- <-. done. }
  destruct Hst as (He & Hb & -> & Him).
  destruct st as [vd gd nd br mc va er]. simpl in *. subst.
  unfold no_metadata_diff in *. simpl in *.
  destruct (negb (bool_decide _)).
  { injection H as <- _. simpl. split; [done|]. split; [|done]. by exists false. }
  destruct (negb _) eqn:Eb.
  - apply obind_returned in H as ([dd cm] & _ & H).
    apply obind_returned in H as (loc_max & _ & H).
    injection H as <- _. simpl. apply negb_true_iff in Eb. rewrite Eb.
    split; [done|]. split; [|done]. by exists false.
  - injection H as <- _. simpl. apply negb_false_iff in Eb. rewrite Eb.
    split; [done|]. split; [|done]. by exists true.
Qed.


(** *** What the loop records *)

Lemma all_status_true p (fs : gmap string field_status) :
  all_status p fs = true <-> map_Forall (fun _ s => p s = true) fs.
Proof.
  unfold all_status. rewrite forallb_forall. split.
  - intros H k s Hk. apply H. apply in_map_iff. exists (k, s). split; [done|].
    apply list_elem_of_In. by apply elem_of_map_to_list.
  - intros H s Hs. apply in_map_iff in Hs as ([k s'] & <- & Hin).
    apply list_elem_of_In, elem_of_map_to_list in Hin. by apply (H k).
Qed.

Lemma all_status_ext p q (fs : gmap string field_status) :
  map_Forall (fun _ s => p s = q s) fs -> all_status p fs = all_status q fs.
Proof.
  intros H. destruct (all_status q fs) eqn:E.
  - apply all_status_true. apply all_status_true in E. intros k s Hk.
    rewrite (H k s Hk). by apply (E k).
  - destruct (all_status p fs) eqn:E'; [|done]. rewrite <- E. symmetry.
    apply all_status_true. apply all_status_true in E'. intros k s Hk.
    rewrite <- (H k s Hk). by apply (E' k).
Qed.

Lemma all_status_empty p (fs : gmap string field_status) :
  map_Forall (fun _ s => p s = false) fs -> all_status p fs = bool_decide (fs = ∅).
Proof.
  intros H. destruct (decide (fs = ∅)) as [->|Hne].
  - by rewrite bool_decide_eq_true_2.
  - rewrite bool_decide_eq_false_2 by done. apply not_true_iff_false. intros E.
    apply all_status_true in E. apply map_choose in Hne as (k & s & Hk).
    specialize (H k s Hk). specialize (E k s Hk). simpl in *. congruence.
Qed.

Lemma for_fields_invariant (I : loop_state -> Prop) body l st st' :
  (forall f st st', f ∈ l -> I st -> body f st = Returned st' -> I st') ->
  I st -> for_fields body l st = Returned st' -> I st'.
Proof.
  revert st. induction l as [|f l IH]; intros st Hb Hi; simpl.
  - by intros [= <-].
  - intros H. apply obind_returned in H as (st1 & H1 & H).
    apply (IH st1); [|by apply (Hb f st st1); [left| |]|done].
    intros g s s' Hg. apply Hb. by right.
Qed.

Lemma recorded_statuses t r im hide fatal thr l st :
  for_fields (compare_common_field X t r im hide fatal thr) l (LoopState ∅ 0%float [])
    = Returned st ->
  map_Forall (fun _ s => as_recorded im hide s) (fields_status st).
Proof.
  apply (for_fields_invariant
           (fun st => map_Forall (fun _ s => as_recorded im hide s) (fields_status st))).
  2:{ simpl. apply map_Forall_empty. }
  clear st. intros f st st' _ Hi. unfold compare_common_field.
  destruct (ignore_field f); [by intros [= <-]|].
  assert (Hrec : forall s, recorded s ->
            (im = true -> Validity_diff s = None /\ Geometry_diff s = None) ->
            map_Forall (fun _ s => as_recorded im hide s)
                       (record_status X hide f s (fields_status st))).
  { intros s Hs Him. unfold record_status.
    destruct (negb (default false (Data_bit_repro s)) || negb hide) eqn:E; [|done].
    apply map_Forall_insert_2; [|done]. split; [done|]. split; [|done].
    intros ->. rewrite orb_false_r in E. by apply negb_true_iff in E. }
  destruct (compare_2_fields _ _ _ _ _ _ _ _) as [[s m]|e] eqn:E.
  - intros [= <-]. simpl. apply compare_2_fields_status in E as (_ & Hb & Him).
    apply Hrec; [by left|done].
  - destruct fatal; [discriminate|]. intros [= <-]. simpl. apply Hrec; [by right|done].
Qed.

(** *** The two aggregates *)

Lemma compare_2_files_aggregates t r im io hide vb thr fatal c :
  compare_2_files X t r im io hide vb thr fatal = Returned c ->
  map_Forall (fun _ s => as_recorded im hide s) (comp_Common_fields_differences c)
  /\ comp_Bit_reproducible c
     = all_status (fun s => default false (Data_bit_repro s)
                            && is_None (Validity_diff s) && is_None (Geometry_diff s))
                  (comp_Common_fields_differences c)
  /\ comp_Validated c
     = all_status (fun s => default false (Validated s)) (comp_Common_fields_differences c)
       && (io || no_orphan c).
Proof.
  unfold compare_2_files. intros H.
  apply obind_returned in H as (l & _ & H). apply obind_returned in H as (st & Hst & H).
  injection H as <-. simpl. split; [by apply recorded_statuses in Hst|]. split; [done|].
  unfold no_orphan. simpl.
  destruct io; simpl; [by rewrite andb_true_r|].
  destruct (filter _ (listfields t)) as [|x l1], (filter _ (listfields r)) as [|y l2]; simpl;
    by rewrite ?andb_true_r, ?andb_false_r.
Qed.

(** X15: with [hide_bit_repro_fields], a common field is shown only if
    its data is not bit-reproducible or its comparison raised; so the
    file is 'Bit-reproducible' exactly when no field is shown, and
    'Validated' exactly when, besides, no orphan field forbids it. *)
Theorem hidden_differences_decide (t r : resource)
    (ignore_meta ignore_orphan_fields validate_if_bit_repro_only : bool)
    (threshold : float) (fatal_exceptions : bool) (c : comparison) :
  compare_2_files X t r ignore_meta ignore_orphan_fields true
                  validate_if_bit_repro_only threshold fatal_exceptions = Returned c ->
  comp_Bit_reproducible c = bool_decide (comp_Common_fields_differences c = ∅)
  /\ comp_Validated c
     = bool_decide (comp_Common_fields_differences c = ∅)
       && (ignore_orphan_fields || no_orphan c).
Proof.
  intros H. apply compare_2_files_aggregates in H as (Hrec & -> & ->).
  rewrite !all_status_empty; [done| |].
  - intros k s Hk. destruct (Hrec k s Hk) as (Hs & Hh & _). specialize (Hh eq_refl).
    destruct Hs as [(b & Hb & ->)|[_ ->]]; [|done]. rewrite Hb in Hh. simpl in *. by subst b.
  - intros k s Hk. destruct (Hrec k s Hk) as (_ & Hh & _). by rewrite (Hh eq_refl).
Qed.

(** X16: a comparison of two files that is 'Bit-reproducible' is
    'Validated' as soon as the orphan fields allow it: when they are
    ignored, or when there is none. *)
Theorem bit_reproducible_is_validated (t r : resource)
    (ignore_meta ignore_orphan_fields hide_bit_repro_fields validate_if_bit_repro_only : bool)
    (threshold : float) (fatal_exceptions : bool) (c : comparison) :
  compare_2_files X t r ignore_meta ignore_orphan_fields hide_bit_repro_fields
                  validate_if_bit_repro_only threshold fatal_exceptions = Returned c ->
  comp_Bit_reproducible c = true ->
  comp_Validated c = ignore_orphan_fields || no_orphan c.
Proof.
  intros H. apply compare_2_files_aggregates in H as (Hrec & -> & ->). intros Hb.
  replace (all_status _ _) with true; [done|]. symmetry.
  apply all_status_true. apply all_status_true in Hb. intros k s Hk.
  specialize (Hb k s Hk). simpl in Hb.
  apply andb_true_iff in Hb as [Hb Hg]. apply andb_true_iff in Hb as [Hb Hv].
  destruct (Hrec k s Hk) as (Hs & _).
  destruct Hs as [(b & Eb & ->)|[Eb _]]; [|by rewrite Eb in Hb].
  rewrite Eb in Hb. simpl in *. subst b. unfold no_metadata_diff.
  destruct (Validity_diff s) as [[]|], (Geometry_diff s) as [[]|]; done.
Qed.

(** X17: with [ignore_meta], whatever the threshold and
    [validate_if_bit_repro_only], a comparison of two files is
    'Validated' exactly when it is 'Bit-reproducible' and the orphan
    fields allow it. *)
Theorem without_metadata_validated_is_bit_reproducible (t r : resource)
    (ignore_orphan_fields hide_bit_repro_fields validate_if_bit_repro_only : bool)
    (threshold : float) (fatal_exceptions : bool) (c : comparison) :
  compare_2_files X t r true ignore_orphan_fields hide_bit_repro_fields
                  validate_if_bit_repro_only threshold fatal_exceptions = Returned c ->
  comp_Validated c = comp_Bit_reproducible c && (ignore_orphan_fields || no_orphan c).
Proof.
  intros H. apply compare_2_files_aggregates in H as (Hrec & -> & ->). f_equal.
  apply all_status_ext. intros k s Hk. destruct (Hrec k s Hk) as (Hs & _ & Hm).
  destruct (Hm eq_refl) as [Hv Hg]. rewrite Hv, Hg. simpl. rewrite !andb_true_r.
  destruct Hs as [(b & -> & ->)|[-> ->]]; [|done]. unfold no_metadata_diff.
  rewrite Hv, Hg. simpl. by rewrite andb_true_r.
Qed.


(** *** The threshold *)

Lemma compare_2_fields_threshold t r f acc im thr thr' :
  compare_2_fields X t r f acc im true thr = compare_2_fields X t r f acc im true thr'.
Proof. reflexivity. Qed.

(** X18: [compare_2_files] does not hand [validate_if_bit_repro_only]
    over to [compare_2_fields], which then never reads the threshold:
    the two options change nothing in the result but the text of
    'Validated means' (and nothing in whether and what the call
    raises). *)
Theorem threshold_changes_the_words_only (t r : resource)
    (ignore_meta ignore_orphan_fields hide_bit_repro_fields : bool)
    (validate_if_bit_repro_only validate_if_bit_repro_only' : bool)
    (threshold threshold' : float) (fatal_exceptions : bool) :
  match compare_2_files X t r ignore_meta ignore_orphan_fields hide_bit_repro_fields
                        validate_if_bit_repro_only threshold fatal_exceptions,
        compare_2_files X t r ignore_meta ignore_orphan_fields hide_bit_repro_fields
                        validate_if_bit_repro_only' threshold' fatal_exceptions with
  | Returned c, Returned c' =>
      comp_Validated c = comp_Validated c'
      /\ comp_Bit_reproducible c = comp_Bit_reproducible c'
      /\ comp_Common_fields_differences c = comp_Common_fields_differences c'
      /\ comp_Max_normalized_diff c = comp_Max_normalized_diff c'
      /\ comp_New_fields c = comp_New_fields c'
      /\ comp_Lost_fields c = comp_Lost_fields c'
      /\ comp_Unable_to_compare_fields c = comp_Unable_to_compare_fields c'
  | Raised e, Raised e' => e = e'
  | _, _ => False
  end.
Proof.
  unfold compare_2_files. destruct (common_fields t r) as [l|e]; simpl; [|done].
  rewrite (for_fields_ext
    (compare_common_field X t r ignore_meta hide_bit_repro_fields fatal_exceptions threshold)
    (compare_common_field X t r ignore_meta hide_bit_repro_fields fatal_exceptions threshold'))
    by done.
  destruct (for_fields _ l _) as [st|e]; simpl; done.
Qed.

(** *** Fields that could not be compared *)

Lemma compare_2_fields_raises t r f acc acc' im vb thr e :
  compare_2_fields X t r f acc im vb thr = Raised e ->
  compare_2_fields X t r f acc' im vb thr = Raised e.
Proof.
  unfold compare_2_fields.
  destruct (readfield t f) as [tfld|]; simpl; [|done].
  destruct (readfield r f) as [rfld|]; simpl; [|done].
  destruct (if negb (is_MiscField tfld) && spectral tfld then _ else _) as [tfld'|]; simpl; [|done].
  destruct (if negb (is_MiscField tfld) && spectral rfld then _ else _) as [rfld'|]; simpl; [|done].
  destruct (if negb (is_MiscField tfld) && negb im then _ else _) as [[st v]|]; simpl; [|done].
  destruct (negb (bool_decide _)); [done|].
  destruct (negb _); [|done].
  destruct (normalized_comparison X tfld' rfld') as [[dd cm]|]; simpl; [|done].
  destruct (py_max _); simpl; done.
Qed.

Lemma uncompared_list t r im hide thr l st :
  exists st', for_fields (compare_common_field X t r im hide false thr) l st = Returned st'
    /\ uncompared_fields st'
       = uncompared_fields st ++ filter (fun f => raises X t r im f = true) l.
Proof.
  revert st. induction l as [|f l IH]; intros st; simpl.
  { exists st. by rewrite app_nil_r. }
  unfold compare_common_field at 1, raises at 1.
  destruct (ignore_field f) eqn:Ei; simpl.
  { destruct (IH st) as (st' & Hf & Hu). rewrite Hf. exists st'. split; [done|]. rewrite Hu.
    rewrite filter_cons_False; [done|]. unfold raises. rewrite Ei. done. }
  destruct (compare_2_fields X t r f (max_normalized_diff st) im true thr) as [[s m]|e] eqn:E;
    simpl.
  - destruct (IH (LoopState (record_status X hide f s (fields_status st)) m
                            (uncompared_fields st))) as (st' & Hf & Hu).
    rewrite Hf. exists st'. split; [done|]. rewrite Hu. simpl.
    rewrite filter_cons_False; [done|].
    unfold raises. rewrite Ei. simpl.
    destruct (compare_2_fields X t r f 0 im true 0) as [|e'] eqn:E'; [done|].
    apply (compare_2_fields_raises _ _ _ _ (max_normalized_diff st)) in E'.
    rewrite (compare_2_fields_threshold _ _ _ _ _ _ thr) in E'. congruence.
  - match goal with |- context [for_fields _ l ?s] => destruct (IH s) as (st' & Hf & Hu) end.
    rewrite Hf. exists st'. split; [done|]. rewrite Hu. simpl. rewrite <- app_assoc. simpl.
    rewrite filter_cons_True; [done|]. unfold raises. rewrite Ei. simpl.
    apply (compare_2_fields_raises _ _ _ _ 0%float) in E.
    rewrite (compare_2_fields_threshold _ _ _ _ _ _ 0%float) in E. by rewrite E.
Qed.


Lemma uncompared_statuses t r im hide thr (l0 l : list fid) st :
  (forall f g, f ∈ l0 -> g ∈ l0 -> str_fid X f = str_fid X g -> f = g) ->
  (forall f, f ∈ l -> f ∈ l0) ->
  for_fields (compare_common_field X t r im hide false thr) l (LoopState ∅ 0%float [])
    = Returned st ->
  forall f, f ∈ uncompared_fields st ->
    exists s, fields_status st !! str_fid X f = Some s
      /\ Validated s = None /\ Data_bit_repro s = None.
Proof.
  intros Hinj Hl H.
  cut (forall f, f ∈ uncompared_fields st ->
         (f ∈ l0 /\ raises X t r im f = true)
         /\ exists s, fields_status st !! str_fid X f = Some s
              /\ Validated s = None /\ Data_bit_repro s = None).
  { intros Hc f Hf. by destruct (Hc f Hf). }
  revert H.
  apply (for_fields_invariant (fun st => forall f, f ∈ uncompared_fields st ->
         (f ∈ l0 /\ raises X t r im f = true)
         /\ exists s, fields_status st !! str_fid X f = Some s
              /\ Validated s = None /\ Data_bit_repro s = None)).
  2:{ simpl. intros f Hf. by apply elem_of_nil in Hf. }
  clear st. intros g st st' Hg Hi. unfold compare_common_field.
  destruct (ignore_field g) eqn:Ei; [by intros [= <-]|].
  destruct (compare_2_fields X t r g (max_normalized_diff st) im true thr) as [[s m]|e] eqn:E.
  - intros [= <-]. simpl. intros f Hf. destruct (Hi f Hf) as ([Hf0 Hr] & s' & Hs' & Hv & Hb).
    split; [done|]. exists s'. split; [|done]. unfold record_status.
    destruct (_ || _); [|done]. rewrite lookup_insert_ne; [done|].
    intros Ek. assert (g = f) as -> by (apply Hinj; auto).
    unfold raises in Hr. rewrite Ei in Hr. simpl in Hr.
    destruct (compare_2_fields X t r f 0 im true 0) as [|e'] eqn:E'; [done|].
    apply (compare_2_fields_raises _ _ _ _ (max_normalized_diff st)) in E'.
    rewrite (compare_2_fields_threshold _ _ _ _ _ _ thr) in E'. congruence.
  - intros [= <-]. simpl. unfold record_status. simpl.
    intros f Hf. apply elem_of_app in Hf as [Hf|Hf].
    + destruct (Hi f Hf) as ([Hf0 Hr] & s' & Hs' & Hv & Hb). split; [done|].
      destruct (decide (str_fid X g = str_fid X f)) as [Ek|Ek].
      * rewrite Ek, lookup_insert_eq. eauto.
      * rewrite lookup_insert_ne by done. eauto.
    + apply list_elem_of_singleton in Hf. subst f. split.
      * split; [auto|]. unfold raises. rewrite Ei. simpl.
        apply (compare_2_fields_raises _ _ _ _ 0%float) in E.
        rewrite (compare_2_fields_threshold _ _ _ _ _ _ 0%float) in E. by rewrite E.
      * rewrite lookup_insert_eq. eauto.
Qed.

(** X19: without [fatal_exceptions], the comparison of two files whose
    common fields are listed returns; 'Unable to compare fields' lists
    the common fields whose comparison raises, in their order; and as
    soon as there is one, the file is neither 'Validated' nor
    'Bit-reproducible'. The common fields are taken to have distinct
    names once written with [str]. *)
Theorem uncompared_fields_are_not_validated (t r : resource)
    (ignore_meta ignore_orphan_fields hide_bit_repro_fields validate_if_bit_repro_only : bool)
    (threshold : float) (l : list fid) :
  common_fields t r = Returned l ->
  (forall f g, f ∈ l -> g ∈ l -> str_fid X f = str_fid X g -> f = g) ->
  exists c,
    compare_2_files X t r ignore_meta ignore_orphan_fields hide_bit_repro_fields
                    validate_if_bit_repro_only threshold false = Returned c
    /\ comp_Unable_to_compare_fields c
       = or_None (filter (fun f => raises X t r ignore_meta f = true) l)
    /\ (forall f, f ∈ default [] (comp_Unable_to_compare_fields c) ->
          comp_Validated c = false /\ comp_Bit_reproducible c = false).
Proof.
  intros Hl Hinj.
  destruct (uncompared_list t r ignore_meta hide_bit_repro_fields threshold l
              (LoopState ∅ 0%float [])) as (st & Hst & Hu).
  pose proof (uncompared_statuses t r ignore_meta hide_bit_repro_fields threshold l l st
                Hinj (fun f H => H) Hst) as Hs.
  unfold compare_2_files. rewrite Hl. simpl obind. rewrite Hst. simpl obind.
  eexists. split; [reflexivity|]. simpl. split; [by rewrite Hu|].
  intros f Hf.
  assert (Hf' : f ∈ uncompared_fields st).
  { destruct (uncompared_fields st); [by apply elem_of_nil in Hf|done]. }
  destruct (Hs f Hf') as (s & Hk & Hv & Hb).
  assert (Hno : forall p, p s = false -> all_status p (fields_status st) = false).
  { intros p Hp. apply not_true_iff_false. intros E. apply all_status_true in E.
    specialize (E _ s Hk). simpl in E. congruence. }
  split.
  - rewrite (Hno (fun s => default false (Validated s))) by (by rewrite Hv).
    destruct (negb ignore_orphan_fields); [|done].
    by destruct (filter _ (listfields t) ++ filter _ (listfields r)).
  - apply Hno. by rewrite Hb.
Qed.


(** *** Plain data that holds a NaN, and data of another shape *)

Lemma zip_all_nan (l : list float) x :
  x ∈ l -> PrimFloat.is_nan x = true -> zip_all PrimFloat.eqb l l = false.
Proof.
  intros Hx Hn. induction l as [|y l IH]; [by apply elem_of_nil in Hx|]. simpl.
  apply elem_of_cons in Hx as [<-|Hx].
  - unfold PrimFloat.is_nan in Hn. apply negb_true_iff in Hn. by rewrite Hn.
  - rewrite IH by done. apply andb_false_r.
Qed.

(** X20: a field whose data is a plain array of floats, without mask,
    and holds a NaN is not bit-reproducible, not even when a file is
    compared to itself; with [validate_if_bit_repro_only] it is not
    validated either. *)
Theorem unmasked_nan_is_not_bit_reproducible (t : resource) (f : fid) (acc : float)
    (ignore_meta validate_if_bit_repro_only : bool) (threshold : float)
    (fld : field) (sh : list nat) (l : list float) (x : float)
    (s : field_status) (m : float) :
  readfield t f = Returned fld ->
  spectral fld = false ->
  data fld = FloatArray sh l ->
  x ∈ l -> PrimFloat.is_nan x = true ->
  compare_2_fields X t t f acc ignore_meta validate_if_bit_repro_only threshold
    = Returned (s, m) ->
  Data_bit_repro s = Some false
  /\ (validate_if_bit_repro_only = true -> Validated s = Some false).
Proof.
  intros Hr Hs Hd Hx Hn H.
  assert (Hb : Data_bit_repro s = Some false).
  { rewrite (bit_repro_flag_is_exact_equality X t t f acc ignore_meta
               validate_if_bit_repro_only threshold fld fld s m Hr Hr Hs Hs eq_refl H).
    rewrite Hd. simpl. by rewrite (zip_all_nan l x). }
  split; [done|]. intros ->.
  apply compare_2_fields_status in H as (_ & (b & Hb' & Hv) & _).
  rewrite Hb in Hb'. injection Hb' as <-. done.
Qed.

(** X21: when the data of the two fields differ in shape, the field is
    neither bit-reproducible nor validated, the normalized comparison is
    not asked for (only [recursive_diff] may be), the running maximum is
    left as it was, and with [ignore_meta] the call returns. *)
Theorem shapes_that_differ_are_not_compared (t r : resource) (f : fid) (acc : float)
    (ignore_meta validate_if_bit_repro_only : bool) (threshold : float)
    (tfld rfld : field) :
  readfield t f = Returned tfld ->
  readfield r f = Returned rfld ->
  spectral tfld = false -> spectral rfld = false ->
  shape (data tfld) <> shape (data rfld) ->
  (forall s m,
     compare_2_fields X t r f acc ignore_meta validate_if_bit_repro_only threshold
       = Returned (s, m) ->
     m = acc
     /\ Data_bit_repro s = Some false /\ Validated s = Some false
     /\ Normalized_data_diff s = Some (inl "Comparison not possible: dimensions differ")
     /\ Mask_is_common s = None)
  /\ (forall X' : externals, recursive_diff X' = recursive_diff X ->
        compare_2_fields X' t r f acc ignore_meta validate_if_bit_repro_only threshold
        = compare_2_fields X t r f acc ignore_meta validate_if_bit_repro_only threshold)
  /\ (ignore_meta = true ->
      exists s, compare_2_fields X t r f acc ignore_meta validate_if_bit_repro_only threshold
                = Returned (s, acc)).
Proof.
  intros Ht Hr Hst Hsr Hshape. unfold compare_2_fields.
  rewrite Ht, Hr. simpl obind. rewrite Hst, Hsr, !andb_false_r. simpl obind.
  rewrite bool_decide_eq_false_2 by done. simpl negb. split; [|split].
  - intros s m H. apply obind_returned in H as ([st v] & Hmeta & H). injection H as <- <-.
    split; [done|]. destruct st. simpl. repeat split; try done.
    destruct (negb (is_MiscField tfld) && negb ignore_meta).
    + apply obind_returned in Hmeta as (vd & _ & Hmeta).
      apply obind_returned in Hmeta as (gd & _ & Hmeta). by injection Hmeta as <- <- <- <- <-.
    + by injection Hmeta as <- <- <- <- <-.
  - intros X' ->. done.
  - intros ->. rewrite andb_false_r. simpl. eauto.
Qed.

End Aggregates.

(** ** Runs of the statements above *)

Lemma hidden_differences_decide_witness :
  match returned (compare_2_files Samples.sample_externals Samples.meta_diff_test
                    Samples.meta_diff_ref false false true true 0.5%float true) with
  | Some c =>
      comp_Bit_reproducible c = bool_decide (comp_Common_fields_differences c = ∅)
      /\ comp_Validated c
         = bool_decide (comp_Common_fields_differences c = ∅) && (false || no_orphan c)
  | None => False
  end.
Proof.
  destruct (compare_2_files Samples.sample_externals Samples.meta_diff_test
              Samples.meta_diff_ref false false true true 0.5%float true) as [c|e] eqn:E.
  - simpl. exact (hidden_differences_decide Samples.sample_externals Samples.meta_diff_test
                    Samples.meta_diff_ref false false true 0.5%float true c E).
  - vm_compute in E. discriminate.
Defined.

Lemma bit_reproducible_is_validated_witness :
  match returned (compare_2_files Samples.sample_externals Samples.buffer_ref
                    Samples.buffer_ref false false false true 0.5%float true) with
  | Some c => comp_Validated c = false || no_orphan c
  | None => False
  end.
Proof.
  destruct (compare_2_files Samples.sample_externals Samples.buffer_ref
              Samples.buffer_ref false false false true 0.5%float true) as [c|e] eqn:E.
  - simpl. apply (bit_reproducible_is_validated Samples.sample_externals Samples.buffer_ref
                    Samples.buffer_ref false false false true 0.5%float true c E).
    vm_compute in E. injection E as <-. reflexivity.
  - vm_compute in E. discriminate.
Defined.

Lemma without_metadata_validated_is_bit_reproducible_witness :
  match returned (compare_2_files Samples.sample_externals Samples.meta_diff_test
                    Samples.meta_diff_ref true false false false 0.5%float true) with
  | Some c => comp_Validated c = comp_Bit_reproducible c && (false || no_orphan c)
  | None => False
  end.
Proof.
  destruct (compare_2_files Samples.sample_externals Samples.meta_diff_test
              Samples.meta_diff_ref true false false false 0.5%float true) as [c|e] eqn:E.
  - simpl. exact (without_metadata_validated_is_bit_reproducible Samples.sample_externals
                    Samples.meta_diff_test Samples.meta_diff_ref false false false
                    0.5%float true c E).
  - vm_compute in E. discriminate.
Defined.

Lemma uncompared_fields_are_not_validated_witness :
  exists c,
    compare_2_files Samples.sample_externals Samples.unreadable Samples.buffer_ref
                    false false true true 0.5%float false = Returned c
    /\ comp_Unable_to_compare_fields c
       = or_None (filter (fun f => raises Samples.sample_externals Samples.unreadable
                                     Samples.buffer_ref false f = true) [FidStr "T"])
    /\ (forall f, f ∈ default [] (comp_Unable_to_compare_fields c) ->
          comp_Validated c = false /\ comp_Bit_reproducible c = false).
Proof.
  apply (uncompared_fields_are_not_validated Samples.sample_externals Samples.unreadable
           Samples.buffer_ref false false true true 0.5%float [FidStr "T"]).
  - vm_compute. reflexivity.
  - intros f g Hf Hg _. apply list_elem_of_singleton in Hf, Hg. congruence.
Defined.

Lemma unmasked_nan_is_not_bit_reproducible_witness :
  match returned (compare_2_fields Samples.sample_externals Samples.with_nan Samples.with_nan
                    (FidStr "T") 0%float false true 0.5%float) with
  | Some (s, _) =>
      Data_bit_repro s = Some false /\ (true = true -> Validated s = Some false)
  | None => False
  end.
Proof.
  destruct (compare_2_fields Samples.sample_externals Samples.with_nan Samples.with_nan
              (FidStr "T") 0%float false true 0.5%float) as [[s m]|e] eqn:E.
  - simpl. apply (unmasked_nan_is_not_bit_reproducible Samples.sample_externals Samples.with_nan
                    (FidStr "T") 0%float false true 0.5%float
                    (Samples.sample_field "2020-01-01T00" [1%float; nan])
                    [2%nat] [1%float; nan] nan s m).
    + reflexivity.
    + reflexivity.
    + reflexivity.
    + right. left.
    + reflexivity.
    + exact E.
  - vm_compute in E. discriminate.
Defined.

Lemma shapes_that_differ_are_not_compared_witness :
  (forall s m,
     compare_2_fields Samples.sample_externals Samples.meta_diff_test Samples.buffer_ref
       (FidStr "T") 0%float false true 0.5%float = Returned (s, m) ->
     m = 0%float
     /\ Data_bit_repro s = Some false /\ Validated s = Some false
     /\ Normalized_data_diff s = Some (inl "Comparison not possible: dimensions differ")
     /\ Mask_is_common s = None)
  /\ (forall X' : externals, recursive_diff X' = recursive_diff Samples.sample_externals ->
        compare_2_fields X' Samples.meta_diff_test Samples.buffer_ref
          (FidStr "T") 0%float false true 0.5%float
        = compare_2_fields Samples.sample_externals Samples.meta_diff_test Samples.buffer_ref
            (FidStr "T") 0%float false true 0.5%float)
  /\ (false = true ->
      exists s, compare_2_fields Samples.sample_externals Samples.meta_diff_test
                  Samples.buffer_ref (FidStr "T") 0%float false true 0.5%float
                = Returned (s, 0%float)).
Proof.
  apply (shapes_that_differ_are_not_compared Samples.sample_externals
           Samples.meta_diff_test Samples.buffer_ref (FidStr "T") 0%float false true 0.5%float
           (Samples.sample_field "2020-01-01T00" [1%float; 2%float])
           (Samples.sample_field "2020-01-01T00" [1%float])).
  - reflexivity.
  - reflexivity.
  - reflexivity.
  - reflexivity.
  - vm_compute. discriminate.
Defined.

End FieldsProofs.

(* ===================================================================== *)
(** * Properties of [FieldsInFileExpert]                                  *)
(* ===================================================================== *)

Module FieldsInFileExpertProofs.
Import Py Fields FieldsProofs FieldsInFileExpert.
Local Open Scope py_scope.

(** ** The pairs of files *)

Lemma for_each_ext {S A} (l : list A) (body body' : A -> M S unit) s :
  (forall a, a ∈ l -> forall s, body a s = body' a s) ->
  for_each l body s = for_each l body' s.
Proof.
  revert s. induction l as [|a l IH]; intros s H; simpl; [done|].
  unfold bind. rewrite H by left. destruct (body' a s) as [[[]|e] s1]; [|done].
  apply IH. intros a' Ha'. apply H. by right.
Qed.

Section Gather.
Context {A B : Type}.
Variable self : attributes.
Variable sel : A -> option B.
Variable msg : A -> string.

(** A loop that appends what [sel] finds, and complains of what it does
    not find. *)
Lemma gather_loop (l : list A) (acc : list B) :
  let gather x :=
    match sel x with
    | Some y => modify (fun p => p ++ [y])
    | None => complain self (msg x)
    end in
  (exists l1 x l2, l = l1 ++ x :: l2 /\ Forall (fun x => is_Some (sel x)) l1
     /\ sel x = None /\ fatal_exceptions self = true
     /\ for_each l gather acc = (Raised (ExpertError (msg x)), acc ++ omap sel l1))
  \/ ((fatal_exceptions self = true -> Forall (fun x => is_Some (sel x)) l)
      /\ for_each l gather acc = (Returned tt, acc ++ omap sel l)).
Proof.
  intros gather. revert acc. induction l as [|x l IH]; intros acc; simpl.
  { right. split; [by constructor|]. unfold ret. by rewrite app_nil_r. }
  unfold bind. unfold gather at 1 3. destruct (sel x) as [y|] eqn:Ex.
  - unfold modify.
    destruct (IH (acc ++ [y])) as [(l1 & x' & l2 & -> & Hl1 & Hx' & Hf & ->)|[Hl ->]].
    + left. exists (x :: l1), x', l2. split; [done|]. split; [constructor; eauto|].
      split; [done|]. split; [done|]. simpl. rewrite Ex. by rewrite <- app_assoc.
    + right. split; [intros Hf; constructor; eauto|]. by rewrite <- app_assoc.
  - unfold complain. destruct (fatal_exceptions self) eqn:Ef.
    + left. exists [], x, l. split; [done|]. split; [constructor|]. split; [done|].
      split; [done|]. unfold raise. simpl. by rewrite app_nil_r.
    + unfold ret.
      destruct (IH acc) as [(l1 & x' & l2 & -> & Hl1 & Hx' & Hf & ->)|[Hl ->]]; [done|].
      right. split; [done|]. done.
Qed.

End Gather.

Section Pairs.
Variable self : attributes.
Variable os : system.

(** X22: [_make_pairs_from_references] makes the pairs from the reference
    files, in their order: a reference gives a pair when it exists and
    the file it names, once the prefixes are stripped, exists too. With
    [fatal_exceptions], the first reference that gives no pair raises
    ExpertError; without, it is left out. *)
Theorem references_are_paired_when_both_files_exist (ref_filenames : list string) :
  match _make_pairs_from_references self os ref_filenames with
  | Returned pairs =>
      pairs = omap (pair_of_reference os) ref_filenames
      /\ (fatal_exceptions self = true ->
          Forall (fun ref => path_exists os ref = true
                             /\ path_exists os (strip_prefixes ref) = true) ref_filenames)
  | Raised e =>
      fatal_exceptions self = true
      /\ exists l1 ref l2 message, ref_filenames = l1 ++ ref :: l2
           /\ Forall (fun ref => is_Some (pair_of_reference os ref)) l1
           /\ pair_of_reference os ref = None
           /\ e = ExpertError message
  end.
Proof.
  unfold _make_pairs_from_references.
  set (msg := fun ref : string =>
    if negb (path_exists os ref)
    then "Reference file: " +:+ quote +:+ ref +:+ quote +:+ " not found" +:+ quote +:+ "."
    else "Reference file: " +:+ quote +:+ ref +:+ quote
         +:+ " has no local output equivalent " +:+ quote +:+ strip_prefixes ref
         +:+ quote +:+ ".").
  pose proof (gather_loop self (pair_of_reference os) msg ref_filenames []) as Hg.
  cbv zeta in Hg.
  erewrite for_each_ext; [destruct Hg as [(l1 & x & l2 & -> & Hl1 & Hx & Hf & ->)|[Hl ->]]|].
  - split; [done|]. exists l1, x, l2, (msg x). done.
  - split; [done|]. intros Hf. eapply Forall_impl; [exact (Hl Hf)|]. simpl.
    intros ref [p Hp]. unfold pair_of_reference in Hp.
    destruct (path_exists os ref), (path_exists os (strip_prefixes ref)); done.
  - intros ref _ s. cbv beta. unfold pair_of_reference, msg.
    destruct (path_exists os ref); simpl; [|done].
    destruct (path_exists os (strip_prefixes ref)); done.
Qed.

(** X23: [_make_pairs_from_attribute] pairs each asked file found in the
    working directory with the first of 'ref.', 'continuity.' and
    'consistency.' followed by its name that is a reference file. With
    [fatal_exceptions], every asked file is paired, or the first one that
    is not raises ExpertError; without, it is left out. *)
Theorem asked_files_are_paired_with_the_first_reference (ref_filenames : list string) :
  match _make_pairs_from_attribute self os ref_filenames with
  | Returned pairs =>
      pairs = omap (pair_of_filename os ref_filenames) (filenames self)
      /\ Forall (fun p => fst p ∈ filenames self /\ fst p ∈ listdir os
                          /\ snd p ∈ ref_filenames
                          /\ exists prefix, prefix ∈ [ref_prefix; cnty_prefix; csty_prefix]
                                            /\ snd p = prefix +:+ fst p) pairs
      /\ (fatal_exceptions self = true -> map fst pairs = filenames self)
  | Raised e =>
      fatal_exceptions self = true
      /\ exists l1 f l2 message, filenames self = l1 ++ f :: l2
           /\ Forall (fun f => is_Some (pair_of_filename os ref_filenames f)) l1
           /\ pair_of_filename os ref_filenames f = None
           /\ e = ExpertError message
  end.
Proof.
  unfold _make_pairs_from_attribute.
  set (msg := fun f : string =>
    if negb (bool_decide (f ∈ listdir os)) then "Output file not found: " +:+ f
    else "Reference file: " +:+ quote +:+ "None" +:+ quote +:+ " not found.").
  assert (Hshape : forall f p, pair_of_filename os ref_filenames f = Some p ->
            fst p = f /\ f ∈ listdir os /\ snd p ∈ ref_filenames
            /\ exists prefix, prefix ∈ [ref_prefix; cnty_prefix; csty_prefix]
                              /\ snd p = prefix +:+ f).
  { intros f p. unfold pair_of_filename.
    destruct (bool_decide_reflect (f ∈ listdir os)); [|done].
    unfold find_reference. destruct (filter _ _) as [|ref l] eqn:E; [done|].
    simpl. intros [= <-]. simpl. split; [done|]. split; [done|].
    assert (Hin : ref ∈ filter (fun ref => ref ∈ ref_filenames)
                   (map (fun p => p +:+ f) [ref_prefix; cnty_prefix; csty_prefix])).
    { rewrite E. left. }
    apply list_elem_of_filter in Hin as [H1 H2]. split; [done|].
    apply list_elem_of_In, in_map_iff in H2 as (q & <- & Hq). exists q.
    by apply list_elem_of_In in Hq. }
  pose proof (gather_loop self (pair_of_filename os ref_filenames) msg (filenames self) [])
    as Hg.
  cbv zeta in Hg.
  erewrite for_each_ext; [destruct Hg as [(l1 & x & l2 & E & Hl1 & Hx & Hf & ->)|[Hl ->]]|].
  - split; [done|]. exists l1, x, l2, (msg x). done.
  - simpl. split; [done|]. split.
    + apply Forall_forall. intros p Hp. apply list_elem_of_omap in Hp as (f & Hf & Hp).
      destruct (Hshape f p Hp) as (-> & H2 & H3 & H4). done.
    + intros Hf. specialize (Hl Hf). clear -Hl Hshape.
      induction (filenames self) as [|f l IH]; [done|]. simpl.
      apply Forall_cons in Hl as [[p Hp] Hl]. rewrite Hp. simpl.
      destruct (Hshape f p Hp) as (-> & _). f_equal. by apply IH.
  - intros f _ s. cbv beta. unfold pair_of_filename, msg.
    destruct (bool_decide (f ∈ listdir os)); simpl; [|done].
    destruct (find_reference ref_filenames f); done.
Qed.

End Pairs.

Lemma prefix_append p f : String.prefix p (p +:+ f) = true.
Proof.
  induction p as [|a p IH]; simpl; [by destruct f|].
  by destruct (Ascii.ascii_dec a a).
Qed.

Lemma drop_append p f : drop_chars (String.length p) (p +:+ f) = f.
Proof. induction p as [|a p IH]; simpl; [by destruct f|]. done. Qed.

(** X24: the two ways of pairing agree on a file whose name starts with
    none of the three prefixes: stripping the prefixes from the reference
    found for it gives its name back. *)
Theorem stripping_gives_the_asked_file_back (ref_filenames : list string) (f ref : string) :
  plain f = true ->
  find_reference ref_filenames f = Some ref ->
  strip_prefixes ref = f.
Proof.
  intros Hp Hr.
  assert (Hin : exists prefix, prefix ∈ [ref_prefix; cnty_prefix; csty_prefix]
                               /\ ref = prefix +:+ f).
  { unfold find_reference in Hr. destruct (filter _ _) as [|x l] eqn:E; [done|].
    injection Hr as ->.
    assert (Hin : ref ∈ filter (fun ref => ref ∈ ref_filenames)
                   (map (fun p => p +:+ f) [ref_prefix; cnty_prefix; csty_prefix])).
    { rewrite E. left. }
    apply list_elem_of_filter in Hin as [_ H2].
    apply list_elem_of_In, in_map_iff in H2 as (q & <- & Hq). exists q.
    by apply list_elem_of_In in Hq. }
  destruct Hin as (p & Hpin & ->).
  unfold plain in Hp. apply andb_true_iff in Hp as [Hp H3]. apply andb_true_iff in Hp as [H1 H2].
  apply negb_true_iff in H1, H2, H3.
  rewrite !elem_of_cons, elem_of_nil in Hpin. destruct Hpin as [->|[->|[->|[]]]].
  - cbv [strip_prefixes foldl].
    rewrite (prefix_append ref_prefix f), (drop_append ref_prefix f). by rewrite H2, H3.
  - cbv [strip_prefixes foldl].
    replace (String.prefix ref_prefix (cnty_prefix +:+ f)) with false by done.
    rewrite (prefix_append cnty_prefix f), (drop_append cnty_prefix f). by rewrite H3.
  - cbv [strip_prefixes foldl].
    replace (String.prefix ref_prefix (csty_prefix +:+ f)) with false by done.
    replace (String.prefix cnty_prefix (csty_prefix +:+ f)) with false by done.
    by rewrite (prefix_append csty_prefix f), (drop_append csty_prefix f).
Qed.

(** ** The overall flags *)

Lemma item_assign {V} k (v : V) d : item k (assign k v d) = Some v.
Proof.
  induction d as [|[k' v'] d IH]; simpl; [by rewrite String.eqb_refl|].
  destruct (String.eqb_spec k' k) as [->|Hne]; simpl.
  - by rewrite String.eqb_refl.
  - destruct (String.eqb_spec k' k); [done|]. exact IH.
Qed.

Lemma item_assign_ne {V} k k' (v : V) d : k <> k' -> item k (assign k' v d) = item k d.
Proof.
  intros Hne. induction d as [|[k0 v0] d IH]; simpl.
  - destruct (String.eqb_spec k' k); [congruence|done].
  - destruct (String.eqb_spec k0 k') as [->|Hne']; simpl.
    + destruct (String.eqb_spec k' k); [congruence|done].
    + destruct (String.eqb_spec k0 k); [done|]. exact IH.
Qed.

Lemma assign_keys {V} k (v : V) d :
  NoDup (map fst d) -> NoDup (map fst (assign k v d))
  /\ forall k', k' ∈ map fst (assign k v d) <-> k' = k \/ k' ∈ map fst d.
Proof.
  induction d as [|[k0 v0] d IH]; simpl; intros Hd.
  - split; [repeat constructor; by intros ?%elem_of_nil|]. intros k'.
    rewrite list_elem_of_singleton, elem_of_nil. tauto.
  - apply NoDup_cons in Hd as [Hk0 Hd]. destruct (IH Hd) as [IH1 IH2].
    destruct (String.eqb_spec k0 k) as [->|Hne]; simpl.
    + split; [by apply NoDup_cons|]. intros k'. rewrite elem_of_cons. tauto.
    + split.
      * apply NoDup_cons. split; [|done]. rewrite IH2. intros [?|?]; done.
      * intros k'. rewrite !elem_of_cons, IH2. tauto.
Qed.

Lemma forallb_values {V} (p : V -> bool) (d : list (string * V)) :
  NoDup (map fst d) ->
  forallb p (map snd d) = true <-> forall k v, item k d = Some v -> p v = true.
Proof.
  induction d as [|[k0 v0] d IH]; simpl; intros Hd; [done|].
  apply NoDup_cons in Hd as [Hk0 Hd]. rewrite andb_true_iff, (IH Hd). split.
  - intros [H0 H] k v. destruct (String.eqb_spec k0 k) as [->|Hne].
    + by intros [= <-].
    + apply H.
  - intros H. split.
    + apply (H k0). by rewrite String.eqb_refl.
    + intros k v Hk. apply (H k). destruct (String.eqb_spec k0 k) as [->|Hne]; [|done].
      exfalso. apply Hk0. clear -Hk. induction d as [|[k1 v1] d IH]; [done|]. simpl in *.
      destruct (String.eqb_spec k1 k) as [->|Hne]; [left|right; auto].
Qed.

Section Compare.
Variable X : externals.
Variable self : attributes.
Variable os : system.

Lemma compare_pairs_spec pairs comp0 comp :
  NoDup (map fst comp0) ->
  compare_pairs X self os pairs comp0 = Returned comp ->
  NoDup (map fst comp)
  /\ forall test c, item test comp = Some c <->
       (exists ref, (test, ref) ∈ last_pairs pairs
                    /\ compare_2_files_named X self os test ref = Returned c)
       \/ (~ test ∈ map fst pairs /\ item test comp0 = Some c).
Proof.
  revert comp0. induction pairs as [|[t r] pairs IH]; intros comp0 Hd; simpl.
  { intros [= <-]. split; [done|]. intros test c. split.
    - intros H. right. split; [by intros ?%elem_of_nil|done].
    - intros [(ref & H & _)|[_ H]]; [by apply elem_of_nil in H|done]. }
  intros H. apply obind_returned in H as (c0 & Hc0 & H).
  destruct (assign_keys t c0 comp0 Hd) as [Hd' Hk'].
  destruct (IH _ Hd' H) as [Hnd Hitem]. split; [done|].
  intros test c. rewrite Hitem. clear Hitem IH.
  destruct (bool_decide_reflect (t ∈ map fst pairs)) as [Hin|Hin]; simpl.
  - split.
    + intros [H1|[H1 H2]]; [by left|]. right. split.
      * rewrite not_elem_of_cons. split; [|done]. intros ->. done.
      * rewrite item_assign_ne in H2; [done|]. intros ->. done.
    + intros [H1|[H1 H2]]; [by left|]. right. apply not_elem_of_cons in H1 as [H1 H1'].
      split; [done|]. by rewrite item_assign_ne.
  - split.
    + intros [(ref & H1 & H2)|[H1 H2]].
      * left. exists ref. split; [by right|done].
      * destruct (decide (test = t)) as [->|Hne].
        { rewrite item_assign in H2. injection H2 as <-. left. exists r. split; [left|done]. }
        right. split; [by apply not_elem_of_cons|]. by rewrite item_assign_ne in H2.
    + intros [(ref & H1 & H2)|[H1 H2]].
      * apply elem_of_cons in H1 as [[= -> ->]|H1].
        { right. split; [done|]. rewrite item_assign. congruence. }
        left. eauto.
      * apply not_elem_of_cons in H1 as [H1 H1']. right. split; [done|].
        by rewrite item_assign_ne.
Qed.

(** X25: when [_compare] returns without [parallel], every pair of
    files was compared, but the overall 'Validated' and
    'Bit-reproducible' count, for each test file, only its comparison to
    the last reference paired with it: they hold exactly when these
    comparisons are validated, or bit-reproducible. *)
Theorem overall_counts_the_last_comparison_of_a_file (references : list string)
    (pairs : list (string * string)) (comp : list (string * entry)) :
  parallel self = false ->
  _make_pairs self os references = Returned pairs ->
  pairs <> [] ->
  _compare X self os references = Returned comp ->
  exists validated bit_reproducible,
    item "Validated" comp = Some (Flag validated)
    /\ item "Bit-reproducible" comp = Some (Flag bit_reproducible)
    /\ (validated = true <->
        forall test ref c, (test, ref) ∈ last_pairs pairs ->
          compare_2_files_named X self os test ref = Returned c -> comp_Validated c = true)
    /\ (bit_reproducible = true <->
        forall test ref c, (test, ref) ∈ last_pairs pairs ->
          compare_2_files_named X self os test ref = Returned c ->
          comp_Bit_reproducible c = true)
    /\ forall test ref, (test, ref) ∈ pairs ->
         exists c, compare_2_files_named X self os test ref = Returned c.
Proof.
  intros Hpar Hp Hne. unfold _compare. rewrite Hp, Hpar. simpl obind.
  destruct pairs as [|first pairs']; [done|]. intros H.
  apply obind_returned in H as (files & Hfiles & H). simpl negb in Hfiles. cbv iota in Hfiles.
  apply obind_returned in H as (c0 & _ & H).
  apply obind_returned in H as (diffs & _ & H).
  apply obind_returned in H as (m & _ & H). injection H as <-.
  destruct (compare_pairs_spec _ [] files (NoDup_nil_2) Hfiles) as [Hnd Hitem].
  assert (Hlast : forall test ref c, (test, ref) ∈ last_pairs (first :: pairs') ->
            compare_2_files_named X self os test ref = Returned c ->
            item test files = Some c).
  { intros test ref c H1 H2. apply Hitem. left. eauto. }
  assert (Hex : forall test ref, (test, ref) ∈ first :: pairs' ->
            exists c, compare_2_files_named X self os test ref = Returned c).
  { clear -Hfiles. revert Hfiles. generalize (@nil (string * comparison)).
    induction (first :: pairs') as [|[t r] l IH]; intros comp0 H test ref Hin;
      [by apply elem_of_nil in Hin|].
    simpl in H. apply obind_returned in H as (c & Hc & H).
    apply elem_of_cons in Hin as [[= -> ->]|Hin]; [eauto|]. by apply (IH _ H). }
  eexists _, _. split.
  { rewrite !item_assign_ne by done. by rewrite item_assign. }
  split.
  { rewrite !item_assign_ne by done. by rewrite item_assign. }
  split; [|split; [|done]].
  - rewrite (forallb_values comp_Validated files Hnd). split.
    + intros H test ref c H1 H2. apply (H test). by apply (Hlast test ref).
    + intros H test c Hc. apply Hitem in Hc as [(ref & H1 & H2)|[_ Hc]]; [|done].
      by apply (H test ref).
  - rewrite (forallb_values comp_Bit_reproducible files Hnd). split.
    + intros H test ref c H1 H2. apply (H test). by apply (Hlast test ref).
    + intros H test c Hc. apply Hitem in Hc as [(ref & H1 & H2)|[_ Hc]]; [|done].
      by apply (H test ref).
Qed.

End Compare.

(** ** Runs of the statements above *)

Lemma stripping_gives_the_asked_file_back_witness :
  strip_prefixes "continuity.ICMSHFCST+0001" = "ICMSHFCST+0001".
Proof.
  apply (stripping_gives_the_asked_file_back
           ["consistency.ICMSHFCST+0001"; "continuity.ICMSHFCST+0001"]
           "ICMSHFCST+0001" "continuity.ICMSHFCST+0001").
  - reflexivity.
  - vm_compute. reflexivity.
Defined.

Lemma overall_counts_the_last_comparison_of_a_file_witness :
  match _compare Samples.sample_externals Samples.fields_expert Samples.fields_system
                 ["ref.A"; "continuity.A"] with
  | Returned comp =>
      exists validated bit_reproducible,
        item "Validated" comp = Some (Flag validated)
        /\ item "Bit-reproducible" comp = Some (Flag bit_reproducible)
        /\ (validated = true <->
            forall test ref c,
              (test, ref) ∈ last_pairs [("A", "ref.A"); ("A", "continuity.A")] ->
              compare_2_files_named Samples.sample_externals Samples.fields_expert
                Samples.fields_system test ref = Returned c ->
              comp_Validated c = true)
        /\ (bit_reproducible = true <->
            forall test ref c,
              (test, ref) ∈ last_pairs [("A", "ref.A"); ("A", "continuity.A")] ->
              compare_2_files_named Samples.sample_externals Samples.fields_expert
                Samples.fields_system test ref = Returned c ->
              comp_Bit_reproducible c = true)
        /\ forall test ref, (test, ref) ∈ [("A", "ref.A"); ("A", "continuity.A")] ->
             exists c, compare_2_files_named Samples.sample_externals Samples.fields_expert
                         Samples.fields_system test ref = Returned c
  | Raised _ => False
  end.
Proof.
  destruct (_compare Samples.sample_externals Samples.fields_expert Samples.fields_system
              ["ref.A"; "continuity.A"]) as [comp|e] eqn:E.
  - apply (overall_counts_the_last_comparison_of_a_file Samples.sample_externals
             Samples.fields_expert Samples.fields_system ["ref.A"; "continuity.A"]
             [("A", "ref.A"); ("A", "continuity.A")] comp).
    + reflexivity.
    + vm_compute. reflexivity.
    + discriminate.
    + exact E.
  - vm_compute in E. discriminate.
Defined.

End FieldsInFileExpertProofs.

(* ===================================================================== *)
(** * Properties of [NormsChecker]                                        *)
(* ===================================================================== *)

Module NormsCheckerProofs.
Import Py Expertise ExpertiseProofs FieldsProofs NormsChecker.
Local Open Scope py_scope.


Lemma for_some_none {A B} (f : A -> outcome (option B)) (l : list A) :
  (forall a, a ∈ l -> f a = Returned None) -> for_some f l = Returned [].
Proof.
  induction l as [|a l IH]; intros H; simpl; [done|].
  rewrite H by left. simpl. rewrite IH; [done|]. intros a' Ha'. apply H. by right.
Qed.

Lemma for_some_elem {A B} (f : A -> outcome (option B)) (l : list A) (l' : list B) y :
  for_some f l = Returned l' -> y ∈ l' -> exists a, a ∈ l /\ f a = Returned (Some y).
Proof.
  revert l'. induction l as [|a l IH]; intros l'; simpl.
  { intros [= <-] Hy. by apply elem_of_nil in Hy. }
  intros H Hy. apply obind_returned in H as (b & Hb & H).
  apply obind_returned in H as (bs & Hbs & H). injection H as <-.
  destruct b as [y'|].
  - apply elem_of_cons in Hy as [->|Hy].
    + exists a. split; [left|done].
    + destruct (IH bs Hbs Hy) as (a' & Ha' & Hf). exists a'. split; [by right|done].
  - destruct (IH bs Hbs Hy) as (a' & Ha' & Hf). exists a'. split; [by right|done].
Qed.

Lemma for_all_length {A B} (f : A -> outcome B) (l : list A) (l' : list B) :
  for_all f l = Returned l' -> length l' = length l.
Proof.
  revert l'. induction l as [|a l IH]; intros l'; simpl; [by intros [= <-]|].
  intros H. apply obind_returned in H as (b & _ & H).
  apply obind_returned in H as (bs & Hbs & H). injection H as <-. simpl. by rewrite (IH bs).
Qed.

Lemma for_all_elem {A B} (f : A -> outcome B) (l : list A) (l' : list B) y :
  for_all f l = Returned l' -> y ∈ l' -> exists a, a ∈ l /\ f a = Returned y.
Proof.
  revert l'. induction l as [|a l IH]; intros l'; simpl.
  { intros [= <-] Hy. by apply elem_of_nil in Hy. }
  intros H Hy. apply obind_returned in H as (b & Hb & H).
  apply obind_returned in H as (bs & Hbs & H). injection H as <-.
  apply elem_of_cons in Hy as [->|Hy].
  - exists a. split; [left|done].
  - destruct (IH bs Hbs Hy) as (a' & Ha' & Hf). exists a'. split; [by right|done].
Qed.

(** X26: with [normstype] 'gpnorms' and the mode 'last_spectral', which
    is the default one, [summary] never returns: once the norms are
    restricted to the gridpoint ones, no step holds spectral norms, and
    the last such step is asked for. *)
Theorem gridpoint_norms_have_no_last_spectral_step (normset : list (gmap string value)) :
  exists e, summary (Attributes "gpnorms" "last_spectral") normset = Raised e.
Proof.
  unfold summary. simpl normstype. simpl mode.
  rewrite bool_decide_eq_true_2 by (right; left).
  destruct (for_some (restricted "gpnorms") normset) as [l|e] eqn:E; [|eauto].
  simpl obind. change (String.eqb "last_spectral" "all") with false.
  change (String.eqb "last_spectral" "last") with false.
  change (String.eqb "last_spectral" "last_spectral") with true. cbv iota.
  rewrite (for_some_none spectral_step l).
  - simpl. eauto.
  - intros n Hn. destruct (for_some_elem _ _ _ _ E Hn) as (n0 & _ & Hr).
    unfold restricted in Hr. apply obind_returned in Hr as (x & _ & Hr).
    apply obind_returned in Hr as (k & _ & Hr). destruct (negb _); [|done].
    apply obind_returned in Hr as (step & _ & Hr). injection Hr as <-.
    unfold spectral_step. rewrite lookup_insert_ne by done.
    rewrite lookup_singleton_ne by done. done.
Qed.


Lemma pop_empty_spec n n' :
  pop_empty n = Returned n' -> map_Forall (fun _ v => is_empty v = false) n'.
Proof.
  unfold pop_empty. destruct (bool_decide _); [|done]. intros [= <-].
  intros k v Hk. by apply map_lookup_filter_Some in Hk as [_ Hk].
Qed.

Lemma last_of_elem (l : list (gmap string value)) n : last_of l = Returned n -> n ∈ l.
Proof.
  unfold last_of. destruct (last l) as [x|] eqn:E; [|done]. intros [= <-].
  apply last_Some in E as (l' & ->). apply elem_of_app. right. left.
Qed.

(** X27: when [summary] returns, 'Number of steps' counts the steps of
    the listing, whatever [normstype] and the mode leave of them; the
    modes 'last' and 'last_spectral' return only for a listing with a
    step; and no step written in the summary keeps an entry that is
    empty. *)
Theorem summary_counts_every_step (self : attributes) (normset : list (gmap string value))
    (v : value) :
  summary self normset = Returned v ->
  exists d, v = VDict d
    /\ d !! "Number of steps" = Some (VInt (Z.of_nat (length normset)))
    /\ (mode self = "last" \/ mode self = "last_spectral" -> normset <> [])
    /\ (forall key n, d !! key = Some (VDict n) ->
          map_Forall (fun _ x => is_empty x = false) n)
    /\ (forall key l n, d !! key = Some (VList l) -> VDict n ∈ l ->
          map_Forall (fun _ x => is_empty x = false) n).
Proof.
  unfold summary. intros H.
  apply obind_returned in H as ([l1 suffix] & Hrestr & H).
  apply obind_returned in H as ([l2 entry] & Hchoice & H).
  apply obind_returned in H as (l3 & Hclean & H).
  assert (Hcleaned : forall n, n ∈ l3 -> map_Forall (fun _ x => is_empty x = false) n).
  { intros n Hn. destruct (for_all_elem _ _ _ _ Hclean Hn) as (n0 & _ & Hp).
    by apply pop_empty_spec in Hp. }
  assert (Hempty : mode self = "last" \/ mode self = "last_spectral" -> normset <> []).
  { intros Hm ->. simpl in Hrestr.
    assert (l1 = []) as -> by (destruct (bool_decide _); by injection Hrestr as <- _).
    destruct Hm as [Hm|Hm]; rewrite Hm in Hchoice; simpl in Hchoice; discriminate. }
  destruct entry as [[key [|]]|].
  - injection H as <-. eexists. split; [reflexivity|].
    assert (Hk : key <> "Number of steps").
    { destruct (String.eqb (mode self) "all"); [injection Hchoice as _ <-; discriminate|].
      destruct (String.eqb (mode self) "last").
      { apply obind_returned in Hchoice as (? & _ & Hc). discriminate. }
      destruct (String.eqb (mode self) "last_spectral"); [|discriminate].
      apply obind_returned in Hchoice as (? & _ & Hc).
      apply obind_returned in Hc as (? & _ & Hc). discriminate. }
    split; [by rewrite lookup_insert_ne, lookup_singleton_eq|]. split; [done|]. split.
    + intros key' n Hn. destruct (decide (key = key')) as [->|Hne].
      * rewrite lookup_insert_eq in Hn. discriminate.
      * rewrite lookup_insert_ne in Hn by done.
        apply lookup_singleton_Some in Hn as [_ Hn]. discriminate.
    + intros key' l n Hl Hn. destruct (decide (key = key')) as [->|Hne].
      * rewrite lookup_insert_eq in Hl. injection Hl as <-.
        apply list_elem_of_In, in_map_iff in Hn as (n' & [= ->] & Hn').
        apply Hcleaned. by apply list_elem_of_In.
      * rewrite lookup_insert_ne in Hl by done.
        apply lookup_singleton_Some in Hl as [_ Hl]. discriminate.
  - apply obind_returned in H as (n & Hn & H). injection H as <-.
    eexists. split; [reflexivity|].
    assert (Hk : key <> "Number of steps").
    { destruct (String.eqb (mode self) "all"); [discriminate|].
      destruct (String.eqb (mode self) "last").
      { apply obind_returned in Hchoice as (? & _ & Hc). injection Hc as _ <-. discriminate. }
      destruct (String.eqb (mode self) "last_spectral"); [|discriminate].
      apply obind_returned in Hchoice as (? & _ & Hc).
      apply obind_returned in Hc as (? & _ & Hc). injection Hc as _ <-. discriminate. }
    split; [by rewrite lookup_insert_ne, lookup_singleton_eq|]. split; [done|]. split.
    + intros key' n' Hn'. destruct (decide (key = key')) as [->|Hne].
      * rewrite lookup_insert_eq in Hn'. injection Hn' as <-.
        apply Hcleaned. by apply last_of_elem.
      * rewrite lookup_insert_ne in Hn' by done.
        apply lookup_singleton_Some in Hn' as [_ Hn']. discriminate.
    + intros key' l n' Hl Hn'. destruct (decide (key = key')) as [->|Hne].
      * rewrite lookup_insert_eq in Hl. discriminate.
      * rewrite lookup_insert_ne in Hl by done.
        apply lookup_singleton_Some in Hl as [_ Hl]. discriminate.
  - injection H as <-. eexists. split; [reflexivity|].
    split; [by rewrite lookup_singleton_eq|]. split; [done|]. split.
    + intros key n Hn. apply lookup_singleton_Some in Hn as [_ Hn]. discriminate.
    + intros key l n Hl. apply lookup_singleton_Some in Hl as [_ Hl]. discriminate.
Qed.


Section Listings.
Variable py_repr : value -> string.
Variable X : externals.

(** X28: a summary made with [normstype] 'spnorms' or 'gpnorms' cannot
    be compared in the mode it was made with: its norms are under a key
    that ends with the suffix '(... only)', [compare_2summaries] reads
    the key without suffix, and raises KeyError. *)
Theorem restricted_summary_is_not_compared (self : attributes)
    (normset : list (gmap string value)) (test ref : gmap string value)
    (plot_spectral : bool) (validation_threshold : Z) (key : string) :
  normstype self ∈ ["spnorms"; "gpnorms"] ->
  _modes !! mode self = Some key ->
  summary self normset = Returned (VDict test) ->
  compare_2summaries py_repr X test ref plot_spectral (mode self) validation_threshold
  = Raised (KeyError key).
Proof.
  intros Ht Hm H.
  assert (Hno : test !! key = None).
  { unfold summary in H. rewrite bool_decide_eq_true_2 in H by done.
    apply obind_returned in H as ([l1 suffix] & Hrestr & H).
    apply obind_returned in Hrestr as (l0 & _ & Hrestr). injection Hrestr as <- <-.
    apply obind_returned in H as ([l2 entry] & Hchoice & H).
    apply obind_returned in H as (l3 & _ & H).
    assert (Hmode : mode self = "all" \/ mode self = "last" \/ mode self = "last_spectral").
    { unfold _modes in Hm. simpl in Hm.
      destruct (decide (mode self = "all")) as [|H1]; [auto|].
      destruct (decide (mode self = "last")) as [|H2]; [auto|].
      destruct (decide (mode self = "last_spectral")) as [|H3]; [auto|].
      rewrite !lookup_insert_ne, lookup_empty in Hm by done. done. }
    assert (Hty : normstype self = "spnorms" \/ normstype self = "gpnorms").
    { rewrite !elem_of_cons, elem_of_nil in Ht. tauto. }
    destruct Hmode as [E|[E|E]]; rewrite E in Hm, Hchoice; vm_compute in Hm;
      injection Hm as <-; simpl in Hchoice.
    - injection Hchoice as <- <-. injection H as <-.
      rewrite lookup_insert_ne, lookup_singleton_ne; [done|done|].
      destruct Hty as [-> | ->]; done.
    - apply obind_returned in Hchoice as (? & _ & Hc). injection Hc as <- <-.
      apply obind_returned in H as (n & _ & H). injection H as <-.
      rewrite lookup_insert_ne, lookup_singleton_ne; [done|done|].
      destruct Hty as [-> | ->]; done.
    - apply obind_returned in Hchoice as (? & _ & Hc).
      apply obind_returned in Hc as (? & _ & Hc). injection Hc as <- <-.
      apply obind_returned in H as (n & _ & H). injection H as <-.
      rewrite lookup_insert_ne, lookup_singleton_ne; [done|done|].
      destruct Hty as [-> | ->]; done. }
  unfold compare_2summaries, mode_key. rewrite Hm.
  destruct (bool_decide _); simpl obind; unfold subscript at 1; rewrite Hno; reflexivity.
Qed.

Lemma _compare_2normsets_spec (testset refset : norms_set X)
    (plot_spectral : bool) (validation_threshold : Z) (doc : value) :
  _compare_2normsets py_repr X testset refset plot_spectral validation_threshold
  = Returned doc ->
  exists d worst_digit,
    doc = VDict d
    /\ compare_normsets_worst X testset refset = Returned worst_digit
    /\ d !! "Maximum different digits" = Some (VInt worst_digit)
    /\ d !! "Validated" = Some (VBool (worst_digit <=? validation_threshold)%Z)
    /\ d !! "Bit-reproducible" = Some (VBool (worst_digit <=? NORMSDIGITS_BITREPRO X)%Z)
    /\ d !! "Validated means"
       = Some (VStr ("Maximum number of different digits in norms is lower or equal to "
                     +:+ py_repr (VInt validation_threshold)))
    /\ (is_Some (d !! "_Norms Compared (all)") <-> (validation_threshold < worst_digit)%Z)
    /\ (is_Some (d !! "Graph: Spectral norms evolution (SVG)") <-> plot_spectral = true)
    /\ states_validation_well d = true
    /\ carries_plus doc = false.
Proof.
  unfold _compare_2normsets. intros H.
  apply obind_returned in H as (comp & _ & H).
  apply obind_returned in H as (worst & Hw & H).
  set (base := list_to_map _ : gmap string value) in H.
  set (d1 := if negb _ then _ else _) in H.
  assert (Hbase : forall k, k <> "_Norms Compared (all)" -> d1 !! k = base !! k).
  { intros k Hk. unfold d1. destruct (negb _); [|done]. by rewrite lookup_insert_ne. }
  assert (Hcomp : is_Some (d1 !! "_Norms Compared (all)")
                  <-> (validation_threshold < worst)%Z).
  { unfold d1. destruct (Z.leb_spec worst validation_threshold); simpl.
    - split; [|lia]. intros [x Hx]. vm_compute in Hx. discriminate.
    - rewrite lookup_insert_eq. split; [done|eauto]. }
  assert (Hgraph : d1 !! "Graph: Spectral norms evolution (SVG)" = None).
  { rewrite Hbase by done. done. }
  assert (Hfinal : exists d, doc = VDict d
            /\ (forall k, k <> "Graph: Spectral norms evolution (SVG)" -> d !! k = d1 !! k)
            /\ (is_Some (d !! "Graph: Spectral norms evolution (SVG)")
                <-> plot_spectral = true)).
  { destruct plot_spectral.
    - apply obind_returned in H as (svg & _ & H). injection H as <-.
      eexists. split; [reflexivity|]. split.
      + intros k Hk. by rewrite lookup_insert_ne.
      + rewrite lookup_insert_eq. split; [done|eauto].
    - injection H as <-. exists d1. split; [done|]. split; [done|].
      rewrite Hgraph. split; [by intros [? ?]|done]. }
  destruct Hfinal as (d & -> & Hd & Hplot).
  exists d, worst. split; [done|]. split; [done|].
  rewrite !Hd, !Hbase by done.
  split; [done|]. split; [done|]. split; [done|]. split; [done|].
  split; [done|]. split; [done|]. split.
  - unfold states_validation_well. rewrite !Hd, !Hbase by done.
    change (base !! "Validated") with (Some (VBool (worst <=? validation_threshold)%Z)).
    cbv iota. apply bool_decide_eq_true_2. eexists. reflexivity.
  - simpl. rewrite Hd, Hbase by done. done.
Qed.

(** X29: the document [_compare_2normsets] returns is 'Validated'
    exactly when the worst digit is at most the threshold, and it holds
    the detail of the norms compared exactly when it is not validated,
    the graph exactly when [plot_spectral]; it is a document [_status]
    reads without raising, and it does not carry '+'. *)
Theorem norms_document_states_its_validation (testset refset : norms_set X)
    (plot_spectral : bool) (validation_threshold : Z) (doc : value) :
  _compare_2normsets py_repr X testset refset plot_spectral validation_threshold
  = Returned doc ->
  exists d worst_digit,
    doc = VDict d
    /\ compare_normsets_worst X testset refset = Returned worst_digit
    /\ d !! "Maximum different digits" = Some (VInt worst_digit)
    /\ d !! "Validated" = Some (VBool (worst_digit <=? validation_threshold)%Z)
    /\ d !! "Bit-reproducible" = Some (VBool (worst_digit <=? NORMSDIGITS_BITREPRO X)%Z)
    /\ d !! "Validated means"
       = Some (VStr ("Maximum number of different digits in norms is lower or equal to "
                     +:+ py_repr (VInt validation_threshold)))
    /\ (is_Some (d !! "_Norms Compared (all)") <-> (validation_threshold < worst_digit)%Z)
    /\ (is_Some (d !! "Graph: Spectral norms evolution (SVG)") <-> plot_spectral = true)
    /\ states_validation_well d = true
    /\ carries_plus doc = false.
Proof. apply _compare_2normsets_spec. Qed.

(** X30: on a board whose only expert holds, in a summary, the document
    [_compare_2normsets] returned, [_status] returns and states 'OK' when
    the worst digit is at most the threshold, and 'KO' otherwise, with
    the threshold in its text. *)
Theorem norms_verdict_follows_the_threshold (b : board) (w : which_summary) (e : expert)
    (testset refset : norms_set X) (plot_spectral : bool) (validation_threshold : Z)
    (doc : value) :
  experts b = [e] -> side_expert e = false -> kind e <> "comparisonStatus" ->
  getattr w b !! kind e = Some doc ->
  _compare_2normsets py_repr X testset refset plot_spectral validation_threshold
  = Returned doc ->
  exists worst_digit,
    compare_normsets_worst X testset refset = Returned worst_digit
    /\ fst (_status py_repr w b) = Returned tt
    /\ getattr w (snd (_status py_repr w b)) !! "comparisonStatus"
       = Some (if (worst_digit <=? validation_threshold)%Z
               then mk_status "OK" "OK"
                      ("Success: " +:+ dquote
                       +:+ "Maximum number of different digits in norms is lower or equal to "
                       +:+ py_repr (VInt validation_threshold) +:+ dquote)
               else mk_status "KO" "KO"
                      ("Fail: " +:+ dquote
                       +:+ "Maximum number of different digits in norms is lower or equal to "
                       +:+ py_repr (VInt validation_threshold) +:+ dquote +:+ " is False")).
Proof.
  intros Hex Hside Hk Hdoc H.
  destruct (_compare_2normsets_spec _ _ _ _ _ H)
    as (d & worst & -> & Hw & _ & Hv & _ & Hm & _ & _ & Hwf & Hnp).
  exists worst. split; [done|].
  destruct (status_merges py_repr w b) as (Hret & Hcs & _).
  - intros E. rewrite E in Hdoc. by rewrite lookup_empty in Hdoc.
  - rewrite Hex. intros e' He'. apply list_elem_of_singleton in He'. by subst e'.
  - rewrite Hex. intros e' v He' Hv'. apply list_elem_of_singleton in He'. subst e'.
    rewrite Hdoc in Hv'. injection Hv' as <-. split; [|done]. simpl. by rewrite Hside.
  - split; [done|]. rewrite Hcs, Hex. unfold stating.
    rewrite filter_cons_True by done. rewrite filter_nil. simpl.
    unfold verdict. rewrite Hdoc, Hv, Hm. simpl.
    destruct (worst <=? validation_threshold)%Z; reflexivity.
Qed.

End Listings.

(** ** Runs of the statements above *)

Lemma summary_counts_every_step_witness :
  match summary (Attributes "both" "all") Samples.one_step with
  | Returned v =>
      exists d, v = VDict d
        /\ d !! "Number of steps" = Some (VInt (Z.of_nat (length Samples.one_step)))
        /\ (mode (Attributes "both" "all") = "last"
            \/ mode (Attributes "both" "all") = "last_spectral" -> Samples.one_step <> [])
        /\ (forall key n, d !! key = Some (VDict n) ->
              map_Forall (fun _ x => is_empty x = false) n)
        /\ (forall key l n, d !! key = Some (VList l) -> VDict n ∈ l ->
              map_Forall (fun _ x => is_empty x = false) n)
  | Raised _ => False
  end.
Proof.
  destruct (summary (Attributes "both" "all") Samples.one_step) as [v|e] eqn:E.
  - exact (summary_counts_every_step (Attributes "both" "all") Samples.one_step v E).
  - vm_compute in E. discriminate.
Defined.

Lemma restricted_summary_is_not_compared_witness :
  match summary (Attributes "spnorms" "all") Samples.one_step with
  | Returned (VDict test) =>
      compare_2summaries Samples.sample_repr Samples.sample_norms test test false
        (mode (Attributes "spnorms" "all")) 2
      = Raised (KeyError "_Norms at each step")
  | _ => False
  end.
Proof.
  destruct (summary (Attributes "spnorms" "all") Samples.one_step) as [v|e] eqn:E.
  - destruct v as [| | | | |test]; try (vm_compute in E; discriminate).
    apply (restricted_summary_is_not_compared Samples.sample_repr Samples.sample_norms
             (Attributes "spnorms" "all") Samples.one_step test test false 2
             "_Norms at each step").
    + left.
    + reflexivity.
    + exact E.
  - vm_compute in E. discriminate.
Defined.

Lemma norms_document_states_its_validation_witness :
  exists d worst_digit,
    Samples.norms_document = VDict d
    /\ compare_normsets_worst Samples.sample_norms tt tt = Returned worst_digit
    /\ d !! "Maximum different digits" = Some (VInt worst_digit)
    /\ d !! "Validated" = Some (VBool (worst_digit <=? 2)%Z)
    /\ d !! "Bit-reproducible"
       = Some (VBool (worst_digit <=? NORMSDIGITS_BITREPRO Samples.sample_norms)%Z)
    /\ d !! "Validated means"
       = Some (VStr ("Maximum number of different digits in norms is lower or equal to "
                     +:+ Samples.sample_repr (VInt 2)))
    /\ (is_Some (d !! "_Norms Compared (all)") <-> (2 < worst_digit)%Z)
    /\ (is_Some (d !! "Graph: Spectral norms evolution (SVG)") <-> false = true)
    /\ states_validation_well d = true
    /\ carries_plus Samples.norms_document = false.
Proof.
  apply (norms_document_states_its_validation Samples.sample_repr Samples.sample_norms
           tt tt false 2 Samples.norms_document).
  vm_compute. reflexivity.
Defined.

Lemma norms_verdict_follows_the_threshold_witness :
  exists worst_digit,
    compare_normsets_worst Samples.sample_norms tt tt = Returned worst_digit
    /\ fst (_status Samples.sample_repr continuity_ Samples.norms_board) = Returned tt
    /\ continuity (snd (_status Samples.sample_repr continuity_ Samples.norms_board))
         !! "comparisonStatus"
       = Some (if (worst_digit <=? 2)%Z
               then mk_status "OK" "OK"
                      ("Success: " +:+ dquote
                       +:+ "Maximum number of different digits in norms is lower or equal to "
                       +:+ Samples.sample_repr (VInt 2) +:+ dquote)
               else mk_status "KO" "KO"
                      ("Fail: " +:+ dquote
                       +:+ "Maximum number of different digits in norms is lower or equal to "
                       +:+ Samples.sample_repr (VInt 2) +:+ dquote +:+ " is False")).
Proof.
  apply (norms_verdict_follows_the_threshold Samples.sample_repr Samples.sample_norms
           Samples.norms_board continuity_ (Samples.an_expert "norms" false)
           tt tt false 2 Samples.norms_document).
  - reflexivity.
  - reflexivity.
  - discriminate.
  - vm_compute. reflexivity.
  - vm_compute. reflexivity.
Defined.

End NormsCheckerProofs.
